(** * Heartwise ECG analyzer: the rule-based analysis pipeline

    A shallow embedding of [ml-service/ecg_analyzer.py] (class
    [ECGAnalyzer]) and of the NumPy / SciPy routines it calls.

    Numbers.  The Python code computes on IEEE doubles.  Here a float is an
    exact rational ([Q]); every comparison, sum, quotient and rounding is
    the exact one.  The square root ([np.sqrt], inside [np.std]) and the
    Butterworth coefficient design ([scipy.signal.butter]) are not rational
    functions: both are variables of the section [Analyzer], so that every
    theorem there holds whatever values they return.  Array indices and
    counts are [nat] or [Z]; labels are strings, as in the source.

    Rounding.  A double rounds where a rational does not, so the theorems
    stated about the code are those that survive it: properties of order,
    length and structure; bounds, with a margin where a threshold or a
    rounding to decimals is involved; and equalities of computed numbers
    only on inputs whose double arithmetic is exact (samples of one integer
    value, negated samples).  The lemmas in between are exact facts about
    rationals.

    Exceptions.  A Python function that may raise returns a [result]; the
    [try ... except Exception] of [analyze] is the match on that result.

    Service.  The two POST handlers of [ml-service/app.py] are embedded on
    the value returned by [request.get_json()], for bodies whose fields have
    the documented types: [ecgData] a list of objects, [voltage_mv] a number,
    [sampleRate] an integer.  A key that is absent is [None]; the clock
    reading [datetime.now().isoformat()] is an argument. *)

From Stdlib Require Import List String Ascii ZArith QArith Qround Qabs Bool Lia Lqa.
From Stdlib Require Import Sorted Permutation.
From stdpp Require Import base list.

Open Scope string_scope.
Open Scope Q_scope.

(** ** Exceptions *)

Inductive exn : Type :=
| ValueError (msg : string)
| ZeroDivisionError (msg : string)
| LinAlgError (msg : string).

(** [str(e)] *)
Definition str (e : exn) : string :=
  match e with
  | ValueError m | ZeroDivisionError m | LinAlgError m => m
  end.

Inductive result (A : Type) : Type :=
| Ok (a : A)
| Raise (e : exn).
Arguments Ok {A} a.
Arguments Raise {A} e.

#[global] Instance result_ret : MRet result := fun A a => Ok a.

#[global] Instance result_bind : MBind result := fun A B k r =>
  match r with
  | Ok a => k a
  | Raise e => Raise e
  end.

Definition raises {A} (r : result A) : Prop := exists e, r = Raise e.

(** ** Python and NumPy arithmetic on exact rationals *)

Definition Qltb (x y : Q) : bool := negb (Qle_bool y x).
Definition Qgtb (x y : Q) : bool := Qltb y x.

Definition Zlen {A} (l : list A) : Z := Z.of_nat (length l).
Definition Qlen {A} (l : list A) : Q := inject_Z (Zlen l).

(** Python's true division of two numbers: [ZeroDivisionError] on a zero
    divisor (plain Python numbers only; NumPy scalars divide to inf). *)
Definition py_div (x y : Q) : result Q :=
  if Qeq_bool y 0 then Raise (ZeroDivisionError "float division by zero")
  else Ok (x / y).

(** [int(x)]: truncation toward zero. *)
Definition py_int (x : Q) : Z := if Qltb x 0 then Qceiling x else Qfloor x.

(** Round half to even, the rule of [round] and [np.round]. *)
Definition round_half_even (x : Q) : Z :=
  let f := Qfloor x in
  match Qcompare (x - inject_Z f) (1 # 2) with
  | Lt => f
  | Gt => (f + 1)%Z
  | Eq => if Z.even f then f else (f + 1)%Z
  end.

(** [round(x, ndigits)] *)
Definition py_round (x : Q) (ndigits : nat) : Q :=
  let scale := inject_Z (10 ^ Z.of_nat ndigits) in
  inject_Z (round_half_even (x * scale)) / scale.

Definition Qsum (l : list Q) : Q := fold_left Qplus l 0.

(** [np.mean]; of an empty array NumPy gives nan (with a warning), here the
    quotient by zero is 0.  No caller below uses the mean of an empty array
    without raising afterwards. *)
Definition np_mean (l : list Q) : Q := Qsum l / Qlen l.

(** [np.diff]: successive differences, one element shorter. *)
Fixpoint np_diff (l : list Q) : list Q :=
  match l with
  | x :: (y :: _) as t => (y - x) :: np_diff t
  | _ => []
  end.

Fixpoint np_diffZ (l : list Z) : list Z :=
  match l with
  | x :: (y :: _) as t => (y - x)%Z :: np_diffZ t
  | _ => []
  end.

Definition Qmaxb (x y : Q) : Q := if Qltb x y then y else x.
Definition Qminb (x y : Q) : Q := if Qltb y x then y else x.

(** [np.max] / [np.min]: [ValueError] on a zero-size array. *)
Definition np_max (l : list Q) : result Q :=
  match l with
  | [] => Raise (ValueError "zero-size array to reduction operation maximum which has no identity")
  | x :: t => Ok (fold_left Qmaxb t x)
  end.

Definition np_min (l : list Q) : result Q :=
  match l with
  | [] => Raise (ValueError "zero-size array to reduction operation minimum which has no identity")
  | x :: t => Ok (fold_left Qminb t x)
  end.

(** [np.sum] of a boolean array: the number of [True]. *)
Definition np_count (l : list bool) : Z := Zlen (filter (fun b => Is_true b) l).

(** [needle in haystack] on strings. *)
Fixpoint str_in (needle haystack : string) : bool :=
  if String.prefix needle haystack then true
  else match haystack with
       | EmptyString => false
       | String _ rest => str_in needle rest
       end.

(** ** Records of the analyzer *)

(** An f-string: literal text and numbers printed with a fixed number of
    decimals ([{x:.0f}], [{x:.1f}]) or as an integer ([{n}]). *)
Inductive fragment : Type :=
| Lit (s : string)
| Fixed (x : Q) (decimals : nat)
| Int (n : Z).

Definition fstring : Type := list fragment.

Record Abnormality : Type := mkAbnormality {
  atype : string;
  severity : string;
  description : fstring;
  recommendation : string
}.

Record HRV : Type := mkHRV { SDNN : Q; RMSSD : Q; pNN50 : Q }.

Record SignalQuality : Type := mkSignalQuality {
  quality : string;
  score : Q;
  std_deviation : Q;
  signal_range : Q
}.

(** The [details] dictionary.  The error record of [analyze] has only the
    keys [error], [heartRate], [rhythm] and [abnormalities]; the regular
    record has every key but [error]. *)
Record Details : Type := mkDetails {
  error : option string;
  heartRate : Q;
  heartRateRange : option (Q * Q);
  rhythm : string;
  qrsCount : option Z;
  hrv : option HRV;
  abnormalities : list Abnormality;
  signalQuality : option SignalQuality
}.

Record AnalysisResult : Type := mkAnalysisResult {
  classification : string;
  confidence : Q;
  risk_level : string;
  details : Details;
  analysis_type : string;
  recommendations : option (list string)
}.

(** The three locals [classification], [abnormalities], [risk_level] that
    the rules of [detect_arrhythmias] read and assign in sequence. *)
Record RuleState : Type := mkRuleState {
  st_classification : string;
  st_abnormalities : list Abnormality;
  st_risk_level : string
}.

(** ** NumPy and SciPy routines called by the analyzer *)

(** [np.ones(n) / n]; [np.ones] refuses a negative size. *)
Definition np_ones_over (n : Z) : result (list Q) :=
  if (n <? 0)%Z then Raise (ValueError "negative dimensions are not allowed")
  else Ok (repeat (1 / inject_Z n) (Z.to_nat n)).

Fixpoint add_lists (u v : list Q) : list Q :=
  match u, v with
  | [], _ => v
  | _, [] => u
  | x :: u', y :: v' => (x + y) :: add_lists u' v'
  end.

(** The full discrete convolution, [len a + len v - 1] long. *)
Fixpoint convolve_full (a v : list Q) : list Q :=
  match a with
  | [] => []
  | x :: a' => add_lists (map (Qmult x) v) (0 :: convolve_full a' v)
  end.

(** [np.convolve(a, v, mode='same')]: the centred [max(M, N)] values of the
    full convolution; an empty argument is refused. *)
Definition np_convolve_same (a v : list Q) : result (list Q) :=
  match a, v with
  | [], _ => Raise (ValueError "a cannot be empty")
  | _, [] => Raise (ValueError "v cannot be empty")
  | _, _ =>
    let n := Nat.min (length a) (length v) in
    Ok (firstn (Nat.max (length a) (length v)) (skipn ((n - 1) / 2) (convolve_full a v)))
  end.

(** Validation done by [scipy.signal.butter] for a digital band-pass
    design; the coefficients themselves come from [butter_band]. *)
Definition butter (butter_band : nat -> Q -> Q -> list Q * list Q)
    (N : nat) (low high : Q) : result (list Q * list Q) :=
  if Qle_bool low 0 || Qle_bool high 0 then
    Raise (ValueError "filter critical frequencies must be greater than 0")
  else if negb (Qltb low high) then
    Raise (ValueError "Wn[0] must be less than Wn[1]")
  else if Qle_bool 1 low || Qle_bool 1 high then
    Raise (ValueError "Digital filter critical frequencies must be 0 < Wn < 1")
  else Ok (butter_band N low high).

(** *** [scipy.signal.filtfilt] with its defaults (odd padding, padlen
    3 * max(len a, len b), steady-state initial conditions) *)

Definition pad_to (n : nat) (l : list Q) : list Q := l ++ repeat 0 (n - length l).

(** Coefficients divided by [a[0]] and zero-padded to one length.  SciPy
    raises on an empty [a] or on [a[0] == 0]. *)
Definition normalize (b a : list Q) : result (list Q * list Q) :=
  match a with
  | [] => Raise (ValueError "There must be at least one nonzero `a` coefficient.")
  | a0 :: _ =>
    if Qeq_bool a0 0 then Raise (ValueError "Filter coefficient a[0] == 0 not supported yet")
    else
      let n := Nat.max (length a) (length b) in
      Ok (pad_to n (map (fun c => c / a0) b), pad_to n (map (fun c => c / a0) a))
  end.

Definition zip3 (f : Q -> Q -> Q -> Q) (u v w : list Q) : list Q :=
  map (fun t => f (fst (fst t)) (snd (fst t)) (snd t)) (combine (combine u v) w).

(** One sample through the transposed direct form II:
    y = b0 x + z0;  z_i' = b_{i+1} x + z_{i+1} - a_{i+1} y. *)
Definition lfilter_step (b a z : list Q) (x : Q) : Q * list Q :=
  let y := hd 0 b * x + hd 0 z in
  (y, zip3 (fun bi ai zn => bi * x + zn - ai * y) (tl b) (tl a) (tl z ++ [0])).

Fixpoint lfilter_run (b a z xs : list Q) : list Q * list Q :=
  match xs with
  | [] => ([], z)
  | x :: xs' =>
    let '(y, z') := lfilter_step b a z x in
    let '(ys, zf) := lfilter_run b a z' xs' in
    (y :: ys, zf)
  end.

Fixpoint zi_rest (z0 asum csum : Q) (aB : list (Q * Q)) : list Q :=
  match aB with
  | [] => []
  | (ak, Bk) :: t =>
    let asum := asum + ak in
    let csum := csum + Bk in
    (asum * z0 - csum) :: zi_rest z0 asum csum t
  end.

(** [lfilter_zi] on normalized coefficients: the solution of
    (I - A^T) zi = B, with B = b[1:] - a[1:] b[0], by the explicit formulas;
    the system is singular exactly when sum(a) = 0. *)
Definition lfilter_zi (b a : list Q) : result (list Q) :=
  let B := zip3 (fun bk ak b0 => bk - ak * b0) (tl b) (tl a) (repeat (hd 0 b) (length (tl b))) in
  match B with
  | [] => Ok []
  | _ =>
    if Qeq_bool (Qsum a) 0 then Raise (LinAlgError "Singular matrix")
    else
      let z0 := Qsum B / Qsum a in
      Ok (z0 :: zi_rest z0 1 0 (removelast (combine (tl a) B)))
  end.

(** [odd_ext(x, n)]: the signal extended at both ends by point reflection. *)
Definition odd_ext (x : list Q) (n : nat) : list Q :=
  let left_end := hd 0 x in
  let right_end := List.last x 0 in
  map (fun v => 2 * left_end - v) (rev (firstn n (tl x)))
  ++ x
  ++ map (fun v => 2 * right_end - v) (firstn n (tl (rev x))).

Definition filtfilt (b a x : list Q) : result (list Q) :=
  let edge := (3 * Nat.max (length a) (length b))%nat in
  if (length x <=? edge)%nat then
    Raise (ValueError "The length of the input vector x must be greater than padlen")
  else
    let ext := odd_ext x edge in
    '(b', a') ← normalize b a;
    zi ← lfilter_zi b' a';
    let x0 := hd 0 ext in
    let y := fst (lfilter_run b' a' (map (fun z => z * x0) zi) ext) in
    let y0 := List.last y 0 in
    let y := fst (lfilter_run b' a' (map (fun z => z * y0) zi) (rev y)) in
    let y := rev y in
    Ok (firstn (length x) (skipn edge y)).

(** *** [scipy.signal.find_peaks(x, height=h, distance=d)] *)

(** The inner loop of [_local_maxima_1d]: advance [i_ahead] while it is
    below [i_max] and [x[i_ahead] == x[i]]. *)
Fixpoint plateau_end (fuel : nat) (x : list Q) (xi : Q) (i_max i_ahead : nat) : nat :=
  match fuel with
  | O => i_ahead
  | S fuel' =>
    if (i_ahead <? i_max)%nat && Qeq_bool (nth i_ahead x 0) xi
    then plateau_end fuel' x xi i_max (S i_ahead)
    else i_ahead
  end.

(** The outer loop: [i] runs from 1 while [i < i_max]; a maximum is a
    sample above its left neighbour whose plateau ends on a lower sample,
    recorded at the plateau's midpoint. *)
Fixpoint local_maxima_loop (fuel : nat) (x : list Q) (i_max i : nat) : list nat :=
  match fuel with
  | O => []
  | S fuel' =>
    if (i <? i_max)%nat then
      if Qltb (nth (i - 1) x 0) (nth i x 0) then
        let i_ahead := plateau_end (i_max - i) x (nth i x 0) i_max (i + 1) in
        if Qltb (nth i_ahead x 0) (nth i x 0) then
          ((i + (i_ahead - 1)) / 2)%nat :: local_maxima_loop fuel' x i_max (i_ahead + 1)
        else local_maxima_loop fuel' x i_max (i + 1)
      else local_maxima_loop fuel' x i_max (i + 1)
    else []
  end.

Definition _local_maxima_1d (x : list Q) : list nat :=
  local_maxima_loop (length x) x (length x - 1) 1.

(** [np.argsort]: positions in increasing order of key, equal keys in
    increasing order of position (insertion sort, from the last position
    down to the first). *)
Fixpoint insert_by (key : nat -> Q) (i : nat) (l : list nat) : list nat :=
  match l with
  | [] => [i]
  | j :: l' => if Qle_bool (key i) (key j) then i :: l else j :: insert_by key i l'
  end.

Definition argsort (priority : list Q) : list nat :=
  fold_right (insert_by (fun i => nth i priority 0)) [] (seq 0 (length priority)).

(** [while 0 <= k and peaks[j] - peaks[k] < distance_: keep[k] = 0; k -= 1],
    started at k = j - 1; the argument is k + 1. *)
Fixpoint flag_earlier (peaks : list Z) (pj distance_ : Z) (k1 : nat)
    (keep : list bool) : list bool :=
  match k1 with
  | O => keep
  | S k =>
    if (pj - nth k peaks 0 <? distance_)%Z
    then flag_earlier peaks pj distance_ k (<[k := false]> keep)
    else keep
  end.

(** [while k < peaks_size and peaks[k] - peaks[j] < distance_: keep[k] = 0;
    k += 1]; [later] is [peaks[k:]]. *)
Fixpoint flag_later (later : list Z) (pj distance_ : Z) (k : nat)
    (keep : list bool) : list bool :=
  match later with
  | [] => keep
  | pk :: later' =>
    if (pk - pj <? distance_)%Z
    then flag_later later' pj distance_ (S k) (<[k := false]> keep)
    else keep
  end.

(** One round of the priority loop, for the peak at position [j]. *)
Definition select_step (peaks : list Z) (distance_ : Z) (keep : list bool) (j : nat)
    : list bool :=
  match keep !! j with
  | Some true =>
    let pj := nth j peaks 0%Z in
    let keep := flag_earlier peaks pj distance_ j keep in
    flag_later (skipn (S j) peaks) pj distance_ (S j) keep
  | _ => keep
  end.

(** [_select_by_peak_distance]: peaks are visited from the highest priority
    down; each one still kept removes its neighbours closer than the
    distance.  [distance] is an integer here, so its ceiling is itself. *)
Definition _select_by_peak_distance (peaks : list Z) (priority : list Q) (distance : Z)
    : list bool :=
  let distance_ := distance in
  let priority_to_position := argsort priority in
  fold_left (select_step peaks distance_) (rev priority_to_position)
    (repeat true (length peaks)).

(** [peaks[keep]] *)
Definition mask {A} (l : list A) (keep : list bool) : list A :=
  map fst (filter (fun t => Is_true (snd t)) (combine l keep)).

Definition find_peaks (x : list Q) (height : Q) (distance : Z) : result (list Z) :=
  if (distance <? 1)%Z then Raise (ValueError "`distance` must be greater or equal to 1")
  else
    let peaks := map Z.of_nat (_local_maxima_1d x) in
    let at_peak := fun p => nth (Z.to_nat p) x 0 in
    let peaks := filter (fun p => Is_true (Qle_bool height (at_peak p))) peaks in
    let keep := _select_by_peak_distance peaks (map at_peak peaks) distance in
    Ok (mask peaks keep).

(** ** Values for the two numeric routines left open, to run examples *)

(** A rational square root: exact on the square of a rational and rounded
    down (to a multiple of 1 / (2^32 den)) elsewhere. *)
Definition sqrt_down (x : Q) : Q :=
  let n := Qnum x in
  let d := Z.pos (Qden x) in
  if (n <=? 0)%Z then 0
  else Qred (Qmake (Z.sqrt (n * d * 4 ^ 32)) (Z.to_pos (d * 2 ^ 32))).

(** The coefficients of [butter(2, [0.04, 0.12], btype='band')], the design
    at the default 250 Hz, to seven decimals. *)
Definition butter_250 (N : nat) (low high : Q) : list Q * list Q :=
  ([0.0133592; 0; -0.0267184; 0; 0.0133592],
   [1; -3.5609475; 4.8388640; -2.9769296; 0.7008968]).

(** Example inputs: a constant trace of sixteen samples; ten R-R intervals
    of a slow, two-level rhythm (mean 2 s, 30 BPM); four alternating
    intervals (mean 0.8 s, 75 BPM); four intervals with one long step. *)
Definition flat_trace : list Q := repeat 1 16.

Definition slow_two_level_rr : list Q := [1; 1; 1; 1; 1; 3; 3; 3; 3; 3].

Definition alternating_rr : list Q := [0.6; 1.0; 0.6; 1.0].


(** Six intervals, five short and irregular and one long pause. *)
Definition paused_rr : list Q := [0.4; 0.8; 0.4; 0.8; 0.4; 3.0].

(** A band-pass sketch with integer coefficients, y[n] = x[n] - x[n-2]; it
    stands in for the Butterworth design where a run with R-peaks has to be
    evaluated exactly, sample by sample. *)
Definition difference_filter (N : nat) (low high : Q) : list Q * list Q :=
  ([1; 0; -1], [1]).

(** Three beats, 0.8 s apart at 250 Hz; two beats six samples apart. *)
Definition one_beat : list Q := (repeat 0 97 ++ [-2; 9; -7] ++ repeat 0 100)%list.

Definition pulse_train : list Q := (one_beat ++ one_beat ++ one_beat)%list.

Definition close_beats : list Q :=
  (repeat 0 10 ++ [-2; 9; -7] ++ repeat 0 3 ++ [-2; 9; -7] ++ repeat 0 10)%list.

(** Three equal intervals of 0.8 s (75 BPM). *)
Definition steady_rr : list Q := [0.8; 0.8; 0.8].

(** Four peaks 200 samples apart. *)
Definition regular_peaks : list Z := [10; 210; 410; 610]%Z.

(** ** The analyzer *)

Section Analyzer.

(** [np.sqrt] *)
Variable np_sqrt : Q -> Q.

(** [scipy.signal.butter(N, [low, high], btype='band')] on critical
    frequencies that passed its validation: the coefficient arrays [(b, a)]. *)
Variable butter_band : nat -> Q -> Q -> list Q * list Q.

(** [np.std]: the population standard deviation (ddof = 0). *)
Definition np_std (l : list Q) : Q :=
  let m := np_mean l in
  np_sqrt (np_mean (map (fun x => (x - m) * (x - m)) l)).

(** [preprocess]: remove the DC offset, then band-pass 5-15 Hz with a
    zero-phase second-order Butterworth filter. *)
Definition preprocess (ecg_signal : list Q) (sample_rate : Z) : result (list Q) :=
  let signal_array := ecg_signal in
  let signal_array :=
    let m := np_mean signal_array in map (fun v => v - m) signal_array in
  let nyquist := inject_Z sample_rate / 2 in
  low ← py_div 5 nyquist;
  high ← py_div 15 nyquist;
  '(b, a) ← butter butter_band 2 low high;
  filtfilt b a signal_array.

(** [detect_qrs_pan_tompkins]: derivative, squaring, moving-window
    integration, then peak picking; returns the R-peak locations. *)
Definition detect_qrs_pan_tompkins (ecg_signal : list Q) (sample_rate : Z)
    : result (list Z) :=
  filtered ← preprocess ecg_signal sample_rate;
  let diff := np_diff filtered in
  let squared := map (fun d => d * d) diff in
  let window_size := py_int (0.15 * inject_Z sample_rate) in
  kernel ← np_ones_over window_size;
  integrated ← np_convolve_same squared kernel;
  top ← np_max integrated;
  let threshold := 0.3 * top in
  find_peaks integrated threshold (py_int (0.2 * inject_Z sample_rate)).

(** [calculate_heart_rate]: the rate in BPM and the R-R intervals in seconds. *)
Definition calculate_heart_rate (r_peaks : list Z) (sample_rate : Z) : Q * list Q :=
  if (length r_peaks <? 2)%nat then (0, [])
  else
    let rr_intervals := map (fun d => inject_Z d / inject_Z sample_rate) (np_diffZ r_peaks) in
    let heart_rate := 60 / np_mean rr_intervals in
    (heart_rate, rr_intervals).

(** [calculate_hrv] *)
Definition calculate_hrv (rr_intervals : list Q) : HRV :=
  if (length rr_intervals <? 2)%nat then mkHRV 0 0 0
  else
    let rr_ms := map (fun x => x * 1000) rr_intervals in
    let sdnn := np_std rr_ms in
    let diff_rr := np_diff rr_ms in
    let rmssd := np_sqrt (np_mean (map (fun d => d * d) diff_rr)) in
    let nn50 := np_count (map (fun d => Qgtb (Qabs d) 50) diff_rr) in
    let pnn50 :=
      if (0 <? length diff_rr)%nat then (inject_Z nn50 / Qlen diff_rr) * 100 else 0 in
    mkHRV (py_round sdnn 2) (py_round rmssd 2) (py_round pnn50 2).

(** *** The rules of [detect_arrhythmias], one state transformer per
    numbered block of the source *)

(** Blocks 1 and 2: bradycardia, else tachycardia. *)
Definition rule_rate (heart_rate coefficient_of_variation : Q) (st : RuleState) : RuleState :=
  if Qltb heart_rate 60 then
    let '(severity, risk, descr) :=
      if Qltb heart_rate 40 then
        ("High", "High",
         [Lit "Severe Bradycardia: Heart rate "; Fixed heart_rate 0; Lit " BPM is critically low"])
      else
        ("Medium", "Medium",
         [Lit "Bradycardia: Heart rate "; Fixed heart_rate 0; Lit " BPM is below normal (60 BPM)"]) in
    mkRuleState "Sinus Bradycardia"
      (st_abnormalities st ++
       [mkAbnormality "Sinus Bradycardia" severity descr
          "Monitor for symptoms like dizziness or fatigue. Consult cardiologist if persistent."])
      risk
  else if Qgtb heart_rate 100 then
    let '(severity, risk, descr, st1) :=
      if Qgtb heart_rate 150 then
        let descr := [Lit "Severe Tachycardia: Heart rate "; Fixed heart_rate 0;
                      Lit " BPM is critically high"] in
        if Qgtb coefficient_of_variation 15 then
          ("High", "High", descr,
           mkRuleState "Ventricular Tachycardia (Suspected)"
             (st_abnormalities st ++
              [mkAbnormality "Ventricular Tachycardia" "Critical"
                 [Lit "Fast heart rate with irregular rhythm - medical emergency"]
                 "SEEK IMMEDIATE MEDICAL ATTENTION"])
             "High")
        else
          ("High", "High", descr,
           mkRuleState "Sinus Tachycardia" (st_abnormalities st) "High")
      else
        ("Medium", "Medium",
         [Lit "Tachycardia: Heart rate "; Fixed heart_rate 0; Lit " BPM is above normal (100 BPM)"],
         mkRuleState "Sinus Tachycardia" (st_abnormalities st) "Medium") in
    if String.eqb (st_classification st1) "Sinus Tachycardia" then
      mkRuleState (st_classification st1)
        (st_abnormalities st1 ++
         [mkAbnormality "Sinus Tachycardia" severity descr
            "May be caused by exercise, stress, fever, or caffeine. Rest and monitor."])
        (st_risk_level st1)
    else st1
  else st.

(** The two tests of block 3. *)
Definition large_differences (rr_intervals : list Q) : Z :=
  let consecutive_differences := map Qabs (np_diff rr_intervals) in
  np_count (map (fun d => Qgtb d 0.12) consecutive_differences).

Definition afib_test (rr_intervals : list Q) : bool :=
  Qgtb (inject_Z (large_differences rr_intervals)) (Qlen rr_intervals * 0.3).

(** The two findings of block 3. *)
Definition afib_finding (coefficient_of_variation : Q) : Abnormality :=
  mkAbnormality "Atrial Fibrillation" "High"
    [Lit "Highly irregular R-R intervals (CV: "; Fixed coefficient_of_variation 1;
     Lit "%) suggests Atrial Fibrillation"]
    "AFib increases stroke risk. Consult cardiologist for anticoagulation therapy.".

Definition irregular_finding (coefficient_of_variation : Q) : Abnormality :=
  mkAbnormality "Irregular Rhythm" "Medium"
    [Lit "Moderate rhythm irregularity detected (CV: "; Fixed coefficient_of_variation 1;
     Lit "%)"]
    "Monitor for pattern. Could be premature beats or sinus arrhythmia.".

(** Block 3: atrial fibrillation / irregular rhythm. *)
Definition rule_afib (coefficient_of_variation : Q) (rr_intervals : list Q)
    (st : RuleState) : RuleState :=
  if Qgtb coefficient_of_variation 20 then
    if afib_test rr_intervals then
      mkRuleState "Atrial Fibrillation (Suspected)"
        (st_abnormalities st ++ [afib_finding coefficient_of_variation])
        "High"
    else
      mkRuleState
        (if String.eqb (st_classification st) "Normal Sinus Rhythm"
         then "Sinus Arrhythmia" else st_classification st)
        (st_abnormalities st ++ [irregular_finding coefficient_of_variation])
        "Medium"
  else st.

(** Block 4: premature ventricular contractions. *)
Definition pvc_count (rr_intervals : list Q) (rr_mean rr_std : Q) : Z :=
  np_count (map (fun x => Qgtb (Qabs (x - rr_mean)) (2 * rr_std)) rr_intervals).

Definition pvc_percentage (rr_intervals : list Q) (rr_mean rr_std : Q) : Q :=
  (inject_Z (pvc_count rr_intervals rr_mean rr_std) / Qlen rr_intervals) * 100.

Definition rule_pvc (rr_intervals : list Q) (rr_mean rr_std : Q) (st : RuleState) : RuleState :=
  if (3 <? length rr_intervals)%nat then
    if (0 <? pvc_count rr_intervals rr_mean rr_std)%Z then
      if Qgtb (pvc_percentage rr_intervals rr_mean rr_std) 10 then
        mkRuleState
          (if str_in "Normal" (st_classification st)
           then "Premature Ventricular Contractions" else st_classification st)
          (st_abnormalities st ++
           [mkAbnormality "Premature Ventricular Contractions" "Medium"
              [Lit "Frequent PVCs detected ("; Int (pvc_count rr_intervals rr_mean rr_std);
               Lit " beats, "; Fixed (pvc_percentage rr_intervals rr_mean rr_std) 1; Lit "%)"]
              "Frequent PVCs may require evaluation. Avoid caffeine and stress."])
          "Medium"
      else st
    else st
  else st.

(** Block 5: normal sinus rhythm when nothing was found. *)
Definition rule_normal (heart_rate : Q) (st : RuleState) : RuleState :=
  if (length (st_abnormalities st) =? 0)%nat then
    mkRuleState "Normal Sinus Rhythm"
      (st_abnormalities st ++
       [mkAbnormality "Normal" "None"
          [Lit "Heart rate "; Fixed heart_rate 0; Lit " BPM with regular rhythm"]
          "Heart rhythm appears normal. Continue healthy lifestyle."])
      "Low"
  else st.

Definition initial_state : RuleState := mkRuleState "Normal Sinus Rhythm" [] "Low".

Definition cv_of (rr_intervals : list Q) : Q :=
  let rr_std := np_std rr_intervals in
  let rr_mean := np_mean rr_intervals in
  if Qgtb rr_mean 0 then (rr_std / rr_mean) * 100 else 0.

(** The state after each block, in order: start, 1-2, 3, 4, 5. *)
Definition rule_trace (heart_rate : Q) (rr_intervals : list Q) : list RuleState :=
  let rr_std := np_std rr_intervals in
  let rr_mean := np_mean rr_intervals in
  let coefficient_of_variation := cv_of rr_intervals in
  let s0 := initial_state in
  let s2 := rule_rate heart_rate coefficient_of_variation s0 in
  let s3 := rule_afib coefficient_of_variation rr_intervals s2 in
  let s4 := rule_pvc rr_intervals rr_mean rr_std s3 in
  let s5 := rule_normal heart_rate s4 in
  [s0; s2; s3; s4; s5].

(** [detect_arrhythmias]: (classification, abnormalities, risk_level). *)
Definition detect_arrhythmias (heart_rate : Q) (rr_intervals : list Q)
    : string * list Abnormality * string :=
  if (length rr_intervals <? 2)%nat then ("Insufficient Data", [], "Unknown")
  else
    let rr_std := np_std rr_intervals in
    let rr_mean := np_mean rr_intervals in
    let coefficient_of_variation := cv_of rr_intervals in
    let st :=
      rule_normal heart_rate
        (rule_pvc rr_intervals rr_mean rr_std
           (rule_afib coefficient_of_variation rr_intervals
              (rule_rate heart_rate coefficient_of_variation initial_state))) in
    (st_classification st, st_abnormalities st, st_risk_level st).

(** [_assess_signal_quality] *)
Definition _assess_signal_quality (signal_array : list Q) : result SignalQuality :=
  let signal_std := np_std signal_array in
  hi ← np_max signal_array;
  lo ← np_min signal_array;
  let signal_range := hi - lo in
  let '(quality, score) :=
    if Qltb signal_std 10 || Qltb signal_range 50 then ("Poor", 0.3)
    else if Qltb signal_std 50 || Qltb signal_range 200 then ("Fair", 0.6)
    else ("Good", 0.9) in
  mret (mkSignalQuality quality score (py_round signal_std 2) (py_round signal_range 2)).

(** [_generate_recommendations] *)
Definition _generate_recommendations (classification risk_level : string) (heart_rate : Q)
    : list string :=
  let recommendations : list string := [] in
  let recommendations :=
    if String.eqb risk_level "Critical" || String.eqb risk_level "High" then
      (recommendations ++
      ["⚠️ IMPORTANT: Consult a cardiologist as soon as possible";
       "📱 Consider wearing a continuous heart monitor"])%list
    else recommendations in
  let recommendations :=
    if str_in "Tachycardia" classification then
      (recommendations ++
      ["🧘 Practice relaxation techniques and reduce stress";
       "☕ Limit caffeine and stimulant intake";
       "💊 Review medications with your doctor"])%list
    else recommendations in
  let recommendations :=
    if str_in "Bradycardia" classification then
      (recommendations ++
      ["⚡ Monitor for symptoms like dizziness or fatigue";
       "🏃 Discuss exercise tolerance with your doctor"])%list
    else recommendations in
  let recommendations :=
    if str_in "Fibrillation" classification then
      (recommendations ++
      ["💊 Anticoagulation therapy may be needed - consult doctor";
       "🩺 Regular ECG monitoring recommended";
       "🚫 Avoid alcohol and excessive caffeine"])%list
    else recommendations in
  let recommendations :=
    if String.eqb classification "Normal Sinus Rhythm" then
      (recommendations ++
      ["✅ Heart rhythm is normal";
       "🏃 Continue regular exercise and healthy diet";
       "📊 Monitor periodically for baseline comparison"])%list
    else recommendations in
  recommendations.

(** The confidence assigned by [analyze], before rounding. *)
Definition confidence_of (signal_quality : SignalQuality) (r_peaks : list Z) : Q :=
  if String.eqb (quality signal_quality) "Good" && (10 <? Zlen r_peaks)%Z then
    0.85 + (inject_Z (Z.min (Zlen r_peaks) 50) / 50) * 0.15
  else if String.eqb (quality signal_quality) "Fair" && (5 <? Zlen r_peaks)%Z then
    0.65 + (inject_Z (Z.min (Zlen r_peaks) 50) / 50) * 0.20
  else 0.50.

(** The rhythm label assigned by [analyze]. *)
Definition rhythm_of (rr_intervals : list Q) : string :=
  if (0 <? length rr_intervals)%nat then
    let rr_std := np_std rr_intervals in
    let rr_mean := np_mean rr_intervals in
    let cv := if Qgtb rr_mean 0 then (rr_std / rr_mean) * 100 else 100 in
    if Qltb cv 10 then "Regular" else "Irregular"
  else "Unknown".

(** The body of the [try] block of [analyze]. *)
Definition analyze_try (ecg_signal : list Q) (sample_rate : Z) : result AnalysisResult :=
  let signal_array := ecg_signal in
  signal_quality ← _assess_signal_quality signal_array;
  r_peaks ← detect_qrs_pan_tompkins ecg_signal sample_rate;
  let '(heart_rate, rr_intervals) := calculate_heart_rate r_peaks sample_rate in
  let hrv_metrics := calculate_hrv rr_intervals in
  let '(classification, abnormalities, risk_level) :=
    detect_arrhythmias heart_rate rr_intervals in
  let confidence := confidence_of signal_quality r_peaks in
  let rhythm := rhythm_of rr_intervals in
  rate_min ←
    (if (0 <? length rr_intervals)%nat
     then longest ← np_max rr_intervals; mret (py_round (60 / longest) 1)
     else mret 0);
  rate_max ←
    (if (0 <? length rr_intervals)%nat
     then shortest ← np_min rr_intervals; mret (py_round (60 / shortest) 1)
     else mret 0);
  mret (mkAnalysisResult
          classification
          (py_round confidence 3)
          risk_level
          (mkDetails None (py_round heart_rate 1) (Some (rate_min, rate_max)) rhythm
             (Some (Zlen r_peaks)) (Some hrv_metrics) abnormalities (Some signal_quality))
          "hybrid_ml_enhanced"
          (Some (_generate_recommendations classification risk_level heart_rate))).

(** The record built by the [except Exception as e] handler. *)
Definition error_record (e : exn) : AnalysisResult :=
  mkAnalysisResult "Analysis Error" 0 "Unknown"
    (mkDetails (Some (str e)) 0 None "Unknown" None None [] None)
    "error" None.

(** [analyze] *)
Definition analyze (ecg_signal : list Q) (sample_rate : Z) : AnalysisResult :=
  match analyze_try ecg_signal sample_rate with
  | Ok r => r
  | Raise e => error_record e
  end.

(** ** The handlers of [app.py] *)

(** The exceptions that the handlers raise themselves; [str(e)] of a
    [KeyError] is the [repr] of the key. *)
Inductive handler_exn : Type :=
| KeyError (key : string)
| AttributeError (msg : string).

Definition handler_str (e : handler_exn) : string :=
  match e with
  | KeyError key => "'" ++ key ++ "'"
  | AttributeError msg => msg
  end.

Inductive attempt (A : Type) : Type :=
| Done (a : A)
| Failed (e : handler_exn).
Arguments Done {A} a.
Arguments Failed {A} e.

#[global] Instance attempt_ret : MRet attempt := fun A a => Done a.

#[global] Instance attempt_bind : MBind attempt := fun A B k r =>
  match r with
  | Done a => k a
  | Failed e => Failed e
  end.

(** The JSON objects of a request. *)
Record Point : Type := mkPoint {
  timestamp_ms : option Z;
  voltage_mv : option Q
}.

Record Session : Type := mkSession {
  sessionId : option string;
  ecgData : option (list Point);
  sampleRate : option Z
}.

Record Batch : Type := mkBatch { sessions : option (list Session) }.

(** The JSON objects of a response: the analysis record with the keys that
    the handler adds to it. *)
Record Reply : Type := mkReply {
  reply_result : AnalysisResult;
  reply_sessionId : string;
  reply_timestamp : option string
}.

Inductive Body : Type :=
| ErrorBody (message : string)
| ResultBody (reply : Reply)
| BatchBody (results : list Reply) (count : Z) (stamp : string).

(** A session of one sample at the default rate, and a session without
    samples. *)
Definition one_sample_session : Session :=
  mkSession (Some "s-1") (Some [mkPoint (Some 0%Z) (Some 0.5)]) None.

Definition empty_session : Session := mkSession None (Some []) (Some 250%Z).

(** [d[key]] and [d.get(key, default)] on a key that may be absent. *)
Definition getitem {A} (key : string) (field : option A) : attempt A :=
  match field with
  | Some v => Done v
  | None => Failed (KeyError key)
  end.

Definition get_or {A} (field : option A) (fallback : A) : A :=
  match field with
  | Some v => v
  | None => fallback
  end.

(** [[point['voltage_mv'] for point in ecg_data]] *)
Fixpoint voltages_of (ecg_data : list Point) : attempt (list Q) :=
  match ecg_data with
  | [] => mret []
  | point :: rest =>
    v ← getitem "voltage_mv" (voltage_mv point);
    vs ← voltages_of rest;
    mret (v :: vs)
  end.

(** [analyze_ecg]: the response body and the status code. *)
Definition analyze_ecg (now : string) (data : option Session) : Body * Z :=
  let tried : attempt (Body * Z) :=
    match data with
    | None => mret (ErrorBody "Missing ecgData in request", 400%Z)
    | Some data =>
      match ecgData data with
      | None => mret (ErrorBody "Missing ecgData in request", 400%Z)
      | Some ecg_data =>
        let session_id := get_or (sessionId data) "unknown" in
        let sample_rate := get_or (sampleRate data) 250%Z in
        voltages ← voltages_of ecg_data;
        let result := analyze voltages sample_rate in
        mret (ResultBody (mkReply result session_id (Some now)), 200%Z)
      end
    end in
  match tried with
  | Done response => response
  | Failed e => (ErrorBody (handler_str e), 500%Z)
  end.

(** The loop of [batch_analyze], with the list [results] it appends to. *)
Fixpoint batch_loop (todo : list Session) (results : list Reply) : attempt (list Reply) :=
  match todo with
  | [] => mret results
  | session :: rest =>
    ecg_data ← getitem "ecgData" (ecgData session);
    voltages ← voltages_of ecg_data;
    let result := analyze voltages (get_or (sampleRate session) 250%Z) in
    batch_loop rest
      (results ++ [mkReply result (get_or (sessionId session) "unknown") None])%list
  end.

(** [batch_analyze] *)
Definition batch_analyze (now : string) (data : option Batch) : Body * Z :=
  let tried : attempt (Body * Z) :=
    match data with
    | None => Failed (AttributeError "'NoneType' object has no attribute 'get'")
    | Some data =>
      let todo := get_or (sessions data) [] in
      results ← batch_loop todo [];
      mret (BatchBody results (Zlen results) now, 200%Z)
    end in
  match tried with
  | Done response => response
  | Failed e => (ErrorBody (handler_str e), 500%Z)
  end.

(** ** Notions used to state the properties *)

(** The risk levels that a rule can assign. *)
Definition rule_risk (s : string) : Prop := s = "Low" \/ s = "Medium" \/ s = "High".

(** The order of the risk levels: Low below Medium below High. *)
Definition risk_rank (s : string) : nat :=
  if String.eqb s "High" then 3
  else if String.eqb s "Medium" then 2
  else if String.eqb s "Low" then 1
  else 0.

(** Along a sequence of rule states the risk level never goes down. *)
Fixpoint never_lowered (trace : list RuleState) : Prop :=
  match trace with
  | s :: (t :: _) as rest =>
    (risk_rank (st_risk_level s) <= risk_rank (st_risk_level t))%nat /\ never_lowered rest
  | _ => True
  end.

(** Block 4 appends its finding. *)
Definition pvc_fires (rr_intervals : list Q) : bool :=
  let rr_std := np_std rr_intervals in
  let rr_mean := np_mean rr_intervals in
  (3 <? length rr_intervals)%nat
  && (0 <? pvc_count rr_intervals rr_mean rr_std)%Z
  && Qgtb (pvc_percentage rr_intervals rr_mean rr_std) 10.

(** The risk level written by the last block that assigns one. *)
Definition last_assigned_risk (heart_rate : Q) (rr_intervals : list Q) : string :=
  if pvc_fires rr_intervals then "Medium"
  else if Qgtb (cv_of rr_intervals) 20 then
    if afib_test rr_intervals then "High" else "Medium"
  else if Qltb heart_rate 60 then
    if Qltb heart_rate 40 then "High" else "Medium"
  else if Qgtb heart_rate 100 then
    if Qgtb heart_rate 150 then "High" else "Medium"
  else "Low".











(** The confidence described for a quality label and a peak count. *)
Definition described_confidence (quality_label : string) (peak_count : Z) : Q :=
  if String.eqb quality_label "Good" && (10 <? peak_count)%Z then
    0.85 + inject_Z (Z.min peak_count 50) / 50 * 0.15
  else if String.eqb quality_label "Fair" && (5 <? peak_count)%Z then
    0.65 + inject_Z (Z.min peak_count 50) / 50 * 0.20
  else 0.50.

(** A signal whose samples all equal [c]; the zero signal. *)
Definition constant_signal (c : Q) (x : list Q) : Prop := Forall (fun v => v == c) x.

Definition all_zero (x : list Q) : Prop := Forall (fun v => v == 0) x.

(** A constant signal of integer amplitude [z], short enough for the sum of
    its samples to stay below 2^53: on such a signal the sum and the mean
    computed in double precision are the exact ones. *)
Definition integer_constant (z : Z) (x : list Q) : Prop :=
  constant_signal (inject_Z z) x /\ (Z.abs z * Zlen x < 2 ^ 53)%Z.

(** The coefficients ([b], [a]) of a filter that [filtfilt] can start:
    [a[0]] is not zero and the system of the initial conditions has a
    solution.  A Butterworth design is of this kind. *)
Definition usable_filter (b a : list Q) : Prop :=
  exists b' a' zi, normalize b a = Ok (b', a') /\ lfilter_zi b' a' = Ok zi.

(** The filter designed for a sample rate can run on a signal: it is usable
    and the signal is longer than the padding [filtfilt] adds to each end. *)
Definition filter_fits (ecg_signal : list Q) (sample_rate : Z) : Prop :=
  let nyquist := inject_Z sample_rate / 2 in
  let design := butter_band 2 (5 / nyquist) (15 / nyquist) in
  usable_filter (fst design) (snd design)
  /\ (3 * Nat.max (length (snd design)) (length (fst design)) < length ecg_signal)%nat.

(** A relation holds between each element of a list and the next one. *)
Fixpoint consecutive (R : Z -> Z -> Prop) (l : list Z) : Prop :=
  match l with
  | p :: (q :: _) as t => R p q /\ consecutive R t
  | _ => True
  end.

(** [keep'] has the length of [keep] and no flag set that [keep] has not. *)
Definition flags_le (keep' keep : list bool) : Prop :=
  length keep' = length keep
  /\ forall k, keep' !! k = Some true -> keep !! k = Some true.

(** Peak [k] lies closer than [d] to peak [j], on either side. *)
Definition too_close (peaks : list Z) (d : Z) (j k : nat) : Prop :=
  ((k < j)%nat /\ (nth j peaks 0 - nth k peaks 0 < d)%Z)
  \/ ((j < k)%nat /\ (nth k peaks 0 - nth j peaks 0 < d)%Z).

(** Every peak of [done] that is still kept has lost its close neighbours. *)
Definition neighbours_cleared (peaks : list Z) (d : Z) (done : list nat)
    (keep : list bool) : Prop :=
  length keep = length peaks
  /\ forall j, In j done -> keep !! j = Some true ->
     forall k, (k < length peaks)%nat -> too_close peaks d j k -> keep !! k = Some false.

(** The positions in a list of peaks increase strictly. *)
Definition increasing (peaks : list Z) : Prop :=
  forall i j, (i < j)%nat -> (j < length peaks)%nat -> (nth i peaks 0 < nth j peaks 0)%Z.

(** The label that the blocks of [detect_arrhythmias] leave in
    [classification], by priority: atrial fibrillation, then the rate
    labels, then the two labels that only replace the default. *)
Definition final_label (heart_rate : Q) (rr_intervals : list Q) : string :=
  let cv := cv_of rr_intervals in
  if (length rr_intervals <? 2)%nat then "Insufficient Data"
  else if Qgtb cv 20 && afib_test rr_intervals then "Atrial Fibrillation (Suspected)"
  else if Qltb heart_rate 60 then "Sinus Bradycardia"
  else if Qgtb heart_rate 100 then
    if Qgtb heart_rate 150 && Qgtb cv 15 then "Ventricular Tachycardia (Suspected)"
    else "Sinus Tachycardia"
  else if Qgtb cv 20 then "Sinus Arrhythmia"
  else if pvc_fires rr_intervals then "Premature Ventricular Contractions"
  else "Normal Sinus Rhythm".

(** The finding appended by block 5. *)
Definition normal_finding (heart_rate : Q) : Abnormality :=
  mkAbnormality "Normal" "None"
    [Lit "Heart rate "; Fixed heart_rate 0; Lit " BPM with regular rhythm"]
    "Heart rhythm appears normal. Continue healthy lifestyle.".

(** The pairs (classification, risk level) that the blocks of
    [detect_arrhythmias] can leave behind. *)
Definition label_risk_pairs : list (string * string) :=
  [("Insufficient Data", "Unknown");
   ("Atrial Fibrillation (Suspected)", "High");
   ("Atrial Fibrillation (Suspected)", "Medium");
   ("Sinus Bradycardia", "High");
   ("Sinus Bradycardia", "Medium");
   ("Ventricular Tachycardia (Suspected)", "High");
   ("Ventricular Tachycardia (Suspected)", "Medium");
   ("Sinus Tachycardia", "High");
   ("Sinus Tachycardia", "Medium");
   ("Sinus Arrhythmia", "Medium");
   ("Premature Ventricular Contractions", "Medium");
   ("Normal Sinus Rhythm", "Low")].

(** The severities that a finding can carry. *)
Definition known_severity (f : Abnormality) : Prop :=
  In (severity f) ["None"; "Medium"; "High"; "Critical"].

(** Every sample of a signal lies between [lo] and [hi]. *)
Definition within (lo hi : Q) (x : list Q) : Prop := Forall (fun v => lo <= v <= hi) x.

(** A point that carries a voltage; a session that [batch_analyze] can
    process: it has its [ecgData] and every point there carries a voltage. *)
Definition has_voltage (point : Point) : Prop := voltage_mv point <> None.

Definition well_formed (session : Session) : Prop :=
  exists ecg_data, ecgData session = Some ecg_data /\ Forall has_voltage ecg_data.

(** The reply that the handlers build for a session whose points all carry
    a voltage. *)
Definition reply_for (session : Session) (voltages : list Q) (stamp : option string)
    : Reply :=
  mkReply (analyze voltages (get_or (sampleRate session) 250%Z))
    (get_or (sessionId session) "unknown") stamp.

(** [v] is [u] with every sample multiplied by [s]. *)
Definition scaled (s : Q) (u v : list Q) : Prop := Forall2 (fun a b => b == s * a) u v.

(** Two runs end alike: both return, with related values, or both raise
    the same exception. *)
Definition same_outcome {A B} (R : A -> B -> Prop) (r : result A) (r' : result B) : Prop :=
  match r, r' with
  | Ok a, Ok a' => R a a'
  | Raise e, Raise e' => e = e'
  | _, _ => False
  end.

(** [x'] is [x] with every sample multiplied by [gain] and shifted by
    [offset]; the recording with its polarity inverted. *)
Definition affine (gain offset : Q) (x x' : list Q) : Prop :=
  Forall2 (fun a b => b == gain * a + offset) x x'.

Definition inverted (ecg_signal : list Q) : list Q := map Qopp ecg_signal.

(** [detect_qrs_pan_tompkins] from the signal with its mean removed. *)
Definition qrs_from_centred (centred : list Q) (sample_rate : Z) : result (list Z) :=
  let nyquist := inject_Z sample_rate / 2 in
  low ← py_div 5 nyquist;
  high ← py_div 15 nyquist;
  '(b, a) ← butter butter_band 2 low high;
  filtered ← filtfilt b a centred;
  let diff := np_diff filtered in
  let squared := map (fun d => d * d) diff in
  let window_size := py_int (0.15 * inject_Z sample_rate) in
  kernel ← np_ones_over window_size;
  integrated ← np_convolve_same squared kernel;
  top ← np_max integrated;
  let threshold := 0.3 * top in
  find_peaks integrated threshold (py_int (0.2 * inject_Z sample_rate)).

(** A square root that returns 0 at 0, as [np.sqrt] does. *)
Definition exact_at_zero (root : Q -> Q) : Prop := forall x, x == 0 -> root x == 0.

(** [reply] is what the loop of [batch_analyze] appends for [session]. *)
Definition served (session : Session) (reply : Reply) : Prop :=
  exists ecg_data voltages,
    ecgData session = Some ecg_data
    /\ map voltage_mv ecg_data = map Some voltages
    /\ reply = reply_for session voltages None.

(** ** Facts about the rule engine *)

Lemma Qltb_lt (x y : Q) : Qltb x y = true <-> x < y.
Proof.
  unfold Qltb. rewrite negb_true_iff, <- not_true_iff_false, Qle_bool_iff.
  split; [apply Qnot_le_lt | apply Qlt_not_le].
Qed.

Lemma Qltb_ge (x y : Q) : Qltb x y = false <-> y <= x.
Proof.
  unfold Qltb. rewrite negb_false_iff. apply Qle_bool_iff.
Qed.

Ltac split_ifs :=
  repeat match goal with
         | |- context [if ?c then _ else _] => destruct c eqn:?; simpl
         end.

Lemma rule_rate_risk heart_rate cv st :
  rule_risk (st_risk_level st) -> rule_risk (st_risk_level (rule_rate heart_rate cv st)).
Proof. unfold rule_rate, rule_risk. intros H. split_ifs; auto. Qed.

Lemma rule_afib_risk cv rr st :
  rule_risk (st_risk_level st) -> rule_risk (st_risk_level (rule_afib cv rr st)).
Proof. unfold rule_afib, rule_risk. intros H. split_ifs; auto. Qed.

Lemma rule_pvc_risk rr rr_mean rr_std st :
  rule_risk (st_risk_level st) -> rule_risk (st_risk_level (rule_pvc rr rr_mean rr_std st)).
Proof. unfold rule_pvc, rule_risk. intros H. split_ifs; auto. Qed.

Lemma rule_normal_risk heart_rate st :
  rule_risk (st_risk_level st) -> rule_risk (st_risk_level (rule_normal heart_rate st)).
Proof. unfold rule_normal, rule_risk. intros H. split_ifs; auto. Qed.

Lemma detect_arrhythmias_risk heart_rate rr :
  let risk := snd (detect_arrhythmias heart_rate rr) in
  risk = "Unknown" \/ rule_risk risk.
Proof.
  unfold detect_arrhythmias. destruct (length rr <? 2)%nat; simpl; [now left | right].
  apply rule_normal_risk, rule_pvc_risk, rule_afib_risk, rule_rate_risk.
  now left.
Qed.

(** [detect_arrhythmias] returns the state after the last block. *)
Lemma detect_arrhythmias_trace heart_rate rr :
  (2 <= length rr)%nat ->
  exists st, List.last (rule_trace heart_rate rr) initial_state = st /\
    detect_arrhythmias heart_rate rr =
      (st_classification st, st_abnormalities st, st_risk_level st).
Proof.
  intros H. eexists; split; [reflexivity |].
  unfold detect_arrhythmias. destruct (Nat.ltb_spec (length rr) 2); [lia | reflexivity].
Qed.

(** R-R intervals from fewer than three peaks: fewer than two of them. *)
Lemma length_np_diffZ (l : list Z) : length (np_diffZ l) = (length l - 1)%nat.
Proof.
  induction l as [| x [| y t] IH]; simpl in *; try reflexivity.
  rewrite IH. lia.
Qed.

Lemma calculate_heart_rate_length r_peaks sample_rate :
  length (snd (calculate_heart_rate r_peaks sample_rate)) = (length r_peaks - 1)%nat.
Proof.
  unfold calculate_heart_rate. destruct (Nat.ltb_spec (length r_peaks) 2); simpl.
  - lia.
  - now rewrite length_map, length_np_diffZ.
Qed.

Lemma calculate_heart_rate_few r_peaks sample_rate :
  (length r_peaks < 2)%nat -> calculate_heart_rate r_peaks sample_rate = (0, []).
Proof.
  intros H. unfold calculate_heart_rate.
  destruct (Nat.ltb_spec (length r_peaks) 2); [reflexivity | lia].
Qed.

(** C9. With fewer than two R-R intervals [detect_arrhythmias] returns the
    classification "Insufficient Data", no abnormality and the risk level
    "Unknown", whatever the heart rate.  By [calculate_heart_rate_length]
    the number of intervals is the number of peaks less one, so this is the
    case of fewer than three detected R-peaks. *)
Theorem detect_arrhythmias_insufficient_data (heart_rate : Q) (rr_intervals : list Q) :
  (length rr_intervals < 2)%nat ->
  detect_arrhythmias heart_rate rr_intervals = ("Insufficient Data", [], "Unknown").
Proof.
  intros H. unfold detect_arrhythmias.
  destruct (Nat.ltb_spec (length rr_intervals) 2); [reflexivity | lia].
Qed.

(** What each block does to the risk level and to the number of findings. *)
Lemma rule_rate_summary heart_rate cv st :
  st_risk_level (rule_rate heart_rate cv st) =
    (if Qltb heart_rate 60 then (if Qltb heart_rate 40 then "High" else "Medium")
     else if Qgtb heart_rate 100 then (if Qgtb heart_rate 150 then "High" else "Medium")
     else st_risk_level st)
  /\ length (st_abnormalities (rule_rate heart_rate cv st)) =
       (length (st_abnormalities st)
        + (if Qltb heart_rate 60 || Qgtb heart_rate 100 then 1 else 0))%nat.
Proof.
  unfold rule_rate.
  destruct (Qltb heart_rate 60);
    [ destruct (Qltb heart_rate 40)
    | destruct (Qgtb heart_rate 100);
      [ destruct (Qgtb heart_rate 150); [ destruct (Qgtb cv 15) | ] | ] ];
    simpl; rewrite ?length_app; simpl; split; (reflexivity || lia).
Qed.

Lemma rule_afib_summary cv rr st :
  st_risk_level (rule_afib cv rr st) =
    (if Qgtb cv 20 then (if afib_test rr then "High" else "Medium") else st_risk_level st)
  /\ length (st_abnormalities (rule_afib cv rr st)) =
       (length (st_abnormalities st) + (if Qgtb cv 20 then 1 else 0))%nat.
Proof.
  unfold rule_afib.
  destruct (Qgtb cv 20); [destruct (afib_test rr) |];
    simpl; rewrite ?length_app; simpl; split; (reflexivity || lia).
Qed.

Lemma rule_pvc_summary rr st :
  let s := rule_pvc rr (np_mean rr) (np_std rr) st in
  st_risk_level s = (if pvc_fires rr then "Medium" else st_risk_level st)
  /\ length (st_abnormalities s) =
       (length (st_abnormalities st) + (if pvc_fires rr then 1 else 0))%nat.
Proof.
  unfold rule_pvc, pvc_fires. cbv zeta.
  destruct (3 <? length rr)%nat;
    [ destruct (0 <? pvc_count _ _ _)%Z; [ destruct (Qgtb (pvc_percentage _ _ _) 10) | ] | ];
    simpl; rewrite ?length_app; simpl; split; (reflexivity || lia).
Qed.

Lemma rule_normal_summary heart_rate st :
  st_risk_level (rule_normal heart_rate st) =
    (if (length (st_abnormalities st) =? 0)%nat then "Low" else st_risk_level st).
Proof.
  unfold rule_normal. now destruct (length (st_abnormalities st) =? 0)%nat.
Qed.

(** C2 (as amended).  With at least two intervals the returned risk level is
    the one written by the last block that assigned it: "Medium" when the
    PVC block fires; otherwise the level of the irregularity block when the
    coefficient of variation exceeds 20; otherwise the level of the
    bradycardia or tachycardia block; otherwise "Low".  A later block may
    thus replace "High" by "Medium". *)
Theorem risk_level_last_write_wins (heart_rate : Q) (rr_intervals : list Q) :
  (2 <= length rr_intervals)%nat ->
  snd (detect_arrhythmias heart_rate rr_intervals) = last_assigned_risk heart_rate rr_intervals.
Proof.
  intros H. unfold detect_arrhythmias, last_assigned_risk.
  destruct (Nat.ltb_spec (length rr_intervals) 2); [lia |].
  cbv zeta. cbn [snd]. set (cv := cv_of rr_intervals).
  set (s2 := rule_rate heart_rate cv initial_state).
  set (s3 := rule_afib cv rr_intervals s2).
  set (s4 := rule_pvc rr_intervals (np_mean rr_intervals) (np_std rr_intervals) s3).
  rewrite rule_normal_summary.
  destruct (rule_pvc_summary rr_intervals s3) as [R4 L4]. fold s4 in R4, L4.
  destruct (rule_afib_summary cv rr_intervals s2) as [R3 L3]. fold s3 in R3, L3.
  destruct (rule_rate_summary heart_rate cv initial_state) as [R2 L2]. fold s2 in R2, L2.
  rewrite R4, R3, R2, L4, L3, L2. simpl.
  destruct (pvc_fires rr_intervals), (Qgtb cv 20), (afib_test rr_intervals),
    (Qltb heart_rate 60), (Qltb heart_rate 40), (Qgtb heart_rate 100),
    (Qgtb heart_rate 150); reflexivity.
Qed.

Lemma rule_pvc_keeps_findings rr rr_mean rr_std st x :
  In x (st_abnormalities st) -> In x (st_abnormalities (rule_pvc rr rr_mean rr_std st)).
Proof.
  intros H. unfold rule_pvc. split_ifs; auto.
  apply in_or_app. now left.
Qed.

Lemma rule_pvc_keeps_classification rr rr_mean rr_std st :
  str_in "Normal" (st_classification st) = false ->
  st_classification (rule_pvc rr rr_mean rr_std st) = st_classification st.
Proof.
  intros H. unfold rule_pvc. split_ifs; auto. now rewrite H.
Qed.

Lemma rule_pvc_risk_medium rr rr_mean rr_std st :
  st_risk_level st = "Medium" -> st_risk_level (rule_pvc rr rr_mean rr_std st) = "Medium".
Proof. intros H. unfold rule_pvc. split_ifs; auto. Qed.

Lemma rule_normal_idle heart_rate st x :
  In x (st_abnormalities st) -> rule_normal heart_rate st = st.
Proof.
  intros H. unfold rule_normal.
  destruct (st_abnormalities st); [contradiction | reflexivity].
Qed.

(** C3 (as amended).  With at least two intervals and a coefficient of
    variation above 20: when the count of successive differences above
    0.12 s exceeds 30% of the number of intervals, block 3 appends the
    "Atrial Fibrillation" finding of severity "High" and sets the
    classification to "Atrial Fibrillation (Suspected)" and the risk level to
    "High"; the finding and the classification are those returned, and the
    risk level returned is "High" unless block 4 then finds premature
    contractions, which sets it to "Medium".  Otherwise block 3 appends the
    "Irregular Rhythm" finding of severity "Medium", sets the risk level to
    "Medium" (which is returned), and renames the classification to "Sinus
    Arrhythmia" only when it still is "Normal Sinus Rhythm". *)
Theorem irregularity_rule (heart_rate : Q) (rr_intervals : list Q) :
  (2 <= length rr_intervals)%nat ->
  20 < cv_of rr_intervals ->
  let cv := cv_of rr_intervals in
  let before := rule_rate heart_rate cv initial_state in
  let after := rule_afib cv rr_intervals before in
  let returned := detect_arrhythmias heart_rate rr_intervals in
  (Qlen rr_intervals * 0.3 < inject_Z (large_differences rr_intervals) ->
     st_abnormalities after = (st_abnormalities before ++ [afib_finding cv])%list
     /\ atype (afib_finding cv) = "Atrial Fibrillation"
     /\ severity (afib_finding cv) = "High"
     /\ st_classification after = "Atrial Fibrillation (Suspected)"
     /\ st_risk_level after = "High"
     /\ In (afib_finding cv) (snd (fst returned))
     /\ fst (fst returned) = "Atrial Fibrillation (Suspected)"
     /\ snd returned = (if pvc_fires rr_intervals then "Medium" else "High"))
  /\
  (~ Qlen rr_intervals * 0.3 < inject_Z (large_differences rr_intervals) ->
     st_abnormalities after = (st_abnormalities before ++ [irregular_finding cv])%list
     /\ atype (irregular_finding cv) = "Irregular Rhythm"
     /\ severity (irregular_finding cv) = "Medium"
     /\ st_risk_level after = "Medium"
     /\ st_classification after =
          (if String.eqb (st_classification before) "Normal Sinus Rhythm"
           then "Sinus Arrhythmia" else st_classification before)
     /\ In (irregular_finding cv) (snd (fst returned))
     /\ fst (fst returned) = st_classification after
     /\ snd returned = "Medium").
Proof.
  intros Hlen Hcv cv before after returned.
  assert (Hcvb : Qgtb cv 20 = true) by now apply Qltb_lt.
  set (s4 := rule_pvc rr_intervals (np_mean rr_intervals) (np_std rr_intervals) after).
  assert (Hret : forall x, In x (st_abnormalities after) ->
    returned = (st_classification s4, st_abnormalities s4, st_risk_level s4)).
  { intros x Hx. unfold returned, detect_arrhythmias.
    destruct (Nat.ltb_spec (length rr_intervals) 2); [lia |].
    cbv zeta. fold cv before after s4.
    now rewrite (rule_normal_idle heart_rate s4 x) by now apply rule_pvc_keeps_findings. }
  split; intros Haf.
  - assert (Hafb : afib_test rr_intervals = true) by now apply Qltb_lt.
    assert (Hafter : after =
      mkRuleState "Atrial Fibrillation (Suspected)"
        (st_abnormalities before ++ [afib_finding cv]) "High").
    { unfold after, rule_afib. now rewrite Hcvb, Hafb. }
    assert (Hin : In (afib_finding cv) (st_abnormalities after)).
    { rewrite Hafter. simpl. apply in_or_app. right. now left. }
    rewrite (Hret _ Hin). simpl. rewrite Hafter at 1 2 3. simpl.
    repeat split.
    + now apply rule_pvc_keeps_findings.
    + unfold s4. rewrite rule_pvc_keeps_classification; now rewrite Hafter.
    + destruct (rule_pvc_summary rr_intervals after) as [R4 _]. fold s4 in R4.
      rewrite R4. now rewrite Hafter.
  - assert (Hafb : afib_test rr_intervals = false).
    { apply not_true_is_false. intros E. apply Haf. now apply Qltb_lt. }
    assert (Hafter : after =
      mkRuleState
        (if String.eqb (st_classification before) "Normal Sinus Rhythm"
         then "Sinus Arrhythmia" else st_classification before)
        (st_abnormalities before ++ [irregular_finding cv]) "Medium").
    { unfold after, rule_afib. now rewrite Hcvb, Hafb. }
    assert (Hin : In (irregular_finding cv) (st_abnormalities after)).
    { rewrite Hafter. simpl. apply in_or_app. right. now left. }
    rewrite (Hret _ Hin). simpl.
    assert (Hclass : str_in "Normal" (st_classification after) = false).
    { rewrite Hafter. simpl. unfold before, rule_rate, initial_state.
      destruct (Qltb heart_rate 60), (Qltb heart_rate 40), (Qgtb heart_rate 100),
        (Qgtb heart_rate 150), (Qgtb cv 15); reflexivity. }
    repeat split.
    + now rewrite Hafter.
    + now rewrite Hafter.
    + now rewrite Hafter.
    + now apply rule_pvc_keeps_findings.
    + unfold s4. now apply rule_pvc_keeps_classification.
    + unfold s4. apply rule_pvc_risk_medium. now rewrite Hafter.
Qed.

(** ** Facts about [analyze] *)

Lemma bind_ok {A B} (m : result A) (k : A -> result B) (b : B) :
  m ≫= k = Ok b -> exists a, m = Ok a /\ k a = Ok b.
Proof. destruct m as [a | e]; simpl; [eauto | discriminate]. Qed.

Lemma bind_raise {A B} (m : result A) (k : A -> result B) (e : exn) :
  m = Raise e -> m ≫= k = Raise e.
Proof. now intros ->. Qed.

(** The record of a run that reached the end of the [try] block. *)
Lemma analyze_try_ok ecg_signal sample_rate r :
  analyze_try ecg_signal sample_rate = Ok r ->
  exists signal_quality r_peaks rate_range,
    _assess_signal_quality ecg_signal = Ok signal_quality /\
    detect_qrs_pan_tompkins ecg_signal sample_rate = Ok r_peaks /\
    let heart_rate := fst (calculate_heart_rate r_peaks sample_rate) in
    let rr_intervals := snd (calculate_heart_rate r_peaks sample_rate) in
    let found := detect_arrhythmias heart_rate rr_intervals in
    r = mkAnalysisResult (fst (fst found))
          (py_round (confidence_of signal_quality r_peaks) 3)
          (snd found)
          (mkDetails None (py_round heart_rate 1) (Some rate_range) (rhythm_of rr_intervals)
             (Some (Zlen r_peaks)) (Some (calculate_hrv rr_intervals)) (snd (fst found))
             (Some signal_quality))
          "hybrid_ml_enhanced"
          (Some (_generate_recommendations (fst (fst found)) (snd found) heart_rate)).
Proof.
  unfold analyze_try. intros H.
  apply bind_ok in H as (sq & Hsq & H).
  apply bind_ok in H as (peaks & Hpeaks & H).
  destruct (calculate_heart_rate peaks sample_rate) as [hr rr] eqn:Ehr.
  destruct (detect_arrhythmias hr rr) as [[cls abn] risk] eqn:Edet.
  apply bind_ok in H as (rmin & _ & H).
  apply bind_ok in H as (rmax & _ & H).
  injection H as <-.
  exists sq, peaks, (rmin, rmax). repeat split; try assumption.
  cbv zeta. rewrite Ehr. simpl. now rewrite Edet.
Qed.

(** C10.  The risk level of the record returned by [analyze] is "Low",
    "Medium", "High" or "Unknown" and never "Critical"; so the test
    [risk_level == "Critical" or risk_level == "High"] that opens
    [_generate_recommendations] holds on it only through "High". *)
Theorem analyze_risk_levels (ecg_signal : list Q) (sample_rate : Z) :
  let risk := risk_level (analyze ecg_signal sample_rate) in
  (risk = "Low" \/ risk = "Medium" \/ risk = "High" \/ risk = "Unknown")
  /\ risk <> "Critical"
  /\ (String.eqb risk "Critical" || String.eqb risk "High") = String.eqb risk "High".
Proof.
  cbv zeta.
  assert (H : let risk := risk_level (analyze ecg_signal sample_rate) in
              risk = "Low" \/ risk = "Medium" \/ risk = "High" \/ risk = "Unknown").
  { unfold analyze. destruct (analyze_try ecg_signal sample_rate) as [r | e] eqn:E.
    - apply analyze_try_ok in E as (sq & peaks & rng & _ & _ & ->). simpl.
      destruct (detect_arrhythmias_risk
                  (fst (calculate_heart_rate peaks sample_rate))
                  (snd (calculate_heart_rate peaks sample_rate))) as [H | H].
      + tauto.
      + unfold rule_risk in H. tauto.
    - simpl. tauto. }
  cbv zeta in H. split; [exact H |].
  destruct H as [-> | [-> | [-> | ->]]]; split; (discriminate || reflexivity).
Qed.

(** C4.  When a step inside the [try] block raises, [analyze] returns the
    degraded record: classification "Analysis Error", confidence 0, risk
    level "Unknown", the text of the exception under [error], and no
    abnormality.  [analyze] is a total function to records: no exception
    leaves it. *)
Theorem analyze_absorbs_exceptions (ecg_signal : list Q) (sample_rate : Z) (e : exn) :
  analyze_try ecg_signal sample_rate = Raise e ->
  let r := analyze ecg_signal sample_rate in
  r = error_record e
  /\ classification r = "Analysis Error"
  /\ confidence r = 0
  /\ risk_level r = "Unknown"
  /\ error (details r) = Some (str e)
  /\ abnormalities (details r) = [].
Proof.
  intros H. unfold analyze. rewrite H. simpl. repeat split.
Qed.

(** *** Rounding a number that already has the requested decimals *)

Lemma round_half_even_comp (x y : Q) : x == y -> round_half_even x = round_half_even y.
Proof.
  intros E. unfold round_half_even.
  rewrite (Qfloor_comp _ _ E).
  assert (E' : x - inject_Z (Qfloor y) == y - inject_Z (Qfloor y)) by now rewrite E.
  now rewrite (Qcompare_comp _ _ E' (1 # 2) (1 # 2) (Qeq_refl _)).
Qed.

Lemma round_half_even_Z (z : Z) : round_half_even (inject_Z z) = z.
Proof.
  unfold round_half_even. rewrite Qfloor_Z.
  assert (E : inject_Z z - inject_Z z == 0) by ring.
  now rewrite (Qcompare_comp _ _ E (1 # 2) (1 # 2) (Qeq_refl _)).
Qed.

Lemma py_round_exact (x : Q) (ndigits : nat) (z : Z) :
  x * inject_Z (10 ^ Z.of_nat ndigits) == inject_Z z -> py_round x ndigits == x.
Proof.
  intros E. unfold py_round.
  rewrite (round_half_even_comp _ _ E), round_half_even_Z, <- E.
  assert (Hs : ~ inject_Z (10 ^ Z.of_nat ndigits) == 0).
  { intros H. apply (eq_sym) in H. revert H. apply Qlt_not_eq.
    rewrite <- (Zlt_Qlt 0). apply Z.pow_pos_nonneg; lia. }
  field. exact Hs.
Qed.

Lemma confidence_of_described signal_quality r_peaks :
  confidence_of signal_quality r_peaks =
  described_confidence (quality signal_quality) (Zlen r_peaks).
Proof. reflexivity. Qed.

Lemma described_confidence_rounded quality_label peak_count :
  py_round (described_confidence quality_label peak_count) 3 ==
  described_confidence quality_label peak_count.
Proof.
  unfold described_confidence.
  destruct (_ && _).
  - apply (py_round_exact _ 3 (850 + 3 * Z.min peak_count 50)).
    rewrite inject_Z_plus, inject_Z_mult.
    change (inject_Z (10 ^ Z.of_nat 3)) with (inject_Z 1000). field.
  - destruct (_ && _).
    + apply (py_round_exact _ 3 (650 + 4 * Z.min peak_count 50)).
      rewrite inject_Z_plus, inject_Z_mult.
    change (inject_Z (10 ^ Z.of_nat 3)) with (inject_Z 1000). field.
    + apply (py_round_exact _ 3 500). reflexivity.
Qed.

Lemma good_confidence_linear (k : Q) :
  0.85 + k / 50 * 0.15 == (17 # 20) + k * (3 # 1000).
Proof. field. Qed.

Lemma fair_confidence_linear (k : Q) :
  0.65 + k / 50 * 0.20 == (13 # 20) + k * (1 # 250).
Proof. field. Qed.

Lemma min_50_bounds (n lo : Z) :
  (lo < n)%Z -> (lo < 50)%Z ->
  inject_Z (lo + 1) <= inject_Z (Z.min n 50) /\ inject_Z (Z.min n 50) <= 50.
Proof.
  intros H1 H2. change 50 with (inject_Z 50). rewrite <- !Zle_Qle. lia.
Qed.

(** C7.  In the record of an analysis that did not end in the error
    handler, the confidence is the one described for the quality label and
    the peak count reported in the same record: 0.85 + min(n, 50)/50 * 0.15,
    within [0.85, 1], for "Good" and n > 10; 0.65 + min(n, 50)/50 * 0.20,
    within [0.65, 0.85], for "Fair" and n > 5; and 0.50 otherwise. *)
Theorem confidence_by_quality_and_peaks (ecg_signal : list Q) (sample_rate : Z)
    (r : AnalysisResult) :
  analyze_try ecg_signal sample_rate = Ok r ->
  exists signal_quality n,
    signalQuality (details r) = Some signal_quality
    /\ qrsCount (details r) = Some n
    /\ confidence r == described_confidence (quality signal_quality) n
    /\ (quality signal_quality = "Good" /\ (10 < n)%Z ->
          confidence r == 0.85 + inject_Z (Z.min n 50) / 50 * 0.15
          /\ 0.85 <= confidence r <= 1)
    /\ (quality signal_quality = "Fair" /\ (5 < n)%Z ->
          confidence r == 0.65 + inject_Z (Z.min n 50) / 50 * 0.20
          /\ 0.65 <= confidence r <= 0.85)
    /\ (~ (quality signal_quality = "Good" /\ (10 < n)%Z) ->
        ~ (quality signal_quality = "Fair" /\ (5 < n)%Z) ->
          confidence r == 0.50).
Proof.
  intros H. apply analyze_try_ok in H as (sq & peaks & rng & _ & _ & ->).
  exists sq, (Zlen peaks). simpl.
  rewrite confidence_of_described.
  generalize (Zlen peaks) as n. generalize (quality sq) as q. intros q n.
  assert (Hc := described_confidence_rounded q n).
  split; [reflexivity |]. split; [reflexivity |]. split; [exact Hc |].
  rewrite Hc. clear Hc. unfold described_confidence.
  split; [| split].
  - intros [-> Hn]. apply Z.ltb_lt in Hn as Hb. simpl. rewrite Hb.
    split; [reflexivity |].
    destruct (min_50_bounds n 10 Hn eq_refl) as [Hlo Hhi].
    change (inject_Z (10 + 1)) with (11 : Q) in Hlo.
    rewrite good_confidence_linear. revert Hlo Hhi.
    generalize (inject_Z (Z.min n 50)). intros k Hlo Hhi. split; lra.
  - intros [-> Hn]. apply Z.ltb_lt in Hn as Hb. simpl. rewrite Hb.
    split; [reflexivity |].
    destruct (min_50_bounds n 5 Hn eq_refl) as [Hlo Hhi].
    change (inject_Z (5 + 1)) with (6 : Q) in Hlo.
    rewrite fair_confidence_linear. revert Hlo Hhi.
    generalize (inject_Z (Z.min n 50)). intros k Hlo Hhi. split; lra.
  - intros Hg Hf.
    destruct (String.eqb_spec q "Good") as [Eg | Eg], (Z.ltb_spec 10 n); simpl;
      try (exfalso; apply Hg; now split);
      destruct (String.eqb_spec q "Fair") as [Ef | Ef], (Z.ltb_spec 5 n); simpl;
      try (exfalso; apply Hf; now split); reflexivity.
Qed.

(** ** Facts about [preprocess] *)

Lemma Qeq_bool_false (x y : Q) : Qeq_bool x y = false -> ~ x == y.
Proof. intros H E. apply Qeq_bool_iff in E. congruence. Qed.

(** The two ways in which [preprocess] is bound to raise. *)
Lemma preprocess_raises (ecg_signal : list Q) (sample_rate : Z) :
  (sample_rate <= 30)%Z
  \/ (let nyquist := inject_Z sample_rate / 2 in
      let design := butter_band 2 (5 / nyquist) (15 / nyquist) in
      (length ecg_signal <= 3 * Nat.max (length (snd design)) (length (fst design)))%nat) ->
  raises (preprocess ecg_signal sample_rate).
Proof.
  intros H. unfold preprocess, raises, py_div.
  set (nyquist := inject_Z sample_rate / 2).
  destruct (Qeq_bool nyquist 0) eqn:Ez; [simpl; eauto |].
  apply Qeq_bool_false in Ez. simpl.
  unfold butter.
  destruct (Qle_bool (5 / nyquist) 0 || Qle_bool (15 / nyquist) 0) eqn:E1; [simpl; eauto |].
  destruct (negb (Qltb (5 / nyquist) (15 / nyquist))) eqn:E2; [simpl; eauto |].
  destruct (Qle_bool 1 (5 / nyquist) || Qle_bool 1 (15 / nyquist)) eqn:E3; [simpl; eauto |].
  simpl.
  destruct H as [H | H].
  - exfalso.
    apply orb_false_iff in E1 as [E1 _]. apply orb_false_iff in E3 as [_ E3].
    apply not_true_iff_false in E1, E3. rewrite Qle_bool_iff in E1, E3.
    assert (Hs : inject_Z sample_rate <= 30)
      by (change 30 with (inject_Z 30); now rewrite <- Zle_Qle).
    assert (En : nyquist == inject_Z sample_rate * (1 # 2)) by (unfold nyquist; field).
    clearbody nyquist. revert Hs En. generalize (inject_Z sample_rate). intros s Hs En.
    destruct (Qlt_le_dec 0 nyquist) as [Hpos | Hneg].
    + apply E3. apply Qle_shift_div_l; [exact Hpos |]. lra.
    + apply E1.
      assert (Hlt : 0 < - nyquist) by (destruct (Qle_lt_or_eq _ _ Hneg); [lra | contradiction]).
      assert (E : 5 / nyquist == - (5 / - nyquist)) by (field; exact Ez).
      rewrite E.
      assert (0 <= 5 / - nyquist) by (apply Qle_shift_div_l; [exact Hlt | lra]).
      lra.
  - cbv zeta in H. fold nyquist in H.
    destruct (butter_band 2 (5 / nyquist) (15 / nyquist)) as [b a]. simpl in *.
    unfold filtfilt.
    destruct (Nat.leb_spec (length (map (fun v => v - np_mean ecg_signal) ecg_signal))
                (3 * Nat.max (length a) (length b))) as [Hle | Hgt].
    + eauto.
    + rewrite length_map in Hgt. lia.
Qed.

(** The class of the exception: Python's own [ZeroDivisionError] at rate 0,
    where the Nyquist frequency divides; the [ValueError] of SciPy anywhere
    else. *)
Lemma preprocess_exception (ecg_signal : list Q) (sample_rate : Z) :
  (sample_rate <= 30)%Z
  \/ (let nyquist := inject_Z sample_rate / 2 in
      let design := butter_band 2 (5 / nyquist) (15 / nyquist) in
      (length ecg_signal <= 3 * Nat.max (length (snd design)) (length (fst design)))%nat) ->
  exists msg,
    preprocess ecg_signal sample_rate =
      Raise (if (sample_rate =? 0)%Z then ZeroDivisionError msg else ValueError msg).
Proof.
  intros H. unfold preprocess, py_div.
  set (nyquist := inject_Z sample_rate / 2).
  destruct (Z.eqb_spec sample_rate 0) as [E0 | E0].
  { assert (Ez : Qeq_bool nyquist 0 = true).
    { apply Qeq_bool_iff. unfold nyquist. rewrite E0. reflexivity. }
    rewrite Ez. simpl. eauto. }
  assert (Ez : Qeq_bool nyquist 0 = false).
  { destruct (Qeq_bool nyquist 0) eqn:E; [| reflexivity]. exfalso. apply E0.
    apply Qeq_bool_iff in E. unfold nyquist in E.
    assert (Es : inject_Z sample_rate == inject_Z 0).
    { change (inject_Z 0) with 0. revert E. generalize (inject_Z sample_rate).
      intros q Hq. assert (E2 : q == q / 2 * 2) by field. rewrite E2, Hq. ring. }
    apply inject_Z_injective. exact Es. }
  rewrite Ez. apply Qeq_bool_false in Ez. simpl.
  unfold butter.
  destruct (Qle_bool (5 / nyquist) 0 || Qle_bool (15 / nyquist) 0) eqn:E1; [simpl; eauto |].
  destruct (negb (Qltb (5 / nyquist) (15 / nyquist))) eqn:E2; [simpl; eauto |].
  destruct (Qle_bool 1 (5 / nyquist) || Qle_bool 1 (15 / nyquist)) eqn:E3; [simpl; eauto |].
  simpl.
  destruct H as [H | H].
  - exfalso.
    apply orb_false_iff in E1 as [E1 _]. apply orb_false_iff in E3 as [_ E3].
    apply not_true_iff_false in E1, E3. rewrite Qle_bool_iff in E1, E3.
    assert (Hs : inject_Z sample_rate <= 30)
      by (change 30 with (inject_Z 30); now rewrite <- Zle_Qle).
    assert (En : nyquist == inject_Z sample_rate * (1 # 2)) by (unfold nyquist; field).
    clearbody nyquist. revert Hs En. generalize (inject_Z sample_rate). intros s Hs En.
    destruct (Qlt_le_dec 0 nyquist) as [Hpos | Hneg].
    + apply E3. apply Qle_shift_div_l; [exact Hpos |]. lra.
    + apply E1.
      assert (Hlt : 0 < - nyquist) by (destruct (Qle_lt_or_eq _ _ Hneg); [lra | contradiction]).
      assert (E : 5 / nyquist == - (5 / - nyquist)) by (field; exact Ez).
      rewrite E.
      assert (0 <= 5 / - nyquist) by (apply Qle_shift_div_l; [exact Hlt | lra]).
      lra.
  - cbv zeta in H. fold nyquist in H.
    destruct (butter_band 2 (5 / nyquist) (15 / nyquist)) as [b a]. simpl in *.
    unfold filtfilt.
    destruct (Nat.leb_spec (length (map (fun v => v - np_mean ecg_signal) ecg_signal))
                (3 * Nat.max (length a) (length b))) as [Hle | Hgt].
    + eauto.
    + rewrite length_map in Hgt. lia.
Qed.

(** C5 (as amended).  [preprocess] raises whenever the sample rate is at
    most 30 Hz, and whenever the input is no longer than the padding of the
    filter, three times the number of coefficients of the designed filter.
    The exception is the [ValueError] of [scipy.signal.butter] or of
    [scipy.signal.filtfilt], and Python's [ZeroDivisionError] at rate 0;
    the code has no exception of its own. *)
Theorem preprocess_rejects (ecg_signal : list Q) (sample_rate : Z) :
  (sample_rate <= 30)%Z
  \/ (let nyquist := inject_Z sample_rate / 2 in
      let design := butter_band 2 (5 / nyquist) (15 / nyquist) in
      (length ecg_signal <= 3 * Nat.max (length (snd design)) (length (fst design)))%nat) ->
  exists msg,
    preprocess ecg_signal sample_rate =
      Raise (if (sample_rate =? 0)%Z then ZeroDivisionError msg else ValueError msg).
Proof. apply preprocess_exception. Qed.

(** ** The pipeline on a constant signal *)

Lemma all_zero_nth (l : list Q) (i : nat) : all_zero l -> nth i l 0 == 0.
Proof.
  intros H. revert i. induction H as [| x t Hx _ IH]; intros [| i]; simpl;
    try reflexivity; auto.
Qed.

Lemma all_zero_hd (l : list Q) : all_zero l -> hd 0 l == 0.
Proof. intros [| x t Hx _]; simpl; [reflexivity | exact Hx]. Qed.

Lemma all_zero_last (l : list Q) : all_zero l -> List.last l 0 == 0.
Proof.
  induction 1 as [| x t Hx Hl IH]; simpl; [reflexivity |].
  destruct t; [exact Hx | exact IH].
Qed.

Lemma all_zero_rev (l : list Q) : all_zero l -> all_zero (rev l).
Proof. apply Forall_rev. Qed.

Lemma all_zero_map (f : Q -> Q) (l : list Q) :
  (forall v, v == 0 -> f v == 0) -> all_zero l -> all_zero (map f l).
Proof.
  intros Hf H. induction H; simpl; constructor; auto.
Qed.

Lemma all_zero_repeat (n : nat) : all_zero (repeat 0 n).
Proof. induction n; simpl; constructor; [reflexivity | assumption]. Qed.

Lemma Qltb_zero (x y : Q) : x == 0 -> y == 0 -> Qltb x y = false.
Proof. intros Hx Hy. apply Qltb_ge. rewrite Hx, Hy. apply Qle_refl. Qed.

Lemma Qlen_cons {A} (x : A) (l : list A) : Qlen (x :: l) == Qlen l + 1.
Proof.
  unfold Qlen, Zlen. simpl length. rewrite Nat2Z.inj_succ, <- Z.add_1_r, inject_Z_plus.
  reflexivity.
Qed.

Lemma fold_Qplus_constant (c : Q) (l : list Q) (acc : Q) :
  constant_signal c l -> fold_left Qplus l acc == acc + Qlen l * c.
Proof.
  intros H. revert acc. induction H as [| x t Hx _ IH]; intros acc; simpl.
  - unfold Qlen, Zlen. simpl. ring.
  - rewrite IH, Qlen_cons, Hx. ring.
Qed.

Lemma Qlen_pos {A} (l : list A) : l <> [] -> 0 < Qlen l.
Proof.
  intros H. destruct l; [contradiction |].
  unfold Qlen, Zlen. change 0 with (inject_Z 0). rewrite <- Zlt_Qlt. simpl length. lia.
Qed.

Lemma np_mean_constant (c : Q) (l : list Q) :
  l <> [] -> constant_signal c l -> np_mean l == c.
Proof.
  intros Hne H. unfold np_mean, Qsum. rewrite (fold_Qplus_constant c l 0 H).
  assert (Hp := Qlen_pos l Hne). field. intros E. rewrite E in Hp. now apply Qlt_irrefl in Hp.
Qed.

Lemma shifted_constant (c m : Q) (x : list Q) :
  m == c -> constant_signal c x -> all_zero (map (fun v => v - m) x).
Proof.
  intros Hm H. induction H as [| v t Hv _ IH]; simpl; constructor.
  - rewrite Hv, Hm. ring.
  - apply IH.
Qed.

Lemma centered_constant (c : Q) (x : list Q) :
  x <> [] -> constant_signal c x -> all_zero (map (fun v => v - np_mean x) x).
Proof.
  intros Hne H. apply (shifted_constant c); [now apply np_mean_constant | exact H].
Qed.

(** A fold that always returns one of its two arguments. *)
Lemma fold_left_pick (P : Q -> Prop) (f : Q -> Q -> Q) (l : list Q) (x : Q) :
  (forall u v, P u -> P v -> P (f u v)) -> P x -> Forall P l -> P (fold_left f l x).
Proof.
  intros Hf Hx Hl. revert x Hx. induction Hl; intros y Hy; simpl; auto.
Qed.

Lemma np_max_constant (c : Q) (l : list Q) (m : Q) :
  constant_signal c l -> np_max l = Ok m -> m == c.
Proof.
  intros H. destruct H as [| x t Hx Hl]; simpl; [discriminate |].
  intros [= <-]. apply fold_left_pick; auto.
  intros u v Hu Hv. unfold Qmaxb. now destruct (Qltb u v).
Qed.

Lemma np_min_constant (c : Q) (l : list Q) (m : Q) :
  constant_signal c l -> np_min l = Ok m -> m == c.
Proof.
  intros H. destruct H as [| x t Hx Hl]; simpl; [discriminate |].
  intros [= <-]. apply fold_left_pick; auto.
  intros u v Hu Hv. unfold Qminb. now destruct (Qltb v u).
Qed.

(** *** The filter maps the zero signal to the zero signal *)

Lemma zip3_forall (P : Q -> Prop) (f : Q -> Q -> Q -> Q) (u v w : list Q) :
  (forall x y z, In z w -> P (f x y z)) -> Forall P (zip3 f u v w).
Proof.
  intros Hf. unfold zip3. apply Forall_forall. intros r Hr.
  apply list_elem_of_In, in_map_iff in Hr as ([[x y] z] & <- & Hin).
  simpl. apply Hf. now apply in_combine_r in Hin.
Qed.

Lemma lfilter_step_zero (b a z : list Q) (x : Q) :
  all_zero z -> x == 0 ->
  fst (lfilter_step b a z x) == 0 /\ all_zero (snd (lfilter_step b a z x)).
Proof.
  intros Hz Hx. unfold lfilter_step. simpl.
  assert (Hy : hd 0 b * x + hd 0 z == 0) by (rewrite Hx, (all_zero_hd z Hz); ring).
  split; [exact Hy |].
  apply zip3_forall. intros bi ai zn Hin.
  assert (Hzn : zn == 0).
  { apply in_app_or in Hin as [Hin | [<- | []]]; [| reflexivity].
    assert (Ht : all_zero (tl z)) by (destruct Hz; simpl; [constructor | assumption]).
    unfold all_zero in Ht. rewrite Forall_forall in Ht. apply Ht. now apply list_elem_of_In. }
  rewrite Hy, Hx, Hzn. ring.
Qed.

Lemma lfilter_run_cons (b a z : list Q) (x : Q) (xs : list Q) :
  lfilter_run b a z (x :: xs) =
  (fst (lfilter_step b a z x) :: fst (lfilter_run b a (snd (lfilter_step b a z x)) xs),
   snd (lfilter_run b a (snd (lfilter_step b a z x)) xs)).
Proof.
  cbn [lfilter_run]. destruct (lfilter_step b a z x) as [y z'].
  cbn [fst snd]. now destruct (lfilter_run b a z' xs).
Qed.

Lemma lfilter_run_zero (b a z xs : list Q) :
  all_zero z -> all_zero xs -> all_zero (fst (lfilter_run b a z xs)).
Proof.
  intros Hz Hxs. revert z Hz. induction Hxs as [| x xs Hx _ IH]; intros z Hz.
  - constructor.
  - rewrite lfilter_run_cons. cbn [fst].
    destruct (lfilter_step_zero b a z x Hz Hx) as [Hy Hz'].
    constructor; [exact Hy | now apply IH].
Qed.

Lemma lfilter_run_length (b a z xs : list Q) :
  length (fst (lfilter_run b a z xs)) = length xs.
Proof.
  revert z. induction xs as [| x xs IH]; intros z; [reflexivity |].
  rewrite lfilter_run_cons. cbn [fst length]. now rewrite IH.
Qed.

Lemma all_zero_firstn (n : nat) (l : list Q) : all_zero l -> all_zero (firstn n l).
Proof. apply Forall_take. Qed.

Lemma all_zero_skipn (n : nat) (l : list Q) : all_zero l -> all_zero (skipn n l).
Proof. apply Forall_drop. Qed.

Lemma all_zero_tl (l : list Q) : all_zero l -> all_zero (tl l).
Proof. apply Forall_tail. Qed.

Lemma odd_ext_zero (x : list Q) (n : nat) : all_zero x -> all_zero (odd_ext x n).
Proof.
  intros H. unfold odd_ext.
  assert (Hl := all_zero_hd x H). assert (Hr := all_zero_last x H).
  apply Forall_app. split; [| apply Forall_app; split; [exact H |]].
  - apply all_zero_map.
    + intros v Hv. rewrite Hv, Hl. ring.
    + now apply all_zero_rev, all_zero_firstn, all_zero_tl.
  - apply all_zero_map.
    + intros v Hv. rewrite Hv, Hr. ring.
    + now apply all_zero_firstn, all_zero_tl, all_zero_rev.
Qed.

Lemma scaled_by_zero (zi : list Q) (x0 : Q) :
  x0 == 0 -> all_zero (map (fun z => z * x0) zi).
Proof.
  intros H. induction zi; simpl; constructor; [rewrite H; ring | assumption].
Qed.

Lemma filtfilt_zero (b a x y : list Q) :
  all_zero x -> filtfilt b a x = Ok y -> all_zero y.
Proof.
  intros Hx. unfold filtfilt.
  destruct (length x <=? _)%nat; [discriminate |].
  intros H. apply bind_ok in H as ([b' a'] & _ & H).
  apply bind_ok in H as (zi & _ & H). injection H as <-.
  apply all_zero_firstn, all_zero_skipn, all_zero_rev, lfilter_run_zero.
  - apply scaled_by_zero, all_zero_last, lfilter_run_zero.
    + apply scaled_by_zero, all_zero_hd. now apply odd_ext_zero.
    + now apply odd_ext_zero.
  - apply all_zero_rev, lfilter_run_zero.
    + apply scaled_by_zero, all_zero_hd. now apply odd_ext_zero.
    + now apply odd_ext_zero.
Qed.

Lemma odd_ext_length (x : list Q) (n : nat) :
  (n < length x)%nat -> length (odd_ext x n) = (n + length x + n)%nat.
Proof.
  intros H. unfold odd_ext.
  rewrite !length_app, !length_map, length_rev, !length_firstn, length_tl.
  assert (length (tl (rev x)) = (length x - 1)%nat) as ->.
  { rewrite length_tl, length_rev. reflexivity. }
  lia.
Qed.

Lemma filtfilt_length (b a x y : list Q) :
  filtfilt b a x = Ok y -> length y = length x.
Proof.
  unfold filtfilt.
  destruct (Nat.leb_spec (length x) (3 * Nat.max (length a) (length b))) as [| Hlt];
    [discriminate |].
  intros H. apply bind_ok in H as ([b' a'] & _ & H).
  apply bind_ok in H as (zi & _ & H). injection H as <-.
  rewrite length_firstn, length_skipn, length_rev, lfilter_run_length, length_rev,
    lfilter_run_length, odd_ext_length by exact Hlt.
  lia.
Qed.

Lemma filtfilt_runs (b a x : list Q) :
  usable_filter b a -> (3 * Nat.max (length a) (length b) < length x)%nat ->
  exists y, filtfilt b a x = Ok y.
Proof.
  intros (b' & a' & zi & Hn & Hzi) Hlen. unfold filtfilt.
  destruct (Nat.leb_spec (length x) (3 * Nat.max (length a) (length b))); [lia |].
  rewrite Hn. simpl. rewrite Hzi. simpl. eauto.
Qed.

(** *** Derivative, squaring, integration and peak picking on zeros *)

Lemma np_diff_zero (l : list Q) : all_zero l -> all_zero (np_diff l).
Proof.
  induction 1 as [| x t Hx Ht IH]; [constructor |].
  destruct Ht as [| y t' Hy Ht']; [constructor |].
  change (all_zero ((y - x) :: np_diff (y :: t'))). constructor; [| exact IH].
  rewrite Hx, Hy. ring.
Qed.

Lemma np_diff_length (l : list Q) : length (np_diff l) = (length l - 1)%nat.
Proof.
  induction l as [| x [| y t] IH]; try reflexivity.
  change (S (length (np_diff (y :: t))) = (length (x :: y :: t) - 1)%nat).
  rewrite IH. simpl. lia.
Qed.

Lemma add_lists_zero (u v : list Q) : all_zero u -> all_zero v -> all_zero (add_lists u v).
Proof.
  intros Hu. revert v. induction Hu as [| x u' Hx Hu' IH]; intros v Hv; [exact Hv |].
  destruct Hv as [| y v' Hy Hv']; simpl.
  - now constructor.
  - constructor; [rewrite Hx, Hy; ring | now apply IH].
Qed.

Lemma add_lists_length (u v : list Q) :
  length (add_lists u v) = Nat.max (length u) (length v).
Proof.
  revert v. induction u as [| x u IH]; intros [| y v]; simpl; try reflexivity.
  now rewrite IH.
Qed.

Lemma convolve_full_zero (a v : list Q) : all_zero a -> all_zero (convolve_full a v).
Proof.
  induction 1 as [| x a' Hx _ IH]; simpl; [constructor |].
  apply add_lists_zero.
  - clear IH. induction v; simpl; constructor; [rewrite Hx; ring | assumption].
  - constructor; [reflexivity | exact IH].
Qed.

Lemma convolve_full_length (a v : list Q) :
  a <> [] -> v <> [] -> length (convolve_full a v) = (length a + length v - 1)%nat.
Proof.
  intros Hne Hv. assert (0 < length v)%nat by (destruct v; [contradiction | simpl; lia]).
  induction a as [| x [| y a'] IH]; [contradiction | |].
  - simpl. rewrite add_lists_length, length_map. simpl. lia.
  - change (convolve_full (x :: y :: a') v)
      with (add_lists (map (Qmult x) v) (0 :: convolve_full (y :: a') v)).
    rewrite add_lists_length, length_map. cbn [length].
    rewrite IH by discriminate. cbn [length]. lia.
Qed.

Lemma np_convolve_same_ok (a v : list Q) :
  a <> [] -> v <> [] ->
  np_convolve_same a v =
  Ok (firstn (Nat.max (length a) (length v))
        (skipn ((Nat.min (length a) (length v) - 1) / 2) (convolve_full a v))).
Proof.
  intros Ha Hv. destruct a; [contradiction |]. destruct v; [contradiction |]. reflexivity.
Qed.

Lemma np_convolve_same_zero (a v r : list Q) :
  all_zero a -> np_convolve_same a v = Ok r -> all_zero r.
Proof.
  intros Ha H.
  assert (Hne : a <> [] /\ v <> []).
  { destruct a; [discriminate |]. destruct v; [discriminate |]. split; discriminate. }
  rewrite np_convolve_same_ok in H by tauto. injection H as <-.
  now apply all_zero_firstn, all_zero_skipn, convolve_full_zero.
Qed.

Lemma np_convolve_same_runs (a v : list Q) :
  a <> [] -> v <> [] ->
  exists r, np_convolve_same a v = Ok r /\ r <> [].
Proof.
  intros Ha Hv. rewrite np_convolve_same_ok by assumption.
  eexists; split; [reflexivity |].
  intros E. apply (f_equal (@length Q)) in E.
  rewrite length_firstn, length_skipn, convolve_full_length in E by assumption.
  assert (0 < length a)%nat by (destruct a; [contradiction | simpl; lia]).
  assert (0 < length v)%nat by (destruct v; [contradiction | simpl; lia]).
  assert (H2 := Nat.Div0.div_le_upper_bound
                 (Nat.min (length a) (length v) - 1) 2
                 (Nat.min (length a) (length v) - 1)).
  change (length (@nil Q)) with 0%nat in E. lia.
Qed.

Lemma np_max_zero (l : list Q) (m : Q) : all_zero l -> np_max l = Ok m -> m == 0.
Proof. apply np_max_constant. Qed.

Lemma np_max_runs (l : list Q) : l <> [] -> exists m, np_max l = Ok m.
Proof. destruct l; [contradiction | simpl; eauto]. Qed.

Lemma local_maxima_zero (fuel : nat) (x : list Q) (i_max i : nat) :
  all_zero x -> local_maxima_loop fuel x i_max i = [].
Proof.
  intros H. revert i. induction fuel as [| fuel IH]; intros i; simpl; [reflexivity |].
  destruct (i <? i_max)%nat; [| reflexivity].
  rewrite Qltb_zero by now apply all_zero_nth.
  apply IH.
Qed.

Lemma find_peaks_zero (x : list Q) (height : Q) (distance : Z) :
  all_zero x -> (1 <= distance)%Z -> find_peaks x height distance = Ok [].
Proof.
  intros H Hd. unfold find_peaks, _local_maxima_1d.
  destruct (Z.ltb_spec distance 1); [lia |].
  now rewrite local_maxima_zero.
Qed.

(** *** Window and distance at an accepted sample rate *)

Lemma py_int_nonneg (x : Q) : 0 <= x -> py_int x = Qfloor x.
Proof.
  intros H. unfold py_int. now rewrite (proj2 (Qltb_ge x 0) H).
Qed.

Lemma py_int_ge_1 (x : Q) : 1 <= x -> (1 <= py_int x)%Z.
Proof.
  intros H. rewrite py_int_nonneg by lra.
  change 1%Z with (Qfloor 1). now apply Qfloor_resp_le.
Qed.

Lemma rate_bound (sample_rate : Z) : (30 < sample_rate)%Z -> 31 <= inject_Z sample_rate.
Proof.
  intros H. change 31 with (inject_Z 31). rewrite <- Zle_Qle. lia.
Qed.

(** *** [preprocess], the detector and [analyze] on a constant signal *)

Lemma bind_Ok_eq {A B} (m : result A) (k : A -> result B) (a : A) :
  m = Ok a -> m ≫= k = k a.
Proof. now intros ->. Qed.

Lemma Qle_bool_false (x y : Q) : y < x -> Qle_bool x y = false.
Proof.
  intros H. apply not_true_is_false. rewrite Qle_bool_iff. now apply Qlt_not_le.
Qed.

Lemma Qeq_bool_false_of_lt (x y : Q) : y < x -> Qeq_bool x y = false.
Proof.
  intros H. apply not_true_is_false. rewrite Qeq_bool_iff. intros E.
  rewrite E in H. now apply Qlt_irrefl in H.
Qed.

Lemma usable_filter_nonempty (b a : list Q) : usable_filter b a -> (1 <= length a)%nat.
Proof.
  intros (b' & a' & zi & Hn & _). destruct a; [discriminate | simpl; lia].
Qed.

Lemma butter_accepts (sample_rate : Z) :
  (30 < sample_rate)%Z ->
  let nyquist := inject_Z sample_rate / 2 in
  py_div 5 nyquist = Ok (5 / nyquist)
  /\ py_div 15 nyquist = Ok (15 / nyquist)
  /\ butter butter_band 2 (5 / nyquist) (15 / nyquist) =
       Ok (butter_band 2 (5 / nyquist) (15 / nyquist)).
Proof.
  intros H nyquist. apply rate_bound in H.
  assert (En : nyquist == inject_Z sample_rate * (1 # 2)) by (unfold nyquist; field).
  clearbody nyquist. revert H En. generalize (inject_Z sample_rate). intros s Hs En.
  assert (Hpos : 0 < nyquist) by lra.
  assert (Hne : ~ nyquist == 0) by lra.
  assert (Hlow : 0 < 5 / nyquist) by (apply Qlt_shift_div_l; [exact Hpos | lra]).
  assert (Hhigh : 15 / nyquist < 1) by (apply Qlt_shift_div_r; [exact Hpos | lra]).
  assert (Hlh : 5 / nyquist < 15 / nyquist).
  { apply Qlt_shift_div_l; [exact Hpos |].
    assert (E : 5 / nyquist * nyquist == 5) by (field; exact Hne). rewrite E. lra. }
  unfold py_div. rewrite (Qeq_bool_false_of_lt nyquist 0 Hpos).
  split; [reflexivity |]. split; [reflexivity |].
  unfold butter.
  rewrite (Qle_bool_false (5 / nyquist) 0) by exact Hlow.
  rewrite (Qle_bool_false (15 / nyquist) 0) by lra.
  rewrite (proj2 (Qltb_lt _ _) Hlh).
  rewrite (Qle_bool_false 1 (5 / nyquist)) by lra.
  rewrite (Qle_bool_false 1 (15 / nyquist)) by exact Hhigh.
  reflexivity.
Qed.

Lemma preprocess_constant (c : Q) (ecg_signal : list Q) (sample_rate : Z) :
  constant_signal c ecg_signal -> (30 < sample_rate)%Z -> filter_fits ecg_signal sample_rate ->
  exists filtered, preprocess ecg_signal sample_rate = Ok filtered
    /\ all_zero filtered /\ length filtered = length ecg_signal.
Proof.
  intros Hc Hsr [Huse Hlen]. unfold preprocess.
  destruct (butter_accepts sample_rate Hsr) as (E1 & E2 & E3).
  cbv zeta in *.
  set (nyquist := inject_Z sample_rate / 2) in *.
  rewrite (bind_Ok_eq _ _ _ E1), (bind_Ok_eq _ _ _ E2), (bind_Ok_eq _ _ _ E3).
  destruct (butter_band 2 (5 / nyquist) (15 / nyquist)) as [b a]. cbn [fst snd] in *.
  assert (Hne : ecg_signal <> []) by (destruct ecg_signal; [simpl in Hlen; lia | discriminate]).
  set (centered := map (fun v => v - np_mean ecg_signal) ecg_signal).
  assert (Hz : all_zero centered) by now apply (centered_constant c).
  destruct (filtfilt_runs b a centered Huse) as [y Hy].
  { unfold centered. now rewrite length_map. }
  exists y. split; [exact Hy |]. split.
  - now apply (filtfilt_zero b a centered).
  - rewrite (filtfilt_length _ _ _ _ Hy). unfold centered. apply length_map.
Qed.

Lemma detect_qrs_constant (c : Q) (ecg_signal : list Q) (sample_rate : Z) :
  constant_signal c ecg_signal -> (30 < sample_rate)%Z -> filter_fits ecg_signal sample_rate ->
  detect_qrs_pan_tompkins ecg_signal sample_rate = Ok [].
Proof.
  intros Hc Hsr Hfit.
  destruct (preprocess_constant c ecg_signal sample_rate Hc Hsr Hfit) as (y & Hy & Hz & Hlen).
  assert (Hlong : (2 <= length ecg_signal)%nat).
  { destruct Hfit as [Huse Hl]. apply usable_filter_nonempty in Huse. lia. }
  assert (Hs := rate_bound sample_rate Hsr).
  unfold detect_qrs_pan_tompkins. rewrite (bind_Ok_eq _ _ _ Hy).
  assert (Hw : (1 <= py_int (0.15 * inject_Z sample_rate))%Z) by (apply py_int_ge_1; lra).
  assert (Hd : (1 <= py_int (0.2 * inject_Z sample_rate))%Z) by (apply py_int_ge_1; lra).
  set (w := py_int (0.15 * inject_Z sample_rate)) in *.
  unfold np_ones_over. destruct (Z.ltb_spec w 0); [lia |].
  rewrite (bind_Ok_eq _ _ _ eq_refl).
  set (squared := map (fun d => d * d) (np_diff y)).
  assert (Hsq : all_zero squared).
  { apply all_zero_map; [| now apply np_diff_zero]. intros v Hv. rewrite Hv. ring. }
  assert (Hsq_ne : squared <> []).
  { intros E. apply (f_equal (@length Q)) in E. unfold squared in E.
    rewrite length_map, np_diff_length, Hlen in E. simpl in E. lia. }
  assert (Hk_ne : repeat (1 / inject_Z w) (Z.to_nat w) <> []).
  { intros E. apply (f_equal (@length Q)) in E. rewrite repeat_length in E. simpl in E. lia. }
  destruct (np_convolve_same_runs squared _ Hsq_ne Hk_ne) as (r & Hr & Hr_ne).
  rewrite (bind_Ok_eq _ _ _ Hr).
  assert (Hrz : all_zero r) by (eapply np_convolve_same_zero; [exact Hsq | exact Hr]).
  destruct (np_max_runs r Hr_ne) as [m Hm].
  rewrite (bind_Ok_eq _ _ _ Hm).
  now apply find_peaks_zero.
Qed.

Lemma assess_constant (c : Q) (signal_array : list Q) :
  constant_signal c signal_array -> signal_array <> [] ->
  exists signal_quality,
    _assess_signal_quality signal_array = Ok signal_quality
    /\ quality signal_quality = "Poor".
Proof.
  intros Hc Hne. unfold _assess_signal_quality.
  destruct (np_max signal_array) as [hi | e] eqn:Ehi;
    [| destruct signal_array; [contradiction | discriminate]].
  destruct (np_min signal_array) as [lo | e] eqn:Elo;
    [| destruct signal_array; [contradiction | discriminate]].
  apply (np_max_constant c) in Ehi; [| exact Hc].
  apply (np_min_constant c) in Elo; [| exact Hc].
  assert (Hr : Qltb (hi - lo) 50 = true) by (apply Qltb_lt; lra).
  cbn [mbind result_bind]. rewrite Hr, orb_true_r.
  eexists; split; reflexivity.
Qed.

Lemma py_round_zero (ndigits : nat) : py_round 0 ndigits == 0.
Proof. apply (py_round_exact 0 ndigits 0). ring. Qed.

Lemma analyze_try_constant (c : Q) (ecg_signal : list Q) (sample_rate : Z) :
  constant_signal c ecg_signal -> (30 < sample_rate)%Z -> filter_fits ecg_signal sample_rate ->
  exists r signal_quality,
    analyze_try ecg_signal sample_rate = Ok r
    /\ signalQuality (details r) = Some signal_quality
    /\ quality signal_quality = "Poor"
    /\ qrsCount (details r) = Some 0%Z
    /\ heartRate (details r) == 0
    /\ classification r = "Insufficient Data"
    /\ abnormalities (details r) = []
    /\ risk_level r = "Unknown"
    /\ confidence r == 0.50.
Proof.
  intros Hc Hsr Hfit.
  assert (Hne : ecg_signal <> []).
  { destruct Hfit as [_ Hl]. destruct ecg_signal; [simpl in Hl; lia | discriminate]. }
  destruct (assess_constant c ecg_signal Hc Hne) as (sq & Hsq & Hq).
  assert (Hp := detect_qrs_constant c ecg_signal sample_rate Hc Hsr Hfit).
  unfold analyze_try.
  rewrite (bind_Ok_eq _ _ _ Hsq), (bind_Ok_eq _ _ _ Hp).
  eexists; exists sq. split; [reflexivity |].
  cbn [details signalQuality qrsCount heartRate classification abnormalities risk_level
       confidence calculate_heart_rate detect_arrhythmias length Nat.ltb Nat.leb fst snd].
  split; [reflexivity |]. split; [exact Hq |]. split; [reflexivity |].
  split; [apply py_round_zero |]. split; [reflexivity |]. split; [reflexivity |].
  split; [reflexivity |].
  unfold confidence_of. rewrite Hq.
  apply (py_round_exact _ 3 500). reflexivity.
Qed.

(** C1 (as amended).  On a constant signal of integer amplitude (so that
    its mean is computed exactly, in double precision as here) that the
    filter accepts (a sample rate above 30 Hz, a signal longer than the
    padding) [analyze] returns, without entering the error handler, the
    signal quality "Poor", no R-peak, heart rate 0, confidence 0.50, and the
    classification "Insufficient Data" with risk level "Unknown" and no
    abnormality. *)
Theorem analyze_constant_signal (z : Z) (ecg_signal : list Q) (sample_rate : Z) :
  integer_constant z ecg_signal -> (30 < sample_rate)%Z ->
  filter_fits ecg_signal sample_rate ->
  let r := analyze ecg_signal sample_rate in
  analysis_type r = "hybrid_ml_enhanced"
  /\ (exists signal_quality,
        signalQuality (details r) = Some signal_quality /\ quality signal_quality = "Poor")
  /\ qrsCount (details r) = Some 0%Z
  /\ heartRate (details r) == 0
  /\ confidence r == 0.50
  /\ classification r = "Insufficient Data"
  /\ risk_level r = "Unknown"
  /\ abnormalities (details r) = [].
Proof.
  intros [Hc _] Hsr Hfit.
  destruct (analyze_try_constant (inject_Z z) ecg_signal sample_rate Hc Hsr Hfit)
    as (r & sq & Hr & H1 & H2 & H3 & H4 & H5 & H6 & H7 & H8).
  unfold analyze. rewrite Hr. cbv zeta.
  repeat split; try assumption.
  - apply analyze_try_ok in Hr as (? & ? & ? & _ & _ & ->). reflexivity.
  - now exists sq.
Qed.

(** ** Facts about peak picking *)

(** *** The loops of [_local_maxima_1d] *)

Lemma plateau_end_ge (fuel : nat) (x : list Q) (xi : Q) (i_max i_ahead : nat) :
  (i_ahead <= plateau_end fuel x xi i_max i_ahead)%nat.
Proof.
  revert i_ahead. induction fuel as [| fuel IH]; intros i_ahead; simpl; [lia |].
  destruct (_ && _); [| lia]. specialize (IH (S i_ahead)). lia.
Qed.

(** The inner loop stops by its own test before the fuel runs out: at its
    result the index reached [i_max] or the sample differs. *)
Lemma plateau_end_stops (fuel : nat) (x : list Q) (xi : Q) (i_max i_ahead : nat) :
  (i_max - i_ahead < fuel)%nat ->
  let r := plateau_end fuel x xi i_max i_ahead in
  (r <? i_max)%nat && Qeq_bool (nth r x 0) xi = false.
Proof.
  revert i_ahead. induction fuel as [| fuel IH]; intros i_ahead Hf; [lia |].
  simpl. destruct ((i_ahead <? i_max)%nat && Qeq_bool (nth i_ahead x 0) xi) eqn:E.
  - apply IH. apply andb_true_iff in E as [E _]. apply Nat.ltb_lt in E. lia.
  - exact E.
Qed.

(** More fuel than the remaining indices does not change the outer loop. *)
Lemma local_maxima_fuel (fuel fuel' : nat) (x : list Q) (i_max i : nat) :
  (i_max - i <= fuel)%nat -> (i_max - i <= fuel')%nat ->
  local_maxima_loop fuel x i_max i = local_maxima_loop fuel' x i_max i.
Proof.
  revert fuel' i. induction fuel as [| fuel IH]; intros fuel' i H H'.
  - destruct fuel'; simpl; [reflexivity |].
    destruct (Nat.ltb_spec i i_max); [lia | reflexivity].
  - destruct fuel' as [| fuel'].
    + simpl. destruct (Nat.ltb_spec i i_max); [lia | reflexivity].
    + simpl. destruct (Nat.ltb_spec i i_max); [| reflexivity].
      assert (Hge := plateau_end_ge (i_max - i) x (nth i x 0) i_max (i + 1)).
      destruct (Qltb (nth (i - 1) x 0) (nth i x 0)).
      * destruct (Qltb _ (nth i x 0)).
        -- f_equal. apply IH; lia.
        -- apply IH; lia.
      * apply IH; lia.
Qed.

Lemma midpoint_bounds (i i_ahead : nat) :
  (i + 1 <= i_ahead)%nat ->
  (i <= (i + (i_ahead - 1)) / 2)%nat /\ ((i + (i_ahead - 1)) / 2 < i_ahead)%nat.
Proof.
  intros H.
  assert (E := Nat.div_mod_eq (i + (i_ahead - 1)) 2).
  assert (B := Nat.mod_upper_bound (i + (i_ahead - 1)) 2).
  lia.
Qed.

Lemma local_maxima_loop_sorted (fuel : nat) (x : list Q) (i_max i : nat) :
  Forall (fun m => (i <= m)%nat) (local_maxima_loop fuel x i_max i)
  /\ StronglySorted lt (local_maxima_loop fuel x i_max i).
Proof.
  revert i. induction fuel as [| fuel IH]; intros i; cbn [local_maxima_loop].
  - split; constructor.
  - destruct (i <? i_max)%nat; [| split; constructor].
    assert (Hge := plateau_end_ge (i_max - i) x (nth i x 0) i_max (i + 1)).
    set (i_ahead := plateau_end (i_max - i) x (nth i x 0) i_max (i + 1)) in *.
    assert (Hnext : Forall (fun m => (i <= m)%nat) (local_maxima_loop fuel x i_max (i + 1))).
    { destruct (IH (i + 1)%nat) as [H _]. eapply Forall_impl; [exact H |]. simpl. lia. }
    destruct (Qltb (nth (i - 1) x 0) (nth i x 0)); [| split; [exact Hnext | apply IH]].
    destruct (Qltb (nth i_ahead x 0) (nth i x 0)); [| split; [exact Hnext | apply IH]].
    destruct (midpoint_bounds i i_ahead Hge) as [Hlo Hhi].
    destruct (IH (i_ahead + 1)%nat) as [Hall Hsorted].
    set (m := ((i + (i_ahead - 1)) / 2)%nat) in *.
    split.
    + constructor; [exact Hlo |].
      eapply Forall_impl; [exact Hall |]. intros y Hy. cbv beta in Hy. lia.
    + constructor; [exact Hsorted |].
      eapply Forall_impl; [exact Hall |]. intros y Hy. cbv beta in Hy. lia.
Qed.

Lemma local_maxima_sorted (x : list Q) : StronglySorted lt (_local_maxima_1d x).
Proof. apply local_maxima_loop_sorted. Qed.

(** *** The flags of [_select_by_peak_distance] *)

Lemma flags_le_refl (keep : list bool) : flags_le keep keep.
Proof. split; auto. Qed.

Lemma flags_le_trans (k1 k2 k3 : list bool) :
  flags_le k1 k2 -> flags_le k2 k3 -> flags_le k1 k3.
Proof. intros [L1 H1] [L2 H2]. split; [congruence | auto]. Qed.

Lemma flags_le_insert (keep : list bool) (k : nat) : flags_le (<[k := false]> keep) keep.
Proof.
  split; [apply length_insert |]. intros k' H.
  destruct (Nat.eq_dec k k') as [<- | Hne].
  - destruct (Nat.lt_ge_cases k (length keep)) as [Hlt | Hge].
    + rewrite list_lookup_insert_eq in H by exact Hlt. discriminate.
    + rewrite lookup_ge_None_2 in H by (rewrite length_insert; exact Hge). discriminate.
  - now rewrite list_lookup_insert_ne in H by exact Hne.
Qed.

Lemma flags_le_false (keep' keep : list bool) (k : nat) :
  flags_le keep' keep -> keep !! k = Some false -> keep' !! k = Some false.
Proof.
  intros [Hlen H] Hk.
  destruct (keep' !! k) as [[|] |] eqn:E.
  - apply H in E. congruence.
  - reflexivity.
  - apply lookup_ge_None_1 in E. rewrite Hlen in E.
    apply lookup_ge_None_2 in E. congruence.
Qed.

Lemma flag_earlier_le (peaks : list Z) (pj d : Z) (k1 : nat) (keep : list bool) :
  flags_le (flag_earlier peaks pj d k1 keep) keep.
Proof.
  revert keep. induction k1 as [| k IH]; intros keep; simpl; [apply flags_le_refl |].
  destruct (_ <? _)%Z; [| apply flags_le_refl].
  eapply flags_le_trans; [apply IH | apply flags_le_insert].
Qed.

Lemma flag_later_le (later : list Z) (pj d : Z) (k : nat) (keep : list bool) :
  flags_le (flag_later later pj d k keep) keep.
Proof.
  revert k keep. induction later as [| pk later IH]; intros k keep; simpl;
    [apply flags_le_refl |].
  destruct (_ <? _)%Z; [| apply flags_le_refl].
  eapply flags_le_trans; [apply IH | apply flags_le_insert].
Qed.

(** The downward loop clears every earlier peak closer than the distance. *)
Lemma flag_earlier_covers (peaks : list Z) (d : Z) (j k1 : nat) (keep : list bool) :
  increasing peaks -> (k1 <= j)%nat -> (j < length peaks)%nat ->
  length keep = length peaks ->
  forall k, (k < k1)%nat -> (nth j peaks 0 - nth k peaks 0 < d)%Z ->
  flag_earlier peaks (nth j peaks 0%Z) d k1 keep !! k = Some false.
Proof.
  intros Hinc. revert keep. induction k1 as [| k0 IH]; intros keep Hk1 Hj Hlen k Hk Hclose;
    [lia |].
  simpl. destruct (Z.ltb_spec (nth j peaks 0 - nth k0 peaks 0)%Z d) as [Hlt | Hge].
  - destruct (Nat.eq_dec k k0) as [-> | Hne].
    + apply (flags_le_false _ (<[k0 := false]> keep)); [apply flag_earlier_le |].
      apply list_lookup_insert_eq. lia.
    + apply IH; try lia. now rewrite length_insert.
  - exfalso. destruct (Nat.eq_dec k k0) as [-> | Hne]; [lia |].
    assert (H := Hinc k k0). lia.
Qed.

Lemma skipn_cons_nth (peaks : list Z) (k : nat) (pk : Z) (later : list Z) :
  skipn k peaks = pk :: later ->
  nth k peaks 0%Z = pk /\ skipn (S k) peaks = later /\ (k < length peaks)%nat.
Proof.
  revert k. induction peaks as [| p peaks IH]; intros [| k]; simpl; try discriminate.
  - intros [= -> ->]. repeat split. lia.
  - intros H. destruct (IH k H) as (H1 & H2 & H3). repeat split; auto. lia.
Qed.

(** The upward loop clears every later peak closer than the distance. *)
Lemma flag_later_covers (peaks : list Z) (d pj : Z) (k0 : nat) (later : list Z)
    (keep : list bool) :
  increasing peaks -> later = skipn k0 peaks -> length keep = length peaks ->
  forall k, (k0 <= k)%nat -> (k < length peaks)%nat -> (nth k peaks 0 - pj < d)%Z ->
  flag_later later pj d k0 keep !! k = Some false.
Proof.
  intros Hinc. revert k0 keep.
  induction later as [| pk later IH]; intros k0 keep Hl Hlen k Hk Hin Hclose.
  - exfalso. symmetry in Hl. apply (f_equal (@length Z)) in Hl.
    rewrite length_skipn in Hl. simpl in Hl. lia.
  - symmetry in Hl. apply skipn_cons_nth in Hl as (Hpk & Hrest & Hk0).
    simpl. destruct (Z.ltb_spec (pk - pj)%Z d) as [Hlt | Hge].
    + destruct (Nat.eq_dec k k0) as [-> | Hne].
      * apply (flags_le_false _ (<[k0 := false]> keep)); [apply flag_later_le |].
        apply list_lookup_insert_eq. lia.
      * apply IH; auto; try lia. now rewrite length_insert.
    + exfalso. destruct (Nat.eq_dec k k0) as [-> | Hne]; [lia |].
      assert (H := Hinc k0 k). lia.
Qed.

Lemma select_step_le (peaks : list Z) (d : Z) (keep : list bool) (j : nat) :
  flags_le (select_step peaks d keep j) keep.
Proof.
  unfold select_step. destruct (keep !! j) as [[|] |]; try apply flags_le_refl.
  eapply flags_le_trans; [apply flag_later_le | apply flag_earlier_le].
Qed.

Lemma select_step_clears (peaks : list Z) (d : Z) (keep : list bool) (j : nat) :
  increasing peaks -> length keep = length peaks -> keep !! j = Some true ->
  forall k, (k < length peaks)%nat -> too_close peaks d j k ->
  select_step peaks d keep j !! k = Some false.
Proof.
  intros Hinc Hlen Hj k Hk Hclose. unfold select_step. rewrite Hj.
  assert (Hjlt : (j < length peaks)%nat).
  { rewrite <- Hlen. apply lookup_lt_is_Some. eauto. }
  destruct Hclose as [[Hkj Hc] | [Hjk Hc]].
  - apply (flags_le_false _ (flag_earlier peaks (nth j peaks 0%Z) d j keep));
      [apply flag_later_le |].
    now apply flag_earlier_covers.
  - apply (flag_later_covers peaks d (nth j peaks 0%Z) (S j)); auto; try lia.
    destruct (flag_earlier_le peaks (nth j peaks 0%Z) d j keep) as [-> _]. exact Hlen.
Qed.

Lemma select_step_invariant (peaks : list Z) (d : Z) (done : list nat)
    (keep : list bool) (j : nat) :
  increasing peaks ->
  neighbours_cleared peaks d done keep ->
  neighbours_cleared peaks d (j :: done) (select_step peaks d keep j).
Proof.
  intros Hinc [Hlen Hdone].
  assert (Hle := select_step_le peaks d keep j).
  split; [destruct Hle as [-> _]; exact Hlen |].
  intros j0 [<- | Hin] Hkept k Hk Hclose.
  - apply select_step_clears; auto. now apply Hle.
  - apply (flags_le_false _ keep); [exact Hle |].
    apply (Hdone j0); auto. now apply Hle.
Qed.

Lemma select_fold_invariant (peaks : list Z) (d : Z) (order done : list nat)
    (keep : list bool) :
  increasing peaks ->
  neighbours_cleared peaks d done keep ->
  neighbours_cleared peaks d (rev order ++ done)
    (fold_left (select_step peaks d) order keep).
Proof.
  intros Hinc. revert done keep.
  induction order as [| j order IH]; intros done keep H; simpl; [exact H |].
  rewrite <- app_assoc. simpl. apply IH. now apply select_step_invariant.
Qed.

(** [argsort] returns a permutation of the positions. *)
Lemma insert_by_perm (key : nat -> Q) (i : nat) (l : list nat) :
  Permutation (insert_by key i l) (i :: l).
Proof.
  induction l as [| j l IH]; simpl; [reflexivity |].
  destruct (Qle_bool (key i) (key j)); [reflexivity |].
  rewrite IH. apply perm_swap.
Qed.

Lemma argsort_perm (priority : list Q) :
  Permutation (argsort priority) (seq 0 (length priority)).
Proof.
  unfold argsort. generalize (seq 0 (length priority)). intros l.
  induction l as [| i l IH]; simpl; [reflexivity |].
  rewrite insert_by_perm. now constructor.
Qed.

(** Two peaks kept by [_select_by_peak_distance] are at least the distance
    apart. *)
Lemma select_by_peak_distance_spaced (peaks : list Z) (priority : list Q) (d : Z) :
  increasing peaks -> length priority = length peaks ->
  let keep := _select_by_peak_distance peaks priority d in
  length keep = length peaks
  /\ forall i j, (i < j)%nat -> keep !! i = Some true -> keep !! j = Some true ->
     (nth i peaks 0 + d <= nth j peaks 0)%Z.
Proof.
  intros Hinc Hlen keep.
  assert (Hinv : neighbours_cleared peaks d
                   (rev (rev (argsort priority)) ++ []) keep).
  { apply select_fold_invariant; [exact Hinc |].
    split; [apply repeat_length | intros j []]. }
  destruct Hinv as [Hl Hinv]. split; [exact Hl |].
  intros i j Hij Hi Hj.
  assert (Hjlt : (j < length peaks)%nat).
  { rewrite <- Hl. apply lookup_lt_is_Some. eauto. }
  destruct (Z.le_gt_cases (nth i peaks 0 + d)%Z (nth j peaks 0%Z)) as [| Hclose]; [assumption |].
  exfalso.
  assert (Hin : In i (rev (rev (argsort priority)) ++ [])).
  { rewrite app_nil_r, rev_involutive.
    apply (Permutation_in _ (Permutation_sym (argsort_perm priority))).
    apply in_seq. lia. }
  specialize (Hinv i Hin Hi j Hjlt).
  rewrite Hinv in Hj; [discriminate |].
  right. split; [exact Hij | lia].
Qed.

(** *** Masks and sorted lists *)

Lemma mask_nil_r {A} (l : list A) : mask l [] = [].
Proof. unfold mask. now destruct l. Qed.

Lemma mask_cons {A} (p : A) (ps : list A) (k : bool) (ks : list bool) :
  mask (p :: ps) (k :: ks) = if k then p :: mask ps ks else mask ps ks.
Proof.
  unfold mask. simpl combine. rewrite filter_cons.
  destruct k; reflexivity.
Qed.

Lemma mask_elem {A} (ps : list A) (ks : list bool) (q : A) :
  In q (mask ps ks) -> exists j, ps !! j = Some q /\ ks !! j = Some true.
Proof.
  revert ks. induction ps as [| p ps IH]; intros ks H; [contradiction |].
  destruct ks as [| k ks]; [now rewrite mask_nil_r in H |].
  rewrite mask_cons in H. destruct k.
  - destruct H as [<- | H]; [now exists 0%nat |].
    destruct (IH ks H) as (j & H1 & H2). now exists (S j).
  - destruct (IH ks H) as (j & H1 & H2). now exists (S j).
Qed.

Lemma mask_sorted {A} (R : A -> A -> Prop) (ps : list A) (ks : list bool) :
  (forall i j p q, (i < j)%nat -> ps !! i = Some p -> ps !! j = Some q ->
     ks !! i = Some true -> ks !! j = Some true -> R p q) ->
  StronglySorted R (mask ps ks).
Proof.
  revert ks. induction ps as [| p ps IH]; intros ks H; [constructor |].
  destruct ks as [| k ks]; [rewrite mask_nil_r; constructor |].
  assert (Htail : StronglySorted R (mask ps ks)).
  { apply IH. intros i j x y Hij Hx Hy Hi Hj. apply (H (S i) (S j)); auto. lia. }
  rewrite mask_cons. destruct k; [| exact Htail].
  constructor; [exact Htail |].
  apply List.Forall_forall. intros q Hq.
  destruct (mask_elem ps ks q Hq) as (j & H1 & H2).
  apply (H 0%nat (S j)); auto. lia.
Qed.

Lemma StronglySorted_filter {A} (R : A -> A -> Prop) (P : A -> Prop)
    `{forall x, Decision (P x)} (l : list A) :
  StronglySorted R l -> StronglySorted R (filter P l).
Proof.
  induction 1 as [| x l Hs IH Hall]; [constructor |].
  rewrite filter_cons. destruct (decide (P x)); [| exact IH].
  constructor; [exact IH |].
  apply List.Forall_forall. intros y Hy.
  apply list_elem_of_In, list_elem_of_filter in Hy as [_ Hy].
  rewrite List.Forall_forall in Hall. apply Hall. now apply list_elem_of_In.
Qed.

Lemma StronglySorted_of_nat (l : list nat) :
  StronglySorted lt l -> StronglySorted Z.lt (map Z.of_nat l).
Proof.
  induction 1 as [| x l Hs IH Hall]; simpl; constructor; [exact IH |].
  apply List.Forall_forall. intros y Hy. apply in_map_iff in Hy as (n & <- & Hn).
  rewrite List.Forall_forall in Hall. specialize (Hall n Hn). lia.
Qed.

Lemma StronglySorted_increasing (l : list Z) : StronglySorted Z.lt l -> increasing l.
Proof.
  induction 1 as [| x l Hs IH Hall]; intros i j Hij Hj; [simpl in Hj; lia |].
  destruct j as [| j]; [lia |]. simpl in Hj.
  destruct i as [| i]; simpl.
  - rewrite List.Forall_forall in Hall. apply Hall, nth_In. lia.
  - apply IH; lia.
Qed.

Lemma StronglySorted_consecutive (R : Z -> Z -> Prop) (l : list Z) :
  StronglySorted R l -> consecutive R l.
Proof.
  induction 1 as [| x l Hs IH Hall]; [exact I |].
  destruct l as [| y l]; [exact I |].
  split; [| exact IH]. now inversion Hall.
Qed.

Lemma StronglySorted_weaken {A} (R R' : A -> A -> Prop) (l : list A) :
  (forall x y, R x y -> R' x y) -> StronglySorted R l -> StronglySorted R' l.
Proof.
  intros HR. induction 1 as [| x l Hs IH Hall]; constructor; [exact IH |].
  eapply List.Forall_impl; [| exact Hall]. auto.
Qed.

(** The peaks of [find_peaks] increase, and any two of them are at least
    the distance apart. *)
Lemma find_peaks_spaced (x : list Q) (height : Q) (distance : Z) (peaks : list Z) :
  find_peaks x height distance = Ok peaks ->
  StronglySorted (fun p q => (p < q /\ distance <= q - p)%Z) peaks.
Proof.
  unfold find_peaks. destruct (distance <? 1)%Z; [discriminate |].
  intros [= <-].
  set (at_peak := fun p : Z => nth (Z.to_nat p) x 0).
  set (candidates := filter (fun p => Is_true (Qle_bool height (at_peak p)))
                       (map Z.of_nat (_local_maxima_1d x))).
  assert (Hsorted : StronglySorted Z.lt candidates).
  { apply StronglySorted_filter, StronglySorted_of_nat, local_maxima_sorted. }
  assert (Hinc := StronglySorted_increasing candidates Hsorted).
  destruct (select_by_peak_distance_spaced candidates (map at_peak candidates) distance Hinc)
    as [Hlen Hsp]; [apply length_map |].
  apply mask_sorted. intros i j p q Hij Hp Hq Hi Hj.
  specialize (Hsp i j Hij Hi Hj).
  assert (Ep := nth_lookup_Some candidates i 0%Z p Hp).
  assert (Eq := nth_lookup_Some candidates j 0%Z q Hq).
  rewrite Ep, Eq in Hsp.
  split; [| lia].
  assert (Hjlt : (j < length candidates)%nat) by (apply lookup_lt_is_Some; eauto).
  specialize (Hinc i j Hij Hjlt).
  now rewrite Ep, Eq in Hinc.
Qed.

Lemma detect_qrs_rate (ecg_signal : list Q) (sample_rate : Z) (r_peaks : list Z) :
  detect_qrs_pan_tompkins ecg_signal sample_rate = Ok r_peaks -> (30 < sample_rate)%Z.
Proof.
  intros H. destruct (Z.le_gt_cases sample_rate 30) as [Hle | Hgt]; [| lia].
  exfalso. destruct (preprocess_raises ecg_signal sample_rate (or_introl Hle)) as [e He].
  unfold detect_qrs_pan_tompkins in H. rewrite He in H. discriminate.
Qed.

(** C6 (as amended).  The R-peak indices returned by the detector increase
    strictly, and each is at least [int(0.2 * sample_rate)] samples after
    the one before (indeed after every earlier one); that distance is 0.2 s
    times the sample rate rounded down to a whole number of samples, so it
    is the full 0.2 s only at sample rates that are multiples of 5. *)
Theorem r_peaks_increasing_and_spaced (ecg_signal : list Q) (sample_rate : Z)
    (r_peaks : list Z) :
  detect_qrs_pan_tompkins ecg_signal sample_rate = Ok r_peaks ->
  let distance := py_int (0.2 * inject_Z sample_rate) in
  consecutive Z.lt r_peaks
  /\ consecutive (fun p q => (distance <= q - p)%Z) r_peaks
  /\ StronglySorted (fun p q => (p < q /\ distance <= q - p)%Z) r_peaks
  /\ 0.2 * inject_Z sample_rate - 1 < inject_Z distance
  /\ inject_Z distance <= 0.2 * inject_Z sample_rate.
Proof.
  intros H distance.
  assert (Hrate := rate_bound sample_rate (detect_qrs_rate _ _ _ H)).
  assert (Hs : StronglySorted (fun p q => (p < q /\ distance <= q - p)%Z) r_peaks).
  { unfold detect_qrs_pan_tompkins in H.
    apply bind_ok in H as (filtered & _ & H).
    apply bind_ok in H as (kernel & _ & H).
    apply bind_ok in H as (integrated & _ & H).
    apply bind_ok in H as (top & _ & H).
    now apply find_peaks_spaced in H. }
  split; [| split; [| split; [exact Hs |]]].
  - apply StronglySorted_consecutive.
    eapply StronglySorted_weaken; [| exact Hs]. simpl. tauto.
  - apply StronglySorted_consecutive.
    eapply StronglySorted_weaken; [| exact Hs]. simpl. tauto.
  - unfold distance. rewrite py_int_nonneg by lra.
    assert (Hf := Qlt_floor (0.2 * inject_Z sample_rate)).
    assert (Hl := Qfloor_le (0.2 * inject_Z sample_rate)).
    rewrite inject_Z_plus in Hf. change (inject_Z 1) with 1 in Hf.
    split; lra.
Qed.

(** ** Further facts about the rule engine *)

Lemma rule_rate_label heart_rate cv st :
  st_classification (rule_rate heart_rate cv st) =
    (if Qltb heart_rate 60 then "Sinus Bradycardia"
     else if Qgtb heart_rate 100 then
       (if Qgtb heart_rate 150 && Qgtb cv 15 then "Ventricular Tachycardia (Suspected)"
        else "Sinus Tachycardia")
     else st_classification st).
Proof.
  unfold rule_rate.
  destruct (Qltb heart_rate 60);
    [ destruct (Qltb heart_rate 40)
    | destruct (Qgtb heart_rate 100);
      [ destruct (Qgtb heart_rate 150); [ destruct (Qgtb cv 15) | ] | ] ];
    reflexivity.
Qed.

Lemma rule_afib_label cv rr st :
  st_classification (rule_afib cv rr st) =
    (if Qgtb cv 20 then
       (if afib_test rr then "Atrial Fibrillation (Suspected)"
        else if String.eqb (st_classification st) "Normal Sinus Rhythm"
             then "Sinus Arrhythmia" else st_classification st)
     else st_classification st).
Proof.
  unfold rule_afib. destruct (Qgtb cv 20); [destruct (afib_test rr) |]; reflexivity.
Qed.

Lemma rule_pvc_label rr st :
  st_classification (rule_pvc rr (np_mean rr) (np_std rr) st) =
    (if pvc_fires rr then
       (if str_in "Normal" (st_classification st)
        then "Premature Ventricular Contractions" else st_classification st)
     else st_classification st).
Proof.
  unfold rule_pvc, pvc_fires. cbv zeta.
  destruct (3 <? length rr)%nat;
    [ destruct (0 <? pvc_count _ _ _)%Z; [ destruct (Qgtb (pvc_percentage _ _ _) 10) | ] | ];
    reflexivity.
Qed.

Lemma rule_normal_label heart_rate st :
  st_classification (rule_normal heart_rate st) =
    (if (length (st_abnormalities st) =? 0)%nat
     then "Normal Sinus Rhythm" else st_classification st).
Proof.
  unfold rule_normal. now destruct (length (st_abnormalities st) =? 0)%nat.
Qed.

Lemma detect_arrhythmias_label (heart_rate : Q) (rr_intervals : list Q) :
  fst (fst (detect_arrhythmias heart_rate rr_intervals)) = final_label heart_rate rr_intervals.
Proof.
  unfold detect_arrhythmias, final_label.
  destruct (length rr_intervals <? 2)%nat; [reflexivity |].
  cbv zeta. cbn [fst]. set (cv := cv_of rr_intervals).
  set (s2 := rule_rate heart_rate cv initial_state).
  set (s3 := rule_afib cv rr_intervals s2).
  set (s4 := rule_pvc rr_intervals (np_mean rr_intervals) (np_std rr_intervals) s3).
  rewrite rule_normal_label.
  destruct (rule_pvc_summary rr_intervals s3) as [_ L4]. fold s4 in L4.
  destruct (rule_afib_summary cv rr_intervals s2) as [_ L3]. fold s3 in L3.
  destruct (rule_rate_summary heart_rate cv initial_state) as [_ L2]. fold s2 in L2.
  assert (C4 := rule_pvc_label rr_intervals s3). fold s4 in C4.
  assert (C3 := rule_afib_label cv rr_intervals s2). fold s3 in C3.
  assert (C2 := rule_rate_label heart_rate cv initial_state). fold s2 in C2.
  rewrite C4, C3, C2, L4, L3, L2. simpl.
  destruct (pvc_fires rr_intervals), (Qgtb cv 20), (afib_test rr_intervals),
    (Qltb heart_rate 60), (Qgtb heart_rate 100), (Qgtb heart_rate 150), (Qgtb cv 15);
    reflexivity.
Qed.

(** The label returned by [detect_arrhythmias] follows a fixed priority:
    "Atrial Fibrillation (Suspected)" replaces every other label; a rate
    label (bradycardia, tachycardia) is kept when the irregular-rhythm or the
    PVC finding is appended; "Sinus Arrhythmia" and "Premature Ventricular
    Contractions" only ever replace the default label. *)
Theorem classification_priority (heart_rate : Q) (rr_intervals : list Q) :
  fst (fst (detect_arrhythmias heart_rate rr_intervals)) = final_label heart_rate rr_intervals
  /\ In (final_label heart_rate rr_intervals)
       ["Insufficient Data"; "Atrial Fibrillation (Suspected)"; "Sinus Bradycardia";
        "Ventricular Tachycardia (Suspected)"; "Sinus Tachycardia"; "Sinus Arrhythmia";
        "Premature Ventricular Contractions"; "Normal Sinus Rhythm"].
Proof.
  split; [apply detect_arrhythmias_label |].
  unfold final_label. cbv zeta.
  destruct (length rr_intervals <? 2)%nat, (pvc_fires rr_intervals),
    (Qgtb (cv_of rr_intervals) 20), (afib_test rr_intervals), (Qltb heart_rate 60),
    (Qgtb heart_rate 100), (Qgtb heart_rate 150), (Qgtb (cv_of rr_intervals) 15);
    simpl; tauto.
Qed.

Lemma rule_rate_idle heart_rate cv st :
  Qltb heart_rate 60 = false -> Qgtb heart_rate 100 = false -> rule_rate heart_rate cv st = st.
Proof. intros H1 H2. unfold rule_rate. now rewrite H1, H2. Qed.

Lemma rule_afib_idle cv rr st : Qgtb cv 20 = false -> rule_afib cv rr st = st.
Proof. intros H. unfold rule_afib. now rewrite H. Qed.

Lemma rule_pvc_idle rr st :
  pvc_fires rr = false -> rule_pvc rr (np_mean rr) (np_std rr) st = st.
Proof.
  unfold pvc_fires, rule_pvc. cbv zeta.
  destruct (3 <? length rr)%nat;
    [ destruct (0 <? pvc_count _ _ _)%Z; [ destruct (Qgtb (pvc_percentage _ _ _) 10) | ] | ];
    simpl; intros H; (discriminate H || reflexivity).
Qed.

(** "Normal Sinus Rhythm" is returned only when no block found anything. *)
Lemma normal_label_alone (heart_rate : Q) (rr_intervals : list Q) :
  fst (fst (detect_arrhythmias heart_rate rr_intervals)) = "Normal Sinus Rhythm" ->
  detect_arrhythmias heart_rate rr_intervals =
    ("Normal Sinus Rhythm", [normal_finding heart_rate], "Low").
Proof.
  rewrite detect_arrhythmias_label. unfold final_label. cbv zeta.
  destruct (length rr_intervals <? 2)%nat eqn:Elen; [discriminate |].
  destruct (Qgtb (cv_of rr_intervals) 20) eqn:Ecv;
    [destruct (afib_test rr_intervals) |]; simpl;
    (destruct (Qltb heart_rate 60) eqn:Eslow; [discriminate |]);
    (destruct (Qgtb heart_rate 100) eqn:Efast;
       [destruct (Qgtb heart_rate 150 && Qgtb (cv_of rr_intervals) 15); discriminate |]);
    try discriminate.
  destruct (pvc_fires rr_intervals) eqn:Epvc; [discriminate |]. intros _.
  unfold detect_arrhythmias. rewrite Elen. cbv zeta.
  rewrite (rule_rate_idle _ _ _ Eslow Efast), (rule_afib_idle _ _ _ Ecv),
    (rule_pvc_idle _ _ Epvc).
  reflexivity.
Qed.

(** When [detect_arrhythmias] returns "Normal Sinus Rhythm", the risk level
    is "Low" and the single finding is the "Normal" entry of severity
    "None": the label never coexists with an abnormal finding. *)
Theorem normal_sinus_rhythm_means_no_finding (heart_rate : Q) (rr_intervals : list Q) :
  fst (fst (detect_arrhythmias heart_rate rr_intervals)) = "Normal Sinus Rhythm" ->
  detect_arrhythmias heart_rate rr_intervals =
    ("Normal Sinus Rhythm", [normal_finding heart_rate], "Low").
Proof. apply normal_label_alone. Qed.

(** ** Further facts about [analyze] and its parts *)

Lemma described_confidence_range (quality_label : string) (peak_count : Z) :
  0.5 <= described_confidence quality_label peak_count <= 1.
Proof.
  unfold described_confidence.
  destruct (String.eqb quality_label "Good" && (10 <? peak_count)%Z) eqn:Eg.
  - apply andb_true_iff in Eg as [_ Hn]. apply Z.ltb_lt in Hn.
    destruct (min_50_bounds peak_count 10 Hn eq_refl) as [Hlo Hhi].
    change (inject_Z (10 + 1)) with (11 : Q) in Hlo.
    rewrite good_confidence_linear. revert Hlo Hhi.
    generalize (inject_Z (Z.min peak_count 50)). intros k Hlo Hhi. split; lra.
  - destruct (String.eqb quality_label "Fair" && (5 <? peak_count)%Z) eqn:Ef.
    + apply andb_true_iff in Ef as [_ Hn]. apply Z.ltb_lt in Hn.
      destruct (min_50_bounds peak_count 5 Hn eq_refl) as [Hlo Hhi].
      change (inject_Z (5 + 1)) with (6 : Q) in Hlo.
      rewrite fair_confidence_linear. revert Hlo Hhi.
      generalize (inject_Z (Z.min peak_count 50)). intros k Hlo Hhi. split; lra.
    + split; lra.
Qed.

(** The confidence of every record returned by [analyze] lies in [0, 1];
    it is 0 exactly on the error record and at least 0.5 on every other. *)
Theorem confidence_in_unit_interval (ecg_signal : list Q) (sample_rate : Z) :
  let r := analyze ecg_signal sample_rate in
  0 <= confidence r <= 1
  /\ (analysis_type r = "error" -> confidence r == 0)
  /\ (analysis_type r <> "error" -> 0.5 <= confidence r).
Proof.
  unfold analyze. destruct (analyze_try ecg_signal sample_rate) as [r | e] eqn:E; cbv zeta.
  - apply analyze_try_ok in E as (sq & peaks & rng & _ & _ & ->). simpl.
    rewrite confidence_of_described, described_confidence_rounded.
    destruct (described_confidence_range (quality sq) (Zlen peaks)) as [Hlo Hhi].
    repeat split; try lra. discriminate.
  - simpl. repeat split; try lra; try reflexivity. intros H. now contradiction H.
Qed.

Lemma raises_bind {A B} (m : result A) (k : A -> result B) :
  raises m -> raises (m ≫= k).
Proof. intros [e ->]. now exists e. Qed.

Lemma detect_qrs_raises (ecg_signal : list Q) (sample_rate : Z) :
  raises (preprocess ecg_signal sample_rate) ->
  raises (detect_qrs_pan_tompkins ecg_signal sample_rate).
Proof. apply raises_bind. Qed.

Lemma analyze_try_raises (ecg_signal : list Q) (sample_rate : Z) :
  ecg_signal = [] \/ raises (preprocess ecg_signal sample_rate) ->
  raises (analyze_try ecg_signal sample_rate).
Proof.
  intros [-> | H]; unfold analyze_try.
  - apply raises_bind. unfold raises. eexists. reflexivity.
  - destruct (_assess_signal_quality ecg_signal) as [sq | e]; [| now exists e].
    rewrite (bind_Ok_eq _ _ sq eq_refl). apply raises_bind. now apply detect_qrs_raises.
Qed.

(** [analyze] returns the error record, with the text of the exception,
    for an empty signal, for a sample rate of at most 30 Hz, and for a
    signal no longer than the padding of the filter. *)
Theorem analyze_unusable_input (ecg_signal : list Q) (sample_rate : Z) :
  ecg_signal = []
  \/ (sample_rate <= 30)%Z
  \/ (let nyquist := inject_Z sample_rate / 2 in
      let design := butter_band 2 (5 / nyquist) (15 / nyquist) in
      (length ecg_signal <= 3 * Nat.max (length (snd design)) (length (fst design)))%nat) ->
  exists e, analyze ecg_signal sample_rate = error_record e.
Proof.
  intros H.
  assert (Hr : raises (analyze_try ecg_signal sample_rate)).
  { apply analyze_try_raises. destruct H as [H | H]; [now left | right].
    now apply preprocess_raises. }
  destruct Hr as [e He]. exists e. unfold analyze. now rewrite He.
Qed.

(** [_assess_signal_quality] raises exactly on an empty signal; otherwise
    the label and the score go together: "Poor" with 0.3, "Fair" with 0.6,
    "Good" with 0.9. *)
Theorem signal_quality_labels (signal_array : list Q) :
  (raises (_assess_signal_quality signal_array) <-> signal_array = [])
  /\ forall q, _assess_signal_quality signal_array = Ok q ->
       (quality q = "Poor" /\ score q = 0.3)
       \/ (quality q = "Fair" /\ score q = 0.6)
       \/ (quality q = "Good" /\ score q = 0.9).
Proof.
  unfold _assess_signal_quality. destruct signal_array as [| x t].
  - split; [split; [reflexivity | intros _; simpl; eexists; reflexivity] | discriminate].
  - split.
    + split; [| discriminate]. intros [e He]. exfalso. revert He.
      cbn [np_max np_min mbind result_bind].
      destruct (_ || _); [discriminate |]. destruct (_ || _); discriminate.
    + intros q. cbn [np_max np_min mbind result_bind].
      destruct (_ || _); [intros [= <-]; simpl; tauto |].
      destruct (_ || _); intros [= <-]; simpl; tauto.
Qed.

(** *** Bounds kept by rounding *)

Lemma round_half_even_between (lo hi : Z) (x : Q) :
  inject_Z lo <= x -> x <= inject_Z hi ->
  (lo <= round_half_even x <= hi)%Z.
Proof.
  intros Hlo Hhi. unfold round_half_even.
  assert (Hf : (lo <= Qfloor x)%Z).
  { rewrite <- (Qfloor_Z lo). now apply Qfloor_resp_le. }
  assert (Hfl := Qfloor_le x).
  assert (Hc : (Qfloor x <= hi)%Z).
  { rewrite <- (Qfloor_Z hi). now apply Qfloor_resp_le. }
  assert (Hup : x - inject_Z (Qfloor x) > 0 -> (Qfloor x + 1 <= hi)%Z).
  { intros Hpos. assert (Hlt : inject_Z (Qfloor x) < inject_Z hi) by lra.
    rewrite <- Zlt_Qlt in Hlt. lia. }
  destruct (Qcompare (x - inject_Z (Qfloor x)) (1 # 2)) eqn:E.
  - apply Qeq_alt in E. destruct (Z.even (Qfloor x)); [lia |].
    split; [lia |]. apply Hup. lra.
  - lia.
  - apply Qgt_alt in E. split; [lia |]. apply Hup. lra.
Qed.

Lemma py_round_between (lo hi : Z) (x : Q) (ndigits : nat) :
  inject_Z lo <= x -> x <= inject_Z hi ->
  inject_Z lo <= py_round x ndigits <= inject_Z hi.
Proof.
  intros Hlo Hhi. unfold py_round.
  set (s := (10 ^ Z.of_nat ndigits)%Z).
  assert (Hs : (0 < s)%Z) by (apply Z.pow_pos_nonneg; lia).
  assert (Hsq : 0 < inject_Z s) by (change 0 with (inject_Z 0); now rewrite <- Zlt_Qlt).
  destruct (round_half_even_between (lo * s) (hi * s) (x * inject_Z s)) as [H1 H2].
  - rewrite inject_Z_mult. apply Qmult_le_compat_r; lra.
  - rewrite inject_Z_mult. apply Qmult_le_compat_r; lra.
  - rewrite Zle_Qle, inject_Z_mult in H1, H2. split.
    + apply Qle_shift_div_l; assumption.
    + apply Qle_shift_div_r; assumption.
Qed.

Lemma np_count_bounds (l : list bool) : (0 <= np_count l <= Zlen l)%Z.
Proof.
  unfold np_count, Zlen. assert (H := length_filter (fun b : bool => Is_true b) l). lia.
Qed.

(** pNN50 is a percentage: it lies between 0 and 100, rounding included. *)
Theorem pnn50_is_a_percentage (rr_intervals : list Q) :
  0 <= pNN50 (calculate_hrv rr_intervals) <= 100.
Proof.
  unfold calculate_hrv. destruct (length rr_intervals <? 2)%nat; simpl; [split; lra |].
  set (diff_rr := np_diff (map (fun x => x * 1000) rr_intervals)).
  set (flags := map (fun d => Qgtb (Qabs d) 50) diff_rr).
  assert (Hcount := np_count_bounds flags).
  assert (Hlen : Zlen flags = Zlen diff_rr) by (unfold Zlen, flags; now rewrite length_map).
  rewrite Hlen in Hcount. destruct Hcount as [Hc0 Hc1].
  rewrite Zle_Qle in Hc0, Hc1. fold (Qlen diff_rr) in Hc1. change (inject_Z 0) with 0 in Hc0.
  destruct (Nat.ltb_spec 0 (length diff_rr)) as [Hpos | Hz].
  - assert (HQ : 0 < Qlen diff_rr).
    { apply Qlen_pos. intros E. rewrite E in Hpos. simpl in Hpos. lia. }
    set (ratio := inject_Z (np_count flags) / Qlen diff_rr).
    assert (H0 : 0 <= ratio) by (apply Qle_shift_div_l; [exact HQ | lra]).
    assert (H1 : ratio <= 1) by (apply Qle_shift_div_r; [exact HQ | lra]).
    apply (py_round_between 0 100);
      [change (inject_Z 0) with 0 | change (inject_Z 100) with 100]; lra.
  - apply (py_round_between 0 100); [apply Qle_refl | discriminate].
Qed.

(** ** Further facts about the filter and the heart rate *)

Lemma preprocess_keeps_length_aux (ecg_signal : list Q) (sample_rate : Z) (filtered : list Q) :
  preprocess ecg_signal sample_rate = Ok filtered ->
  length filtered = length ecg_signal.
Proof.
  unfold preprocess. intros H.
  apply bind_ok in H as (low & _ & H). apply bind_ok in H as (high & _ & H).
  apply bind_ok in H as ([b a] & _ & H).
  apply filtfilt_length in H. now rewrite length_map in H.
Qed.

(** The filtered signal has the length of the input ([filtfilt] strips the
    padding it adds). *)
Theorem preprocess_keeps_length (ecg_signal : list Q) (sample_rate : Z) (filtered : list Q) :
  preprocess ecg_signal sample_rate = Ok filtered ->
  length filtered = length ecg_signal.
Proof.
  unfold preprocess. intros H.
  apply bind_ok in H as (low & _ & H). apply bind_ok in H as (high & _ & H).
  apply bind_ok in H as ([b a] & _ & H).
  apply filtfilt_length in H. now rewrite length_map in H.
Qed.

(** Removing the mean and band-passing sends a constant signal of integer
    amplitude that the filter accepts to the zero signal: the mean of such a
    signal is exact, so nothing is left for the filter to pass. *)
Theorem preprocess_removes_constant (z : Z) (ecg_signal : list Q) (sample_rate : Z) :
  integer_constant z ecg_signal -> (30 < sample_rate)%Z ->
  filter_fits ecg_signal sample_rate ->
  exists filtered, preprocess ecg_signal sample_rate = Ok filtered /\ all_zero filtered.
Proof.
  intros [Hc _] Hsr Hfit.
  destruct (preprocess_constant (inject_Z z) ecg_signal sample_rate Hc Hsr Hfit)
    as (y & Hy & Hz & _).
  now exists y.
Qed.

(** There is one R-R interval less than there are peaks, and none (with a
    heart rate of 0) below two peaks. *)
Theorem rr_intervals_one_less_than_peaks (r_peaks : list Z) (sample_rate : Z) :
  length (snd (calculate_heart_rate r_peaks sample_rate)) = (length r_peaks - 1)%nat
  /\ ((length r_peaks < 2)%nat -> calculate_heart_rate r_peaks sample_rate = (0, [])).
Proof.
  split; [apply calculate_heart_rate_length | apply calculate_heart_rate_few].
Qed.

Lemma last_cons_default (q : Z) (t : list Z) (p p' : Z) :
  List.last (q :: t) p = List.last (q :: t) p'.
Proof.
  revert q. induction t as [| r t IH]; intros q; [reflexivity |].
  change (List.last (r :: t) p = List.last (r :: t) p'). apply IH.
Qed.

Lemma last_cons_shift (q : Z) (t : list Z) (p : Z) :
  List.last (q :: t) p = List.last t q.
Proof.
  destruct t as [| r t]; [reflexivity |].
  change (List.last (r :: t) p = List.last (r :: t) q). apply last_cons_default.
Qed.

Lemma sum_of_differences (rate : Q) (p : Z) (t : list Z) (acc : Q) :
  fold_left Qplus (map (fun d => inject_Z d / rate) (np_diffZ (p :: t))) acc ==
  acc + (inject_Z (List.last t p) - inject_Z p) / rate.
Proof.
  revert p acc. induction t as [| q t IH]; intros p acc.
  - simpl. unfold Qdiv. ring.
  - change (np_diffZ (p :: q :: t)) with ((q - p)%Z :: np_diffZ (q :: t)).
    cbn [map fold_left]. rewrite IH, last_cons_shift.
    unfold Z.sub. rewrite inject_Z_plus, inject_Z_opp. unfold Qdiv. ring.
Qed.

Lemma sorted_last_above (p : Z) (t : list Z) :
  StronglySorted Z.lt (p :: t) -> t <> [] -> (p < List.last t p)%Z.
Proof.
  intros Hs Hne. apply StronglySorted_inv in Hs as [_ Hall].
  rewrite List.Forall_forall in Hall. apply Hall.
  destruct t as [| q t]; [contradiction |].
  destruct (exists_last (l := q :: t)) as (l' & a & E); [discriminate |].
  rewrite E, last_last. apply in_or_app. right. now left.
Qed.

Lemma sorted_differences_positive (l : list Z) :
  StronglySorted Z.lt l -> Forall (fun d => (0 < d)%Z) (np_diffZ l).
Proof.
  induction 1 as [| p t Hs IH Hall]; [constructor |].
  destruct t as [| q t]; [constructor |].
  change (np_diffZ (p :: q :: t)) with ((q - p)%Z :: np_diffZ (q :: t)).
  constructor; [| exact IH]. inversion Hall; subst. lia.
Qed.

Lemma heart_rate_telescopes (r_peaks : list Z) (sample_rate : Z) :
  (2 <= length r_peaks)%nat -> (0 < sample_rate)%Z -> StronglySorted Z.lt r_peaks ->
  Forall (fun x => 0 < x) (snd (calculate_heart_rate r_peaks sample_rate))
  /\ fst (calculate_heart_rate r_peaks sample_rate) ==
       60 * inject_Z sample_rate * (Qlen r_peaks - 1)
       / inject_Z (List.last r_peaks 0 - hd 0 r_peaks)%Z.
Proof.
  intros Hlen Hrate Hs. unfold calculate_heart_rate.
  destruct (Nat.ltb_spec (length r_peaks) 2); [lia |]. cbn [fst snd].
  assert (Hr : 0 < inject_Z sample_rate)
    by (change 0 with (inject_Z 0); now rewrite <- Zlt_Qlt).
  split.
  - apply List.Forall_forall. intros x Hx. apply in_map_iff in Hx as (d & <- & Hd).
    assert (Hpos := sorted_differences_positive r_peaks Hs).
    rewrite List.Forall_forall in Hpos. specialize (Hpos d Hd).
    apply Qlt_shift_div_l; [exact Hr |].
    assert (0 < inject_Z d) by (change 0 with (inject_Z 0); now rewrite <- Zlt_Qlt). lra.
  - destruct r_peaks as [| p t]; [simpl in Hlen; lia |].
    assert (Hne : t <> []) by (destruct t; [simpl in Hlen; lia | discriminate]).
    assert (Hlast := sorted_last_above p t Hs Hne).
    unfold np_mean, Qsum. rewrite sum_of_differences.
    assert (Hn : Qlen (map (fun d => inject_Z d / inject_Z sample_rate) (np_diffZ (p :: t)))
                 == Qlen (p :: t) - 1).
    { unfold Qlen, Zlen. rewrite length_map, length_np_diffZ.
      cbn [length]. rewrite Nat.sub_succ, Nat.sub_0_r, Nat2Z.inj_succ, <- Z.add_1_r,
        inject_Z_plus. change (inject_Z 1) with 1. ring. }
    rewrite Hn.
    assert (El : List.last (p :: t) 0%Z = List.last t p).
    { apply last_cons_shift. }
    rewrite El. cbn [hd].
    assert (Hspan : 0 < inject_Z (List.last t p) - inject_Z p).
    { rewrite Zlt_Qlt in Hlast. lra. }
    assert (Hcount : 0 < Qlen (p :: t) - 1).
    { rewrite Qlen_cons. assert (H0 := Qlen_pos t Hne). lra. }
    unfold Z.sub. rewrite inject_Z_plus, inject_Z_opp.
    field. repeat split; lra.
Qed.

Lemma expected_rate_positive (r_peaks : list Z) (sample_rate : Z) :
  (2 <= length r_peaks)%nat -> (0 < sample_rate)%Z -> StronglySorted Z.lt r_peaks ->
  0 < 60 * inject_Z sample_rate * (Qlen r_peaks - 1)
      / inject_Z (List.last r_peaks 0 - hd 0 r_peaks)%Z.
Proof.
  intros Hlen Hrate Hs.
  assert (Hr : 0 < inject_Z sample_rate)
    by (change 0 with (inject_Z 0); now rewrite <- Zlt_Qlt).
  destruct r_peaks as [| p t]; [simpl in Hlen; lia |].
  assert (Hne : t <> []) by (destruct t; [simpl in Hlen; lia | discriminate]).
  assert (Hlast := sorted_last_above p t Hs Hne).
  rewrite (last_cons_shift p t 0%Z). cbn [hd].
  assert (Hspan : 0 < inject_Z (List.last t p - p))
    by (change 0 with (inject_Z 0); rewrite <- Zlt_Qlt; lia).
  assert (Hcount : 0 < Qlen (p :: t) - 1).
  { rewrite Qlen_cons. assert (H0 := Qlen_pos t Hne). lra. }
  apply Qlt_shift_div_l; [exact Hspan |]. nra.
Qed.

(** For increasing peaks and a positive sample rate every R-R interval is
    positive and the intervals telescope: the heart rate only depends on
    the first peak, the last peak and the number of peaks.  It is
    60 * rate * (n - 1) / (last - first) up to the rounding of the mean in
    floating point, a relative error far below the 10^-9 stated here. *)
Theorem heart_rate_from_first_and_last (r_peaks : list Z) (sample_rate : Z) :
  (2 <= length r_peaks)%nat -> (0 < sample_rate)%Z -> StronglySorted Z.lt r_peaks ->
  let expected :=
    60 * inject_Z sample_rate * (Qlen r_peaks - 1)
    / inject_Z (List.last r_peaks 0 - hd 0 r_peaks)%Z in
  Forall (fun x => 0 < x) (snd (calculate_heart_rate r_peaks sample_rate))
  /\ 0 < expected
  /\ Qabs (fst (calculate_heart_rate r_peaks sample_rate) - expected)
     <= expected * (1 # 1000000000).
Proof.
  intros Hlen Hrate Hs expected.
  destruct (heart_rate_telescopes r_peaks sample_rate Hlen Hrate Hs) as [Hrr Hhr].
  assert (Hpos := expected_rate_positive r_peaks sample_rate Hlen Hrate Hs).
  fold expected in Hhr, Hpos.
  split; [exact Hrr |]. split; [exact Hpos |].
  rewrite Hhr. assert (E : expected - expected == 0) by ring. rewrite E.
  change (Qabs 0) with 0. nra.
Qed.

(** ** Where the peaks lie *)

Lemma plateau_end_le (fuel : nat) (x : list Q) (xi : Q) (i_max i_ahead : nat) :
  (i_ahead <= i_max)%nat -> (plateau_end fuel x xi i_max i_ahead <= i_max)%nat.
Proof.
  revert i_ahead. induction fuel as [| fuel IH]; intros i_ahead H; simpl; [exact H |].
  destruct (Nat.ltb_spec i_ahead i_max); simpl; [| exact H].
  destruct (Qeq_bool (nth i_ahead x 0) xi); [| exact H].
  apply IH. lia.
Qed.

Lemma local_maxima_loop_inside (fuel : nat) (x : list Q) (i_max i : nat) :
  (1 <= i)%nat ->
  Forall (fun m => (0 < m < i_max)%nat) (local_maxima_loop fuel x i_max i).
Proof.
  revert i. induction fuel as [| fuel IH]; intros i Hi; cbn [local_maxima_loop];
    [constructor |].
  destruct (Nat.ltb_spec i i_max); [| constructor].
  assert (Hge := plateau_end_ge (i_max - i) x (nth i x 0) i_max (i + 1)).
  assert (Hle := plateau_end_le (i_max - i) x (nth i x 0) i_max (i + 1)).
  set (i_ahead := plateau_end (i_max - i) x (nth i x 0) i_max (i + 1)) in *.
  destruct (Qltb (nth (i - 1) x 0) (nth i x 0)); [| apply IH; lia].
  destruct (Qltb (nth i_ahead x 0) (nth i x 0)); [| apply IH; lia].
  destruct (midpoint_bounds i i_ahead Hge) as [Hlo Hhi].
  constructor; [| apply IH; lia].
  assert (i_ahead <= i_max)%nat by (apply Hle; lia). lia.
Qed.

(** Every peak of [find_peaks] is an interior index of the array and
    reaches the height asked for. *)
Lemma find_peaks_inside (x : list Q) (height : Q) (distance : Z) (peaks : list Z) :
  find_peaks x height distance = Ok peaks ->
  Forall (fun p => (0 < p < Zlen x - 1)%Z /\ height <= nth (Z.to_nat p) x 0) peaks.
Proof.
  unfold find_peaks. destruct (distance <? 1)%Z; [discriminate |].
  intros [= <-]. apply List.Forall_forall. intros p Hp.
  apply mask_elem in Hp as (j & Hj & _).
  assert (Hin : p ∈ filter (fun p => Is_true (Qle_bool height (nth (Z.to_nat p) x 0)))
                      (map Z.of_nat (_local_maxima_1d x))).
  { apply list_elem_of_lookup. eauto. }
  apply list_elem_of_filter in Hin as [Hh Hin].
  apply list_elem_of_In, in_map_iff in Hin as (m & <- & Hm).
  split.
  - assert (Hall := local_maxima_loop_inside (length x) x (length x - 1) 1 (le_n 1)).
    rewrite List.Forall_forall in Hall. specialize (Hall m Hm). unfold Zlen. lia.
  - apply Qle_bool_iff. now apply Is_true_true.
Qed.

Lemma np_convolve_same_length (a v r : list Q) :
  np_convolve_same a v = Ok r -> length r = Nat.max (length a) (length v).
Proof.
  intros H.
  assert (Hne : a <> [] /\ v <> []).
  { destruct a; [discriminate |]. destruct v; [discriminate |]. split; discriminate. }
  destruct Hne as [Ha Hv].
  rewrite np_convolve_same_ok in H by assumption. injection H as <-.
  rewrite length_firstn, length_skipn, convolve_full_length by assumption.
  assert (0 < length a)%nat by (destruct a; [contradiction | simpl; lia]).
  assert (0 < length v)%nat by (destruct v; [contradiction | simpl; lia]).
  assert (H2 := Nat.Div0.div_le_upper_bound
                 (Nat.min (length a) (length v) - 1) 2
                 (Nat.min (length a) (length v) - 1)).
  change (Nat.divmod (Nat.min (length a) (length v) - 1) 1 0 1).1
    with ((Nat.min (length a) (length v) - 1) / 2)%nat.
  lia.
Qed.

(** The R-peaks are interior indices of the integrated signal, which is as
    long as the longer of the differentiated signal and the 150 ms window.
    For a signal with more samples than the window they are interior
    indices of the signal itself. *)
Theorem r_peaks_within_integrated_signal (ecg_signal : list Q) (sample_rate : Z)
    (r_peaks : list Z) :
  detect_qrs_pan_tompkins ecg_signal sample_rate = Ok r_peaks ->
  let window_size := py_int (0.15 * inject_Z sample_rate) in
  Forall (fun p => (0 < p < Z.max (Zlen ecg_signal - 1) window_size - 1)%Z) r_peaks
  /\ ((window_size < Zlen ecg_signal)%Z ->
      Forall (fun p => (0 < p < Zlen ecg_signal - 2)%Z) r_peaks).
Proof.
  intros H window_size.
  assert (Hall : Forall (fun p => (0 < p < Z.max (Zlen ecg_signal - 1) window_size - 1)%Z)
                   r_peaks).
  { unfold detect_qrs_pan_tompkins in H.
    apply bind_ok in H as (filtered & Hf & H).
    apply bind_ok in H as (kernel & Hk & H).
    apply bind_ok in H as (integrated & Hi & H).
    apply bind_ok in H as (top & _ & H).
    apply preprocess_keeps_length_aux in Hf.
    apply np_convolve_same_length in Hi.
    rewrite length_map, np_diff_length, Hf in Hi.
    unfold np_ones_over in Hk. fold window_size in Hk.
    destruct (Z.ltb_spec window_size 0); [discriminate |]. injection Hk as <-.
    rewrite repeat_length in Hi.
    apply find_peaks_inside in H.
    eapply List.Forall_impl; [| exact H]. intros p [Hp _]. unfold Zlen in *. lia. }
  split; [exact Hall |]. intros Hw.
  eapply List.Forall_impl; [| exact Hall]. intros p Hp. cbv beta in Hp. lia.
Qed.

(** ** Bounds on the reported heart rate *)

Lemma detect_qrs_spaced (ecg_signal : list Q) (sample_rate : Z) (r_peaks : list Z) :
  detect_qrs_pan_tompkins ecg_signal sample_rate = Ok r_peaks ->
  StronglySorted
    (fun p q => (p < q /\ py_int (0.2 * inject_Z sample_rate) <= q - p)%Z) r_peaks.
Proof.
  unfold detect_qrs_pan_tompkins. intros H.
  apply bind_ok in H as (filtered & _ & H).
  apply bind_ok in H as (kernel & _ & H).
  apply bind_ok in H as (integrated & _ & H).
  apply bind_ok in H as (top & _ & H).
  now apply find_peaks_spaced in H.
Qed.

Lemma spaced_span (d p : Z) (t : list Z) :
  StronglySorted (fun p q => (p < q /\ d <= q - p)%Z) (p :: t) ->
  (Zlen t * d <= List.last t p - p)%Z.
Proof.
  revert p. induction t as [| q t IH]; intros p Hs; [unfold Zlen; simpl; lia |].
  apply StronglySorted_inv in Hs as [Hs Hall].
  rewrite last_cons_shift. specialize (IH q Hs).
  inversion Hall as [| ? ? [_ Hd] _]; subst.
  unfold Zlen in *. cbn [length]. rewrite Nat2Z.inj_succ. lia.
Qed.

Lemma distance_of_multiple_of_5 (sample_rate : Z) :
  (0 <= sample_rate)%Z -> (sample_rate mod 5 = 0)%Z ->
  (5 * py_int (0.2 * inject_Z sample_rate) = sample_rate)%Z.
Proof.
  intros Hpos Hmod.
  assert (Hk : sample_rate = (5 * (sample_rate / 5))%Z).
  { rewrite (Z.div_mod sample_rate 5) at 1 by lia. lia. }
  assert (E : 0.2 * inject_Z sample_rate == inject_Z (sample_rate / 5)).
  { rewrite Hk at 1. rewrite inject_Z_mult. change (inject_Z 5) with 5. field. }
  rewrite py_int_nonneg.
  - rewrite (Qfloor_comp _ _ E), Qfloor_Z. lia.
  - rewrite E. change 0 with (inject_Z 0). rewrite <- Zle_Qle. apply Z.div_pos; lia.
Qed.

(** The heart rate before rounding, for peaks found by the detector at a
    sample rate that is a multiple of 5. *)
Lemma heart_rate_bounded (ecg_signal : list Q) (sample_rate : Z) (r_peaks : list Z) :
  detect_qrs_pan_tompkins ecg_signal sample_rate = Ok r_peaks ->
  (sample_rate mod 5 = 0)%Z ->
  0 <= fst (calculate_heart_rate r_peaks sample_rate) <= 300.
Proof.
  intros H Hmod.
  assert (Hrate := detect_qrs_rate _ _ _ H).
  assert (Hsp := detect_qrs_spaced _ _ _ H).
  destruct (Nat.lt_ge_cases (length r_peaks) 2) as [Hfew | Hmany].
  { rewrite calculate_heart_rate_few by exact Hfew. simpl. split; lra. }
  assert (Hs : StronglySorted Z.lt r_peaks).
  { eapply StronglySorted_weaken; [| exact Hsp]. simpl. tauto. }
  assert (Hpos : (0 < sample_rate)%Z) by lia.
  destruct (heart_rate_telescopes r_peaks sample_rate Hmany Hpos Hs) as [_ Hhr].
  rewrite Hhr. clear Hhr.
  assert (Hd := distance_of_multiple_of_5 sample_rate (Z.lt_le_incl _ _ Hpos) Hmod).
  set (d := py_int (0.2 * inject_Z sample_rate)) in *.
  destruct r_peaks as [| p t]; [simpl in Hmany; lia |].
  assert (Hspan := spaced_span d p t Hsp).
  assert (Hne : t <> []) by (destruct t; [simpl in Hmany; lia | discriminate]).
  assert (Hlast := sorted_last_above p t Hs Hne).
  rewrite last_cons_shift. cbn [hd].
  assert (Hn : Qlen (p :: t) - 1 == inject_Z (Zlen t)) by (rewrite Qlen_cons; unfold Qlen; ring).
  rewrite Hn.
  assert (Hcount : (1 <= Zlen t)%Z).
  { unfold Zlen. destruct t; [contradiction | simpl length; lia]. }
  set (L := (List.last t p - p)%Z) in *.
  assert (HL : 0 < inject_Z L) by (change 0 with (inject_Z 0); rewrite <- Zlt_Qlt; lia).
  assert (Enum : 60 * inject_Z sample_rate * inject_Z (Zlen t)
                 == inject_Z (60 * sample_rate * Zlen t)).
  { rewrite !inject_Z_mult. reflexivity. }
  rewrite Enum. split.
  - apply Qle_shift_div_l; [exact HL |].
    rewrite Qmult_0_l. change 0 with (inject_Z 0). rewrite <- Zle_Qle. nia.
  - apply Qle_shift_div_r; [exact HL |].
    change 300 with (inject_Z 300). rewrite <- inject_Z_mult, <- Zle_Qle. nia.
Qed.

(** At a sample rate that is a multiple of 5 (such as the default 250 Hz)
    the heart rate reported by [analyze] lies between 0 and 300 BPM: the
    refractory distance of 0.2 s caps it. *)
Theorem heart_rate_at_most_300 (ecg_signal : list Q) (sample_rate : Z) :
  (sample_rate mod 5 = 0)%Z ->
  0 <= heartRate (details (analyze ecg_signal sample_rate)) <= 300.
Proof.
  intros Hmod. unfold analyze.
  destruct (analyze_try ecg_signal sample_rate) as [r | e] eqn:E; [| simpl; split; lra].
  apply analyze_try_ok in E as (sq & peaks & rng & _ & Hp & ->). simpl.
  destruct (heart_rate_bounded ecg_signal sample_rate peaks Hp Hmod) as [Hlo Hhi].
  apply (py_round_between 0 300); assumption.
Qed.

(** *** The heart-rate range brackets the heart rate *)


















(** ** The label, the risk level and the advice *)

Lemma detect_arrhythmias_last_risk (heart_rate : Q) (rr_intervals : list Q) :
  (length rr_intervals <? 2)%nat = false ->
  snd (detect_arrhythmias heart_rate rr_intervals) = last_assigned_risk heart_rate rr_intervals.
Proof.
  intros H. unfold detect_arrhythmias, last_assigned_risk. rewrite H.
  cbv zeta. cbn [snd]. set (cv := cv_of rr_intervals).
  set (s2 := rule_rate heart_rate cv initial_state).
  set (s3 := rule_afib cv rr_intervals s2).
  set (s4 := rule_pvc rr_intervals (np_mean rr_intervals) (np_std rr_intervals) s3).
  rewrite rule_normal_summary.
  destruct (rule_pvc_summary rr_intervals s3) as [R4 L4]. fold s4 in R4, L4.
  destruct (rule_afib_summary cv rr_intervals s2) as [R3 L3]. fold s3 in R3, L3.
  destruct (rule_rate_summary heart_rate cv initial_state) as [R2 L2]. fold s2 in R2, L2.
  rewrite R4, R3, R2, L4, L3, L2. simpl.
  destruct (pvc_fires rr_intervals), (Qgtb cv 20), (afib_test rr_intervals),
    (Qltb heart_rate 60), (Qltb heart_rate 40), (Qgtb heart_rate 100),
    (Qgtb heart_rate 150); reflexivity.
Qed.

Lemma detect_arrhythmias_pairs (heart_rate : Q) (rr_intervals : list Q) :
  In (fst (fst (detect_arrhythmias heart_rate rr_intervals)),
      snd (detect_arrhythmias heart_rate rr_intervals)) label_risk_pairs.
Proof.
  rewrite detect_arrhythmias_label.
  destruct (length rr_intervals <? 2)%nat eqn:Elen.
  - unfold final_label, detect_arrhythmias. rewrite Elen. simpl. tauto.
  - rewrite (detect_arrhythmias_last_risk _ _ Elen).
    unfold final_label, last_assigned_risk, label_risk_pairs. rewrite Elen. cbv zeta.
    destruct (pvc_fires rr_intervals), (Qgtb (cv_of rr_intervals) 20),
      (afib_test rr_intervals);
      (destruct (Qltb heart_rate 60);
         [ destruct (Qltb heart_rate 40)
         | destruct (Qgtb heart_rate 100);
           [ destruct (Qgtb heart_rate 150);
             [ destruct (Qgtb (cv_of rr_intervals) 15) | ] | ] ]);
      cbn [orb andb]; repeat (first [left; reflexivity | right]).
Qed.

(** The risk level that goes with each label: "Unknown" exactly with
    "Insufficient Data", "Low" exactly with "Normal Sinus Rhythm", always
    "Medium" with "Sinus Arrhythmia" and "Premature Ventricular
    Contractions", and "High" or "Medium" with the four other labels. *)
Theorem risk_level_by_label (heart_rate : Q) (rr_intervals : list Q) :
  let label := fst (fst (detect_arrhythmias heart_rate rr_intervals)) in
  let risk := snd (detect_arrhythmias heart_rate rr_intervals) in
  (label = "Insufficient Data" <-> risk = "Unknown")
  /\ (label = "Normal Sinus Rhythm" <-> risk = "Low")
  /\ (label = "Sinus Arrhythmia" \/ label = "Premature Ventricular Contractions" ->
      risk = "Medium")
  /\ (risk = "High" ->
      label = "Atrial Fibrillation (Suspected)" \/ label = "Sinus Bradycardia"
      \/ label = "Ventricular Tachycardia (Suspected)" \/ label = "Sinus Tachycardia").
Proof.
  cbv zeta. assert (H := detect_arrhythmias_pairs heart_rate rr_intervals).
  revert H.
  generalize (fst (fst (detect_arrhythmias heart_rate rr_intervals))) as label.
  generalize (snd (detect_arrhythmias heart_rate rr_intervals)) as risk.
  intros risk label H. unfold label_risk_pairs in H. simpl in H.
  repeat (destruct H as [H | H]; [injection H as <- <- |]); try contradiction;
    (split; [split; intros E; (reflexivity || discriminate E) |]);
    (split; [split; intros E; (reflexivity || discriminate E) |]);
    (split; [intros [E | E]; (reflexivity || discriminate E) |]);
    intros E; try discriminate E; tauto.
Qed.

(** The advice attached to a regular record of [analyze]: the three lines
    for a normal rhythm with "Normal Sinus Rhythm"; none at all with
    "Insufficient Data", "Sinus Arrhythmia" and "Premature Ventricular
    Contractions"; the line that sends to a cardiologist exactly when the
    risk level is "High"; and never more than five lines. *)
Theorem recommendations_by_label (ecg_signal : list Q) (sample_rate : Z)
    (r : AnalysisResult) :
  analyze_try ecg_signal sample_rate = Ok r ->
  exists advice,
    recommendations r = Some advice
    /\ (classification r = "Normal Sinus Rhythm" ->
        advice = ["✅ Heart rhythm is normal";
                  "🏃 Continue regular exercise and healthy diet";
                  "📊 Monitor periodically for baseline comparison"])
    /\ (classification r = "Insufficient Data" \/ classification r = "Sinus Arrhythmia"
        \/ classification r = "Premature Ventricular Contractions" -> advice = [])
    /\ (In "⚠️ IMPORTANT: Consult a cardiologist as soon as possible" advice
        <-> risk_level r = "High")
    /\ (length advice <= 5)%nat.
Proof.
  intros H. apply analyze_try_ok in H as (sq & peaks & rng & _ & _ & ->).
  cbn [recommendations classification risk_level].
  eexists; split; [reflexivity |].
  set (hr := fst (calculate_heart_rate peaks sample_rate)).
  assert (H := detect_arrhythmias_pairs hr (snd (calculate_heart_rate peaks sample_rate))).
  revert H.
  generalize (fst (fst (detect_arrhythmias hr
                          (snd (calculate_heart_rate peaks sample_rate))))) as label.
  generalize (snd (detect_arrhythmias hr
                     (snd (calculate_heart_rate peaks sample_rate)))) as risk.
  intros risk label H. unfold label_risk_pairs in H. simpl in H.
  repeat (destruct H as [H | H]; [injection H as <- <- |]); try contradiction;
    (split; [intros E; (reflexivity || discriminate E) |]);
    (split; [intros [E | [E | E]]; (reflexivity || discriminate E) |]);
    (split; [| simpl; lia]);
    (split; intros E;
       [ first [reflexivity | exfalso; simpl in E; intuition discriminate]
       | first [discriminate E | simpl; left; reflexivity] ]).
Qed.

(** ** The rhythm label and the classification *)

Lemma final_label_irregular (heart_rate : Q) (rr_intervals : list Q) :
  final_label heart_rate rr_intervals = "Atrial Fibrillation (Suspected)"
  \/ final_label heart_rate rr_intervals = "Sinus Arrhythmia"
  \/ final_label heart_rate rr_intervals = "Ventricular Tachycardia (Suspected)" ->
  (length rr_intervals <? 2)%nat = false /\ 15 < cv_of rr_intervals.
Proof.
  unfold final_label. cbv zeta.
  destruct (length rr_intervals <? 2)%nat; [intros [E | [E | E]]; discriminate E |].
  destruct (Qgtb (cv_of rr_intervals) 20) eqn:E20.
  - intros _. split; [reflexivity |]. apply Qltb_lt in E20. lra.
  - cbn [andb].
    destruct (Qltb heart_rate 60); [intros [E | [E | E]]; discriminate E |].
    destruct (Qgtb heart_rate 100).
    + destruct (Qgtb heart_rate 150); cbn [andb];
        [| intros [E | [E | E]]; discriminate E].
      destruct (Qgtb (cv_of rr_intervals) 15) eqn:E15;
        [| intros [E | [E | E]]; discriminate E].
      intros _. split; [reflexivity |]. now apply Qltb_lt in E15.
    + destruct (pvc_fires rr_intervals); intros [E | [E | E]]; discriminate E.
Qed.

Lemma rhythm_of_irregular (rr_intervals : list Q) :
  (length rr_intervals <? 2)%nat = false -> 15 < cv_of rr_intervals ->
  rhythm_of rr_intervals = "Irregular".
Proof.
  intros Hl Hcv. unfold rhythm_of, cv_of in *. cbv zeta in *.
  apply Nat.ltb_ge in Hl.
  destruct (Nat.ltb_spec 0 (length rr_intervals)); [| lia].
  destruct (Qgtb (np_mean rr_intervals) 0).
  - destruct (Qltb _ 10) eqn:E; [| reflexivity]. apply Qltb_lt in E. lra.
  - lra.
Qed.

Lemma rhythm_of_unknown (rr_intervals : list Q) :
  rhythm_of rr_intervals = "Unknown" -> rr_intervals = [].
Proof.
  unfold rhythm_of. cbv zeta. destruct rr_intervals as [| x t]; [reflexivity |].
  cbn [length Nat.ltb Nat.leb]. destruct (Qltb _ 10); discriminate.
Qed.

(** The rhythm label of a regular record is "Regular", "Irregular" or
    "Unknown", and it agrees with the classification: "Atrial Fibrillation
    (Suspected)", "Sinus Arrhythmia" and "Ventricular Tachycardia
    (Suspected)" always come with the rhythm "Irregular", and the rhythm
    "Unknown" only with "Insufficient Data" and at most one R-peak. *)
Theorem rhythm_agrees_with_label (ecg_signal : list Q) (sample_rate : Z)
    (r : AnalysisResult) :
  analyze_try ecg_signal sample_rate = Ok r ->
  In (rhythm (details r)) ["Regular"; "Irregular"; "Unknown"]
  /\ (classification r = "Atrial Fibrillation (Suspected)"
      \/ classification r = "Sinus Arrhythmia"
      \/ classification r = "Ventricular Tachycardia (Suspected)" ->
      rhythm (details r) = "Irregular")
  /\ (rhythm (details r) = "Unknown" ->
      classification r = "Insufficient Data"
      /\ exists n, qrsCount (details r) = Some n /\ (n <= 1)%Z).
Proof.
  intros H. apply analyze_try_ok in H as (sq & peaks & rng & _ & _ & ->).
  cbn [details rhythm classification qrsCount].
  set (hr := fst (calculate_heart_rate peaks sample_rate)).
  set (rr := snd (calculate_heart_rate peaks sample_rate)).
  split; [| split].
  - unfold rhythm_of. cbv zeta.
    destruct (0 <? length rr)%nat; [destruct (Qltb _ 10) |]; simpl; tauto.
  - rewrite detect_arrhythmias_label. intros E.
    destruct (final_label_irregular hr rr E) as [Hl Hcv].
    now apply rhythm_of_irregular.
  - intros E. apply rhythm_of_unknown in E.
    split; [unfold detect_arrhythmias; now rewrite E |].
    exists (Zlen peaks). split; [reflexivity |].
    assert (Hl := calculate_heart_rate_length peaks sample_rate).
    fold rr in Hl. rewrite E in Hl. simpl in Hl. unfold Zlen. lia.
Qed.

(** ** The list of findings *)

Lemma rule_rate_findings heart_rate cv st :
  Forall known_severity (st_abnormalities st) ->
  Forall known_severity (st_abnormalities (rule_rate heart_rate cv st)).
Proof.
  intros H. unfold rule_rate.
  destruct (Qltb heart_rate 60);
    [ destruct (Qltb heart_rate 40)
    | destruct (Qgtb heart_rate 100);
      [ destruct (Qgtb heart_rate 150); [ destruct (Qgtb cv 15) | ] | ] ];
    simpl; try assumption;
    (apply Forall_app; split; [assumption |]);
    (constructor; [| constructor]); unfold known_severity; cbn [severity In];
    repeat (first [left; reflexivity | right]).
Qed.

Lemma rule_afib_findings cv rr st :
  Forall known_severity (st_abnormalities st) ->
  Forall known_severity (st_abnormalities (rule_afib cv rr st)).
Proof.
  intros H. unfold rule_afib.
  destruct (Qgtb cv 20); [destruct (afib_test rr) |]; simpl; try assumption;
    (apply Forall_app; split; [assumption |]);
    (constructor; [| constructor]); unfold known_severity; cbn [severity In];
    repeat (first [left; reflexivity | right]).
Qed.

Lemma rule_pvc_findings rr rr_mean rr_std st :
  Forall known_severity (st_abnormalities st) ->
  Forall known_severity (st_abnormalities (rule_pvc rr rr_mean rr_std st)).
Proof.
  intros H. unfold rule_pvc.
  destruct (3 <? length rr)%nat;
    [ destruct (0 <? pvc_count _ _ _)%Z; [ destruct (Qgtb (pvc_percentage _ _ _) 10) | ] | ];
    simpl; try assumption;
    (apply Forall_app; split; [assumption |]);
    (constructor; [| constructor]); unfold known_severity; cbn [severity In];
    repeat (first [left; reflexivity | right]).
Qed.

Lemma rule_normal_findings heart_rate st :
  Forall known_severity (st_abnormalities st) ->
  Forall known_severity (st_abnormalities (rule_normal heart_rate st))
  /\ length (st_abnormalities (rule_normal heart_rate st)) =
       (if (length (st_abnormalities st) =? 0)%nat then 1
        else length (st_abnormalities st))%nat.
Proof.
  intros H. unfold rule_normal.
  destruct (Nat.eqb_spec (length (st_abnormalities st)) 0) as [E | E]; simpl.
  - rewrite length_app, E. split; [| reflexivity].
    apply Forall_app; split; [assumption |].
    (constructor; [| constructor]); unfold known_severity; cbn [severity In];
    repeat (first [left; reflexivity | right]).
  - now split.
Qed.

(** The findings returned by [detect_arrhythmias]: none with fewer than two
    intervals; otherwise at least one and at most three (one per block, and
    the "Normal" entry when no block found anything); each finding has one
    of the severities "None", "Medium", "High", "Critical". *)
Theorem findings_count_and_severity (heart_rate : Q) (rr_intervals : list Q) :
  let found := snd (fst (detect_arrhythmias heart_rate rr_intervals)) in
  ((length rr_intervals < 2)%nat -> found = [])
  /\ ((2 <= length rr_intervals)%nat -> (1 <= length found <= 3)%nat)
  /\ Forall known_severity found.
Proof.
  cbv zeta. unfold detect_arrhythmias.
  destruct (Nat.ltb_spec (length rr_intervals) 2) as [Hl | Hl].
  - simpl. split; [reflexivity |]. split; [lia | constructor].
  - cbv zeta. cbn [fst snd]. set (cv := cv_of rr_intervals).
    set (s2 := rule_rate heart_rate cv initial_state).
    set (s3 := rule_afib cv rr_intervals s2).
    set (s4 := rule_pvc rr_intervals (np_mean rr_intervals) (np_std rr_intervals) s3).
    assert (F2 : Forall known_severity (st_abnormalities s2))
      by (apply rule_rate_findings; constructor).
    assert (F3 : Forall known_severity (st_abnormalities s3))
      by now apply rule_afib_findings.
    assert (F4 : Forall known_severity (st_abnormalities s4))
      by now apply rule_pvc_findings.
    destruct (rule_normal_findings heart_rate s4 F4) as [F5 L5].
    destruct (rule_pvc_summary rr_intervals s3) as [_ L4]. fold s4 in L4.
    destruct (rule_afib_summary cv rr_intervals s2) as [_ L3]. fold s3 in L3.
    destruct (rule_rate_summary heart_rate cv initial_state) as [_ L2]. fold s2 in L2.
    split; [lia |]. split; [| exact F5]. intros _.
    rewrite L5, L4, L3, L2. simpl.
    destruct (pvc_fires rr_intervals), (Qgtb cv 20),
      (Qltb heart_rate 60 || Qgtb heart_rate 100); simpl; lia.
Qed.

(** ** Signals of small amplitude *)

Lemma np_max_within (lo hi : Q) (l : list Q) (m : Q) :
  within lo hi l -> np_max l = Ok m -> lo <= m <= hi.
Proof.
  intros H. destruct H as [| x t Hx Hl]; simpl; [discriminate |].
  intros [= <-]. apply (fold_left_pick (fun v => lo <= v <= hi)); auto.
  intros u v Hu Hv. unfold Qmaxb. now destruct (Qltb u v).
Qed.

Lemma np_min_within (lo hi : Q) (l : list Q) (m : Q) :
  within lo hi l -> np_min l = Ok m -> lo <= m <= hi.
Proof.
  intros H. destruct H as [| x t Hx Hl]; simpl; [discriminate |].
  intros [= <-]. apply (fold_left_pick (fun v => lo <= v <= hi)); auto.
  intros u v Hu Hv. unfold Qminb. now destruct (Qltb v u).
Qed.

Lemma assess_narrow (lo hi : Q) (signal_array : list Q) (signal_quality : SignalQuality) :
  within lo hi signal_array -> hi - lo <= 49 ->
  _assess_signal_quality signal_array = Ok signal_quality ->
  quality signal_quality = "Poor" /\ score signal_quality = 0.3.
Proof.
  intros Hw Hn H. unfold _assess_signal_quality in H. cbv zeta in H.
  apply bind_ok in H as (top & Htop & H). apply bind_ok in H as (bottom & Hbottom & H).
  apply (np_max_within lo hi) in Htop; [| exact Hw].
  apply (np_min_within lo hi) in Hbottom; [| exact Hw].
  assert (Hr : Qltb (top - bottom) 50 = true) by (apply Qltb_lt; lra).
  rewrite Hr, orb_true_r in H. injection H as <-. now split.
Qed.

(** A signal whose samples span at most 49 units (an ECG given in
    millivolts, say), safely below the threshold of 50, is always of quality
    "Poor" with score 0.3, whatever its shape, and the confidence of its
    analysis is 0.5 however many R-peaks were found. *)
Theorem narrow_signal_is_poor (lo hi : Q) (ecg_signal : list Q) (sample_rate : Z)
    (r : AnalysisResult) :
  within lo hi ecg_signal -> hi - lo <= 49 ->
  analyze_try ecg_signal sample_rate = Ok r ->
  (exists signal_quality,
     signalQuality (details r) = Some signal_quality
     /\ quality signal_quality = "Poor" /\ score signal_quality = 0.3)
  /\ confidence r == 0.5.
Proof.
  intros Hw Hn H. apply analyze_try_ok in H as (sq & peaks & rng & Hsq & _ & ->).
  destruct (assess_narrow lo hi ecg_signal sq Hw Hn Hsq) as [Hq Hs].
  cbn [details signalQuality confidence]. split.
  - exists sq. now repeat split.
  - unfold confidence_of. rewrite Hq. cbn [String.eqb Ascii.eqb Bool.eqb andb].
    rewrite (py_round_exact 0.50 3 500); reflexivity.
Qed.

(** ** The handlers of the service *)

Lemma voltages_of_done (ecg_data : list Point) (voltages : list Q) :
  voltages_of ecg_data = Done voltages <-> map voltage_mv ecg_data = map Some voltages.
Proof.
  revert voltages. induction ecg_data as [| point rest IH]; intros voltages.
  - simpl. split.
    + intros [= <-]. reflexivity.
    + destruct voltages; [reflexivity | discriminate].
  - cbn [voltages_of map]. destruct (voltage_mv point) as [v |]; cbn [getitem mbind attempt_bind].
    + destruct (voltages_of rest) as [vs | e] eqn:E.
      * split.
        -- intros [= <-]. simpl. f_equal. now apply IH.
        -- destruct voltages as [| w ws]; [discriminate |]. simpl. intros [= -> Hws].
           apply IH in Hws. now injection Hws as ->.
      * split; [discriminate |].
        destruct voltages as [| w ws]; [discriminate |]. simpl. intros [= -> Hws].
        apply IH in Hws. discriminate Hws.
    + split; [discriminate |]. destruct voltages; discriminate.
Qed.

Lemma voltages_of_failed (ecg_data : list Point) (e : handler_exn) :
  voltages_of ecg_data = Failed e ->
  e = KeyError "voltage_mv" /\ Exists (fun point => voltage_mv point = None) ecg_data.
Proof.
  induction ecg_data as [| point rest IH]; [discriminate |].
  cbn [voltages_of]. destruct (voltage_mv point) as [v |] eqn:Ev;
    cbn [getitem mbind attempt_bind].
  - destruct (voltages_of rest) as [vs | e'] eqn:E; [discriminate |].
    intros [= <-]. destruct (IH eq_refl) as [-> Hx]. split; [reflexivity |].
    now apply Exists_cons_tl.
  - intros [= <-]. split; [reflexivity |]. now apply Exists_cons_hd.
Qed.

Lemma voltages_of_runs (ecg_data : list Point) :
  Forall has_voltage ecg_data <-> exists voltages, voltages_of ecg_data = Done voltages.
Proof.
  split.
  - intros H. destruct (voltages_of ecg_data) as [vs | e] eqn:E; [now exists vs |].
    apply voltages_of_failed in E as [_ Hx]. exfalso.
    apply Exists_exists in Hx as (point & Hin & Hnone).
    rewrite Forall_forall in H. exact (H point Hin Hnone).
  - intros [vs Hvs]. apply voltages_of_done in Hvs.
    revert vs Hvs. induction ecg_data as [| point rest IH]; intros vs Hvs; [constructor |].
    destruct vs as [| v vs]; [discriminate |]. simpl in Hvs. injection Hvs as Hp Hrest.
    constructor; [unfold has_voltage; now rewrite Hp | now apply (IH vs)].
Qed.

(** The status codes of [analyze_ecg]: 400 exactly when there is no body or
    no [ecgData]; 500, with the message ['voltage_mv'], exactly when some
    point of [ecgData] carries no voltage; otherwise 200 with the record of
    [analyze] on the voltages in order, the session identifier (or
    "unknown") and the time stamp. *)
Theorem analyze_ecg_status (now : string) (data : option Session) :
  let response := analyze_ecg now data in
  (snd response = 400%Z <->
     data = None \/ exists session, data = Some session /\ ecgData session = None)
  /\ (snd response = 400%Z -> fst response = ErrorBody "Missing ecgData in request")
  /\ (snd response = 500%Z <->
        exists session ecg_data,
          data = Some session /\ ecgData session = Some ecg_data
          /\ Exists (fun point => voltage_mv point = None) ecg_data)
  /\ (snd response = 500%Z -> fst response = ErrorBody "'voltage_mv'")
  /\ (snd response <> 400%Z -> snd response <> 500%Z ->
      snd response = 200%Z
      /\ exists session ecg_data voltages,
           data = Some session /\ ecgData session = Some ecg_data
           /\ map voltage_mv ecg_data = map Some voltages
           /\ fst response = ResultBody (reply_for session voltages (Some now))).
Proof.
  cbv zeta. unfold analyze_ecg.
  destruct data as [session |]; cbn [mret attempt_ret fst snd].
  2: { split; [| split; [| split; [| split]]].
       - split; [intros _; now left | reflexivity].
       - reflexivity.
       - split; [discriminate |]. intros (session & ecg_data & E & _). discriminate E.
       - discriminate.
       - intros H. now contradiction H. }
  destruct (ecgData session) as [ecg_data |] eqn:Edata; cbn [mret attempt_ret fst snd].
  2: { split; [| split; [| split; [| split]]].
       - split; [intros _; right; now exists session | reflexivity].
       - reflexivity.
       - split; [discriminate |].
         intros (s' & ecg_data & [= <-] & E & _). rewrite Edata in E. discriminate E.
       - discriminate.
       - intros H. now contradiction H. }
  destruct (voltages_of ecg_data) as [voltages | e] eqn:Ev;
    cbn [mbind attempt_bind mret attempt_ret fst snd].
  - assert (Hmap := proj1 (voltages_of_done _ _) Ev).
    split; [| split; [| split; [| split]]].
    + split; [discriminate |].
      intros [E | (s' & [= <-] & E)]; [discriminate E |].
      rewrite Edata in E. discriminate E.
    + discriminate.
    + split; [discriminate |].
      intros (s' & pts & [= <-] & E & Hx). rewrite Edata in E. injection E as <-.
      exfalso. apply Exists_exists in Hx as (point & Hin & Hnone).
      assert (Hall : Forall has_voltage ecg_data) by (apply voltages_of_runs; eauto).
      rewrite Forall_forall in Hall. exact (Hall point Hin Hnone).
    + discriminate.
    + intros _ _. split; [reflexivity |].
      exists session, ecg_data, voltages. now repeat split.
  - apply voltages_of_failed in Ev as [-> Hx].
    split; [| split; [| split; [| split]]].
    + split; [discriminate |].
      intros [E | (s' & [= <-] & E)]; [discriminate E |].
      rewrite Edata in E. discriminate E.
    + discriminate.
    + split; [| reflexivity]. intros _. now exists session, ecg_data.
    + reflexivity.
    + intros _ H. now contradiction H.
Qed.

(** A failure inside the analysis is not an HTTP error: for an empty
    [ecgData] list, and for a sample rate of at most 30 Hz, [analyze_ecg]
    answers 200 with the "Analysis Error" record. *)
Theorem analysis_error_served_as_success (now : string) (session : Session)
    (ecg_data : list Point) :
  ecgData session = Some ecg_data -> Forall has_voltage ecg_data ->
  ecg_data = [] \/ (get_or (sampleRate session) 250 <= 30)%Z ->
  exists e,
    analyze_ecg now (Some session) =
      (ResultBody (mkReply (error_record e) (get_or (sessionId session) "unknown")
                     (Some now)), 200%Z).
Proof.
  intros Hdata Hall Hbad. unfold analyze_ecg. rewrite Hdata.
  apply voltages_of_runs in Hall as [voltages Hv]. rewrite Hv.
  cbn [mbind attempt_bind mret attempt_ret].
  assert (Hr : raises (analyze_try voltages (get_or (sampleRate session) 250%Z))).
  { apply analyze_try_raises. destruct Hbad as [-> | Hrate].
    - left. simpl in Hv. now injection Hv as <-.
    - right. apply preprocess_raises. now left. }
  destruct Hr as [e He]. exists e. unfold analyze. now rewrite He.
Qed.

Lemma batch_loop_done (todo : list Session) (results final : list Reply) :
  batch_loop todo results = Done final ->
  exists replies, final = (results ++ replies)%list /\ Forall2 served todo replies.
Proof.
  revert results. induction todo as [| session rest IH]; intros results.
  - simpl. intros [= <-]. exists []. split; [now rewrite app_nil_r | constructor].
  - cbn [batch_loop]. destruct (ecgData session) as [ecg_data |] eqn:Edata;
      cbn [getitem mbind attempt_bind]; [| discriminate].
    destruct (voltages_of ecg_data) as [voltages | e] eqn:Ev; [| discriminate].
    intros H. apply IH in H as (replies & -> & Hrest).
    exists (reply_for session voltages None :: replies). split.
    + now rewrite <- app_assoc.
    + constructor; [| exact Hrest].
      exists ecg_data, voltages. split; [exact Edata |].
      split; [now apply voltages_of_done | reflexivity].
Qed.

Lemma batch_loop_runs (todo : list Session) (results : list Reply) :
  Forall well_formed todo <-> exists final, batch_loop todo results = Done final.
Proof.
  revert results. induction todo as [| session rest IH]; intros results.
  - split; [intros _; now exists results | constructor].
  - cbn [batch_loop]. split.
    + intros H. apply Forall_cons in H as [(ecg_data & Edata & Hall) Hrest].
      rewrite Edata. cbn [getitem mbind attempt_bind].
      apply voltages_of_runs in Hall as [voltages ->]. now apply IH.
    + intros [final H].
      destruct (ecgData session) as [ecg_data |] eqn:Edata;
        cbn [getitem mbind attempt_bind] in H; [| discriminate H].
      destruct (voltages_of ecg_data) as [voltages | e] eqn:Ev; [| discriminate H].
      cbn [mbind attempt_bind] in H. constructor.
      * exists ecg_data. split; [exact Edata |]. apply voltages_of_runs. eauto.
      * apply (IH (results ++ [mkReply (analyze voltages (get_or (sampleRate session) 250%Z))
                                 (get_or (sessionId session) "unknown") None])%list).
        eauto.
Qed.

(** [batch_analyze] is all or nothing: it answers 200 exactly when there is
    a body and every session is well formed (it has its [ecgData], and every
    point carries a voltage), with one reply per session and [count] their
    number; a single missing key anywhere turns the whole batch into a 500
    with an error message and no result. *)
Theorem batch_all_or_nothing (now : string) (data : option Batch) :
  let response := batch_analyze now data in
  (snd response = 200%Z \/ snd response = 500%Z)
  /\ (snd response = 200%Z <->
        exists batch, data = Some batch /\ Forall well_formed (get_or (sessions batch) []))
  /\ (snd response = 200%Z ->
        exists batch results,
          data = Some batch
          /\ fst response = BatchBody results (Zlen (get_or (sessions batch) [])) now
          /\ Forall2 served (get_or (sessions batch) []) results)
  /\ (snd response = 500%Z -> exists message, fst response = ErrorBody message).
Proof.
  cbv zeta. unfold batch_analyze. destruct data as [batch |].
  2: { cbn [fst snd]. split; [now right |]. split; [| split].
       - split; [discriminate |]. intros (batch & E & _). discriminate E.
       - discriminate.
       - intros _. eauto. }
  destruct (batch_loop (get_or (sessions batch) []) []) as [results | e] eqn:E;
    cbn [mbind attempt_bind mret attempt_ret fst snd].
  - assert (Hall : Forall well_formed (get_or (sessions batch) []))
      by (apply (batch_loop_runs _ []); eauto).
    apply batch_loop_done in E as (replies & -> & Hserved). cbn [app].
    split; [now left |]. split; [| split].
    + split; [| reflexivity]. intros _. exists batch. now split.
    + intros _. exists batch, replies. split; [reflexivity |]. split; [| exact Hserved].
      unfold Zlen. now rewrite (Forall2_length _ _ _ Hserved).
    + discriminate.
  - split; [now right |]. split; [| split].
    + split; [discriminate |].
      intros (b & [= <-] & Hall). apply (batch_loop_runs _ []) in Hall as [final Hf].
      rewrite Hf in E. discriminate E.
    + discriminate.
    + intros _. eauto.
Qed.

(** The two handlers agree: whenever [batch_analyze] answers 200, its reply
    for each session is the one that [analyze_ecg] gives for that session
    alone, which then answers 200 as well, up to the time stamp that only
    [analyze_ecg] adds. *)
Theorem batch_agrees_with_single (now later : string) (batch : Batch)
    (results : list Reply) (count : Z) (stamp : string) :
  batch_analyze now (Some batch) = (BatchBody results count stamp, 200%Z) ->
  forall (i : nat) (session : Session),
    get_or (sessions batch) [] !! i = Some session ->
    exists reply,
      results !! i = Some reply
      /\ reply_timestamp reply = None
      /\ analyze_ecg later (Some session) =
           (ResultBody (mkReply (reply_result reply) (reply_sessionId reply) (Some later)),
            200%Z).
Proof.
  unfold batch_analyze.
  destruct (batch_loop (get_or (sessions batch) []) []) as [final | e] eqn:E;
    cbn [mbind attempt_bind mret attempt_ret]; [| discriminate].
  intros [= <- _ _]. apply batch_loop_done in E as (replies & -> & Hserved). cbn [app].
  intros i session Hi.
  destruct (Forall2_lookup_l _ _ _ _ _ Hserved Hi)
    as (reply & Hreply & ecg_data & voltages & Hdata & Hmap & ->).
  exists (reply_for session voltages None). split; [exact Hreply |].
  split; [reflexivity |].
  unfold analyze_ecg. rewrite Hdata.
  apply voltages_of_done in Hmap. rewrite Hmap. reflexivity.
Qed.

(** ** The detector under a change of scale or polarity *)

(** *** Lists of samples multiplied by a factor *)

Lemma scaled_length (s : Q) (u v : list Q) : scaled s u v -> length v = length u.
Proof. intros H. symmetry. exact (Forall2_length _ _ _ H). Qed.

Lemma scaled_nth (s : Q) (u v : list Q) (i : nat) :
  scaled s u v -> nth i v 0 == s * nth i u 0.
Proof.
  intros H. revert i. induction H as [| a b u v Hab _ IH]; intros [| i]; simpl;
    try ring; auto.
Qed.

Lemma scaled_hd (s : Q) (u v : list Q) : scaled s u v -> hd 0 v == s * hd 0 u.
Proof. intros H. destruct H; simpl; [ring | assumption]. Qed.

Lemma scaled_tl (s : Q) (u v : list Q) : scaled s u v -> scaled s (tl u) (tl v).
Proof. intros H. destruct H; simpl; [constructor | assumption]. Qed.

Lemma scaled_app (s : Q) (u v u' v' : list Q) :
  scaled s u v -> scaled s u' v' -> scaled s (u ++ u') (v ++ v').
Proof. intros H H'. now apply Forall2_app. Qed.

Lemma scaled_rev (s : Q) (u v : list Q) : scaled s u v -> scaled s (rev u) (rev v).
Proof.
  intros H. induction H as [| a b u v Hab _ IH]; simpl; [constructor |].
  apply scaled_app; [exact IH |]. constructor; [exact Hab | constructor].
Qed.

Lemma scaled_firstn (s : Q) (n : nat) (u v : list Q) :
  scaled s u v -> scaled s (firstn n u) (firstn n v).
Proof.
  intros H. revert n. induction H as [| a b u v Hab _ IH]; intros [| n]; simpl;
    try (constructor; fail).
  constructor; [exact Hab | apply IH].
Qed.

Lemma scaled_skipn (s : Q) (n : nat) (u v : list Q) :
  scaled s u v -> scaled s (skipn n u) (skipn n v).
Proof.
  intros H. revert n. induction H as [| a b u v Hab Huv IH]; intros [| n]; simpl.
  - constructor.
  - constructor.
  - constructor; assumption.
  - apply IH.
Qed.

Lemma scaled_last (s : Q) (u v : list Q) :
  scaled s u v -> List.last v 0 == s * List.last u 0.
Proof.
  intros H. induction H as [| a b u v Hab Huv IH]; simpl; [ring |].
  destruct Huv; [assumption | exact IH].
Qed.

Lemma scaled_map (s t : Q) (f g : Q -> Q) (u v : list Q) :
  (forall a b, b == s * a -> g b == t * f a) ->
  scaled s u v -> scaled t (map f u) (map g v).
Proof.
  intros Hfg H. induction H as [| a b u v Hab _ IH]; simpl; constructor; auto.
Qed.

(** *** Removing the mean *)

Lemma fold_Qplus_affine (gain offset : Q) (x x' : list Q) (acc acc' d : Q) :
  affine gain offset x x' -> acc' == gain * acc + d ->
  fold_left Qplus x' acc' ==
  gain * fold_left Qplus x acc + d + offset * inject_Z (Z.of_nat (length x)).
Proof.
  intros H. revert acc acc' d. induction H as [| a b x x' Hab _ IH]; intros acc acc' d E.
  - simpl. change (inject_Z 0) with 0. rewrite E. ring.
  - cbn [fold_left length].
    etransitivity; [apply (IH (acc + a) _ (d + offset)); rewrite E, Hab; ring |].
    rewrite Nat2Z.inj_succ, <- Z.add_1_r, inject_Z_plus.
    change (inject_Z 1) with 1. ring.
Qed.

Lemma np_mean_affine (gain offset : Q) (x x' : list Q) :
  affine gain offset x x' -> x <> [] -> np_mean x' == gain * np_mean x + offset.
Proof.
  intros H Hne. unfold np_mean, Qsum, Qlen, Zlen.
  assert (E := fold_Qplus_affine gain offset x x' 0 0 0 H ltac:(ring)).
  rewrite E, <- (Forall2_length _ _ _ H).
  assert (Hpos := Qlen_pos x Hne). unfold Qlen, Zlen in Hpos.
  field. intros E'. rewrite E' in Hpos. now apply Qlt_irrefl in Hpos.
Qed.

Lemma centered_affine (gain offset : Q) (x x' : list Q) :
  affine gain offset x x' ->
  scaled gain (map (fun v => v - np_mean x) x) (map (fun v => v - np_mean x') x').
Proof.
  intros H. destruct x as [| v0 x0]; [inversion H; constructor |].
  assert (Hm := np_mean_affine gain offset _ _ H ltac:(discriminate)).
  revert Hm. generalize (np_mean x') as m'. generalize (np_mean (v0 :: x0)) as m.
  intros m m' Hm.
  induction H as [| a b x x' Hab _ IH]; simpl; constructor; [rewrite Hab, Hm; ring | exact IH].
Qed.

(** *** The filter is linear in the signal *)

Lemma zip3_scaled (s : Q) (x x' y y' : Q) (u v w w' : list Q) :
  (forall bi ai zn zn', zn' == s * zn ->
     bi * x' + zn' - ai * y' == s * (bi * x + zn - ai * y)) ->
  scaled s w w' ->
  scaled s (zip3 (fun bi ai zn => bi * x + zn - ai * y) u v w)
           (zip3 (fun bi ai zn => bi * x' + zn - ai * y') u v w').
Proof.
  intros Hf H. unfold zip3. generalize (combine u v) as uv. clear u v.
  induction H as [| a b w w' Hab _ IH]; intros [| [bi ai] uv]; simpl;
    try (constructor; fail).
  constructor; [now apply Hf | apply IH].
Qed.

Lemma lfilter_step_scaled (s : Q) (b a z z' : list Q) (x x' : Q) :
  scaled s z z' -> x' == s * x ->
  fst (lfilter_step b a z' x') == s * fst (lfilter_step b a z x)
  /\ scaled s (snd (lfilter_step b a z x)) (snd (lfilter_step b a z' x')).
Proof.
  intros Hz Hx. unfold lfilter_step. cbv zeta. cbn [fst snd].
  assert (Hy : hd 0 b * x' + hd 0 z' == s * (hd 0 b * x + hd 0 z)).
  { rewrite Hx, (scaled_hd s z z' Hz). ring. }
  split; [exact Hy |].
  apply zip3_scaled.
  - intros bi ai zn zn' Hzn. rewrite Hy, Hx, Hzn. ring.
  - apply scaled_app; [now apply scaled_tl |]. constructor; [ring | constructor].
Qed.

Lemma lfilter_run_scaled (s : Q) (b a z z' xs xs' : list Q) :
  scaled s z z' -> scaled s xs xs' ->
  scaled s (fst (lfilter_run b a z xs)) (fst (lfilter_run b a z' xs')).
Proof.
  intros Hz Hxs. revert z z' Hz.
  induction Hxs as [| x x' xs xs' Hx _ IH]; intros z z' Hz; [constructor |].
  rewrite !lfilter_run_cons.
  destruct (lfilter_step_scaled s b a z z' x x' Hz Hx) as [Hy Hzn].
  destruct (lfilter_step b a z x) as [y zn], (lfilter_step b a z' x') as [y' zn'].
  cbn [fst snd] in *.
  specialize (IH zn zn' Hzn).
  destruct (lfilter_run b a zn xs) as [ys zf], (lfilter_run b a zn' xs') as [ys' zf'].
  cbn [fst] in *. constructor; assumption.
Qed.

Lemma odd_ext_scaled (s : Q) (x x' : list Q) (n : nat) :
  scaled s x x' -> scaled s (odd_ext x n) (odd_ext x' n).
Proof.
  intros H. unfold odd_ext. cbv zeta.
  assert (Hh := scaled_hd s x x' H). assert (Hl := scaled_last s x x' H).
  apply scaled_app; [| apply scaled_app; [exact H |]].
  - apply (scaled_map s s).
    + intros a b E. rewrite Hh, E. ring.
    + now apply scaled_rev, scaled_firstn, scaled_tl.
  - apply (scaled_map s s).
    + intros a b E. rewrite Hl, E. ring.
    + now apply scaled_firstn, scaled_tl, scaled_rev.
Qed.

Lemma initial_state_scaled (s : Q) (zi : list Q) (x0 x0' : Q) :
  x0' == s * x0 -> scaled s (map (fun z => z * x0) zi) (map (fun z => z * x0') zi).
Proof.
  intros E. induction zi as [| z zi IH]; simpl; constructor; [rewrite E; ring | exact IH].
Qed.

Lemma filtfilt_scaled (s : Q) (b a x x' : list Q) :
  scaled s x x' -> same_outcome (scaled s) (filtfilt b a x) (filtfilt b a x').
Proof.
  intros H. unfold filtfilt. cbv zeta. rewrite (scaled_length s x x' H).
  destruct (length x <=? 3 * Nat.max (length a) (length b))%nat; [reflexivity |].
  destruct (normalize b a) as [[b' a'] | e]; cbn [mbind result_bind]; [| reflexivity].
  destruct (lfilter_zi b' a') as [zi | e]; cbn [mbind result_bind]; [| reflexivity].
  cbn [same_outcome].
  set (edge := (3 * Nat.max (length a) (length b))%nat).
  assert (Hext := odd_ext_scaled s x x' edge H).
  assert (Hfwd := lfilter_run_scaled s b' a' _ _ _ _
                    (initial_state_scaled s zi _ _ (scaled_hd s _ _ Hext)) Hext).
  assert (Hbwd := lfilter_run_scaled s b' a' _ _ _ _
                    (initial_state_scaled s zi _ _ (scaled_last s _ _ Hfwd))
                    (scaled_rev s _ _ Hfwd)).
  apply scaled_firstn, scaled_skipn, scaled_rev. exact Hbwd.
Qed.


(** *** Derivative, squaring and integration *)

Lemma np_diff_scaled (s : Q) (u v : list Q) : scaled s u v -> scaled s (np_diff u) (np_diff v).
Proof.
  intros H. induction H as [| a b u v Hab Huv IH]; [constructor |].
  destruct Huv as [| a1 b1 u v Hab1 Huv]; [constructor |].
  cbn [np_diff] in *. constructor; [rewrite Hab, Hab1; ring | exact IH].
Qed.

Lemma squares_scaled (s : Q) (u v : list Q) :
  scaled s u v -> scaled (s * s) (map (fun d => d * d) u) (map (fun d => d * d) v).
Proof. apply scaled_map. intros a b E. rewrite E. ring. Qed.

Lemma add_lists_scaled (s : Q) (u u' w w' : list Q) :
  scaled s u u' -> scaled s w w' -> scaled s (add_lists u w) (add_lists u' w').
Proof.
  intros Hu. revert w w'. induction Hu as [| a b u u' Hab Hu IH]; intros w w' Hw.
  - exact Hw.
  - destruct Hw as [| c d w w' Hcd Hw]; cbn [add_lists].
    + constructor; assumption.
    + constructor; [rewrite Hab, Hcd; ring | now apply IH].
Qed.

Lemma convolve_full_scaled (s : Q) (a a' v : list Q) :
  scaled s a a' -> scaled s (convolve_full a v) (convolve_full a' v).
Proof.
  intros H. induction H as [| x x' a a' Hx _ IH]; cbn [convolve_full]; [constructor |].
  apply add_lists_scaled.
  - clear IH. induction v as [| c v IHv]; simpl; constructor; [rewrite Hx; ring | exact IHv].
  - constructor; [ring | exact IH].
Qed.

Lemma np_convolve_same_scaled (s : Q) (a a' v : list Q) :
  scaled s a a' ->
  same_outcome (scaled s) (np_convolve_same a v) (np_convolve_same a' v).
Proof.
  intros H. assert (Hl := scaled_length s a a' H).
  assert (Hc := convolve_full_scaled s a a' v H).
  unfold np_convolve_same. destruct H as [| x x' a a' Hx Ha]; [reflexivity |].
  destruct v as [| c v]; [reflexivity |].
  cbv zeta. cbn [same_outcome]. rewrite Hl.
  now apply scaled_firstn, scaled_skipn.
Qed.

(** *** Comparisons after multiplication by a positive factor *)

Lemma Qltb_scaled (s a b a' b' : Q) :
  0 < s -> a' == s * a -> b' == s * b -> Qltb a' b' = Qltb a b.
Proof.
  intros Hs Ha Hb.
  destruct (Qltb a b) eqn:E.
  - apply Qltb_lt. apply Qltb_lt in E. rewrite Ha, Hb. now apply Qmult_lt_l.
  - apply Qltb_ge. apply Qltb_ge in E. rewrite Ha, Hb. apply Qmult_le_l; assumption.
Qed.

Lemma Qle_bool_scaled (s a b a' b' : Q) :
  0 < s -> a' == s * a -> b' == s * b -> Qle_bool a' b' = Qle_bool a b.
Proof.
  intros Hs Ha Hb. assert (H := Qltb_scaled s b a b' a' Hs Hb Ha).
  unfold Qltb in H. now apply (f_equal negb) in H; rewrite !negb_involutive in H.
Qed.

Lemma Qeq_bool_scaled (s a b a' b' : Q) :
  0 < s -> a' == s * a -> b' == s * b -> Qeq_bool a' b' = Qeq_bool a b.
Proof.
  intros Hs Ha Hb.
  destruct (Qeq_bool a b) eqn:E.
  - apply Qeq_bool_iff. apply Qeq_bool_iff in E. rewrite Ha, Hb, E. reflexivity.
  - destruct (Qeq_bool a' b') eqn:E'; [| reflexivity].
    apply Qeq_bool_iff in E'. rewrite Ha, Hb in E'.
    apply Qmult_inj_l in E'; [| intros Z0; rewrite Z0 in Hs; now apply Qlt_irrefl in Hs].
    apply Qeq_bool_iff in E'. rewrite E' in E. discriminate E.
Qed.

Lemma Qmaxb_scaled (s a b a' b' : Q) :
  0 < s -> a' == s * a -> b' == s * b -> Qmaxb a' b' == s * Qmaxb a b.
Proof.
  intros Hs Ha Hb. unfold Qmaxb. rewrite (Qltb_scaled s a b a' b' Hs Ha Hb).
  now destruct (Qltb a b).
Qed.

Lemma np_max_scaled (s : Q) (u v : list Q) :
  0 < s -> scaled s u v ->
  same_outcome (fun m m' => m' == s * m) (np_max u) (np_max v).
Proof.
  intros Hs H. destruct H as [| a b u v Hab Huv]; [reflexivity |].
  cbn [np_max same_outcome]. revert a b Hab.
  induction Huv as [| c d u v Hcd _ IH]; intros a b Hab; [exact Hab |].
  cbn [fold_left]. apply IH. now apply Qmaxb_scaled.
Qed.

(** *** Peak picking sees the samples only through comparisons *)

Lemma plateau_end_scaled (s : Q) (x x' : list Q) (fuel : nat) (xi xi' : Q)
    (i_max i_ahead : nat) :
  0 < s -> scaled s x x' -> xi' == s * xi ->
  plateau_end fuel x' xi' i_max i_ahead = plateau_end fuel x xi i_max i_ahead.
Proof.
  intros Hs H Hxi. revert i_ahead. induction fuel as [| fuel IH]; intros i_ahead;
    [reflexivity |].
  cbn [plateau_end].
  rewrite (Qeq_bool_scaled s (nth i_ahead x 0) xi _ _ Hs (scaled_nth s x x' i_ahead H) Hxi).
  now rewrite IH.
Qed.

Lemma local_maxima_loop_scaled (s : Q) (x x' : list Q) (fuel i_max i : nat) :
  0 < s -> scaled s x x' ->
  local_maxima_loop fuel x' i_max i = local_maxima_loop fuel x i_max i.
Proof.
  intros Hs H. revert i. induction fuel as [| fuel IH]; intros i; [reflexivity |].
  cbn [local_maxima_loop]. cbv zeta.
  assert (Hn := fun j => scaled_nth s x x' j H).
  rewrite (Qltb_scaled s _ _ _ _ Hs (Hn (i - 1)%nat) (Hn i)).
  rewrite (plateau_end_scaled s x x' _ (nth i x 0) (nth i x' 0) _ _ Hs H (Hn i)).
  rewrite (Qltb_scaled s _ _ _ _ Hs
             (Hn (plateau_end (i_max - i) x (nth i x 0) i_max (i + 1))) (Hn i)).
  now rewrite !IH.
Qed.

Lemma insert_by_scaled (key key' : nat -> Q) (i : nat) (l : list nat) :
  (forall j k, Qle_bool (key' j) (key' k) = Qle_bool (key j) (key k)) ->
  insert_by key' i l = insert_by key i l.
Proof.
  intros H. induction l as [| j l IH]; [reflexivity |].
  cbn [insert_by]. rewrite H, IH. reflexivity.
Qed.

Lemma argsort_scaled (s : Q) (priority priority' : list Q) :
  0 < s -> scaled s priority priority' -> argsort priority' = argsort priority.
Proof.
  intros Hs H. unfold argsort. rewrite (scaled_length s _ _ H).
  induction (seq 0 (length priority)) as [| i t IH]; [reflexivity |].
  cbn [fold_right]. rewrite IH. apply insert_by_scaled.
  intros j k. apply (Qle_bool_scaled s); [exact Hs | |]; now apply scaled_nth.
Qed.

Lemma find_peaks_scaled (s : Q) (x x' : list Q) (height height' : Q) (distance : Z) :
  0 < s -> scaled s x x' -> height' == s * height ->
  find_peaks x' height' distance = find_peaks x height distance.
Proof.
  intros Hs H Hh. unfold find_peaks. destruct (distance <? 1)%Z; [reflexivity |].
  cbv zeta. unfold _local_maxima_1d.
  rewrite (scaled_length s x x' H), (local_maxima_loop_scaled s x x' _ _ _ Hs H).
  set (candidates := map Z.of_nat (local_maxima_loop (length x) x (length x - 1) 1)).
  assert (Hf : filter (fun p => Is_true (Qle_bool height' (nth (Z.to_nat p) x' 0))) candidates
             = filter (fun p => Is_true (Qle_bool height (nth (Z.to_nat p) x 0))) candidates).
  { apply list_filter_iff. intros p.
    now rewrite (Qle_bool_scaled s height (nth (Z.to_nat p) x 0) height' _ Hs Hh
                   (scaled_nth s x x' _ H)). }
  rewrite Hf.
  set (peaks := filter (fun p => Is_true (Qle_bool height (nth (Z.to_nat p) x 0))) candidates).
  unfold _select_by_peak_distance. cbv zeta.
  rewrite (argsort_scaled s (map (fun p => nth (Z.to_nat p) x 0) peaks)
             (map (fun p => nth (Z.to_nat p) x' 0) peaks) Hs); [reflexivity |].
  generalize peaks. intros l.
  induction l as [| p l IH]; simpl; constructor; [| exact IH].
  now apply scaled_nth.
Qed.

(** *** The detector and the analysis *)

Lemma detect_qrs_unfold (ecg_signal : list Q) (sample_rate : Z) :
  detect_qrs_pan_tompkins ecg_signal sample_rate =
  qrs_from_centred (map (fun v => v - np_mean ecg_signal) ecg_signal) sample_rate.
Proof.
  unfold detect_qrs_pan_tompkins, preprocess, qrs_from_centred. cbv zeta.
  destruct (py_div 5 _) as [low | e]; cbn [mbind result_bind]; [| reflexivity].
  destruct (py_div 15 _) as [high | e]; cbn [mbind result_bind]; [| reflexivity].
  destruct (butter butter_band 2 low high) as [[b a] | e]; cbn [mbind result_bind];
    reflexivity.
Qed.

Lemma square_positive (gain : Q) : ~ gain == 0 -> 0 < gain * gain.
Proof.
  intros H. destruct (Qlt_le_dec 0 (gain * gain)) as [Hp | Hn]; [exact Hp |].
  exfalso. apply H. nra.
Qed.

Lemma qrs_from_centred_scaled (s : Q) (centred centred' : list Q) (sample_rate : Z) :
  ~ s == 0 -> scaled s centred centred' ->
  qrs_from_centred centred' sample_rate = qrs_from_centred centred sample_rate.
Proof.
  intros Hgain H. assert (Hs := square_positive s Hgain).
  unfold qrs_from_centred. cbv zeta.
  destruct (py_div 5 _) as [low | e]; cbn [mbind result_bind]; [| reflexivity].
  destruct (py_div 15 _) as [high | e]; cbn [mbind result_bind]; [| reflexivity].
  destruct (butter butter_band 2 low high) as [[b a] | e]; cbn [mbind result_bind];
    [| reflexivity].
  assert (Hp := filtfilt_scaled s b a centred centred' H).
  destruct (filtfilt b a centred) as [filtered | e],
    (filtfilt b a centred') as [filtered' | e'];
    cbn [same_outcome] in Hp; try contradiction; cbn [mbind result_bind];
    [| now rewrite Hp].
  destruct (np_ones_over (py_int (0.15 * inject_Z sample_rate))) as [kernel | e];
    cbn [mbind result_bind]; [| reflexivity].
  assert (Hc := np_convolve_same_scaled (s * s) _ _ kernel
                  (squares_scaled s _ _ (np_diff_scaled s _ _ Hp))).
  destruct (np_convolve_same (map (fun d => d * d) (np_diff filtered)) kernel)
    as [integrated | e],
    (np_convolve_same (map (fun d => d * d) (np_diff filtered')) kernel)
    as [integrated' | e'];
    cbn [same_outcome] in Hc; try contradiction; cbn [mbind result_bind];
    [| now rewrite Hc].
  assert (Hm := np_max_scaled (s * s) integrated integrated' Hs Hc).
  destruct (np_max integrated) as [top | e], (np_max integrated') as [top' | e'];
    cbn [same_outcome] in Hm; try contradiction; cbn [mbind result_bind];
    [| now rewrite Hm].
  apply (find_peaks_scaled (s * s)); [exact Hs | exact Hc |].
  rewrite Hm. ring.
Qed.

Lemma detect_qrs_affine (gain offset : Q) (x x' : list Q) (sample_rate : Z) :
  ~ gain == 0 -> affine gain offset x x' ->
  detect_qrs_pan_tompkins x' sample_rate = detect_qrs_pan_tompkins x sample_rate.
Proof.
  intros Hgain H. rewrite !detect_qrs_unfold.
  apply (qrs_from_centred_scaled gain); [exact Hgain | now apply (centered_affine gain offset)].
Qed.

(** The detector can be run on the centred samples in lowest terms. *)
Lemma detect_qrs_reduced (ecg_signal : list Q) (sample_rate : Z) :
  detect_qrs_pan_tompkins ecg_signal sample_rate =
  qrs_from_centred (map Qred (map (fun v => v - np_mean ecg_signal) ecg_signal)) sample_rate.
Proof.
  rewrite detect_qrs_unfold. symmetry.
  apply (qrs_from_centred_scaled 1); [intros H; discriminate H |].
  generalize (map (fun v => v - np_mean ecg_signal) ecg_signal). intros l.
  induction l as [| v l IH]; simpl; constructor; [rewrite Qred_correct; ring | exact IH].
Qed.

Lemma inverted_affine (ecg_signal : list Q) : affine (-1) 0 ecg_signal (inverted ecg_signal).
Proof.
  induction ecg_signal as [| v x IH]; simpl; constructor; [ring | exact IH].
Qed.

Lemma detect_qrs_inverted (ecg_signal : list Q) (sample_rate : Z) :
  detect_qrs_pan_tompkins (inverted ecg_signal) sample_rate =
  detect_qrs_pan_tompkins ecg_signal sample_rate.
Proof.
  apply (detect_qrs_affine (-1) 0); [intros H; discriminate H | apply inverted_affine].
Qed.

(** The R-peaks do not depend on the polarity of the recording: negating
    every sample leaves the outcome of [detect_qrs_pan_tompkins] unchanged,
    the peaks as well as the exception when it raises.  (Negation is exact
    in floating point, and every step up to the squaring commutes with it.) *)
Theorem detector_ignores_polarity (ecg_signal : list Q) (sample_rate : Z) :
  detect_qrs_pan_tompkins (inverted ecg_signal) sample_rate =
  detect_qrs_pan_tompkins ecg_signal sample_rate.
Proof. apply detect_qrs_inverted. Qed.

(** Of a regular record of [analyze], everything computed from the R-peaks
    is independent of the polarity of the recording: the inverted signal is
    analysed without error too, with the same classification, risk level,
    heart rate and range, rhythm, QRS count, HRV metrics, findings and
    recommendations. *)
Theorem analysis_ignores_polarity (ecg_signal : list Q) (sample_rate : Z)
    (r : AnalysisResult) :
  analyze_try ecg_signal sample_rate = Ok r ->
  exists r',
    analyze_try (inverted ecg_signal) sample_rate = Ok r'
    /\ classification r' = classification r
    /\ risk_level r' = risk_level r
    /\ heartRate (details r') = heartRate (details r)
    /\ heartRateRange (details r') = heartRateRange (details r)
    /\ rhythm (details r') = rhythm (details r)
    /\ qrsCount (details r') = qrsCount (details r)
    /\ hrv (details r') = hrv (details r)
    /\ abnormalities (details r') = abnormalities (details r)
    /\ recommendations r' = recommendations r.
Proof.
  intros H. unfold analyze_try in *. cbv zeta in *.
  rewrite (detect_qrs_inverted ecg_signal sample_rate).
  destruct (_assess_signal_quality ecg_signal) as [sq | e] eqn:Esq;
    cbn [mbind result_bind] in H; [| discriminate H].
  assert (Hsq' : exists sq', _assess_signal_quality (inverted ecg_signal) = Ok sq').
  { destruct ecg_signal as [| v x]; [discriminate Esq |].
    unfold _assess_signal_quality. cbn [inverted map np_max np_min mbind result_bind].
    cbv zeta. destruct (_ || _); [| destruct (_ || _)]; eexists; reflexivity. }
  destruct Hsq' as [sq' ->]. cbn [mbind result_bind].
  destruct (detect_qrs_pan_tompkins ecg_signal sample_rate) as [peaks | e];
    cbn [mbind result_bind] in *; [| discriminate H].
  destruct (calculate_heart_rate peaks sample_rate) as [hr rr].
  destruct (detect_arrhythmias hr rr) as [[cls abn] risk].
  destruct (0 <? length rr)%nat;
    [ destruct (np_max rr) as [longest | e]; cbn [mbind result_bind] in *;
        [| discriminate H];
      destruct (np_min rr) as [shortest | e]; cbn [mbind result_bind] in *;
        [| discriminate H]
    | ];
    cbn [mbind result_bind mret result_ret] in *;
    injection H as <-; (eexists; split; [reflexivity |]); cbn; repeat split; reflexivity.
Qed.

(** ** A perfectly steady rhythm *)

Lemma np_mean_zero (l : list Q) : all_zero l -> np_mean l == 0.
Proof.
  intros H. unfold np_mean, Qsum. rewrite (fold_Qplus_constant 0 l 0 H).
  unfold Qdiv. ring.
Qed.

Lemma np_count_none (l : list bool) : Forall (fun b => b = false) l -> np_count l = 0%Z.
Proof.
  intros H. unfold np_count. induction H as [| b l Hb _ IH]; [reflexivity |].
  rewrite Hb. rewrite filter_cons_False by (simpl; tauto). exact IH.
Qed.

Lemma np_std_constant (c : Q) (l : list Q) :
  exact_at_zero np_sqrt -> constant_signal c l -> l <> [] -> np_std l == 0.
Proof.
  intros Hroot H Hne. unfold np_std. cbv zeta. apply Hroot, np_mean_zero.
  assert (Hz := centered_constant c l Hne H).
  unfold all_zero in *. rewrite Forall_map in Hz. rewrite Forall_map.
  eapply Forall_impl; [exact Hz |]. cbv beta. intros x Hx. rewrite Hx. ring.
Qed.

Lemma np_diff_constant (c : Q) (l : list Q) : constant_signal c l -> all_zero (np_diff l).
Proof.
  intros H. induction H as [| x t Hx Ht IH]; [constructor |].
  destruct Ht as [| y t Hy Ht]; [constructor |].
  cbn [np_diff] in *. constructor; [rewrite Hx, Hy; ring | exact IH].
Qed.

Lemma py_round_comp (x y : Q) (ndigits : nat) : x == y -> py_round x ndigits == py_round y ndigits.
Proof.
  intros E. unfold py_round. cbv zeta.
  rewrite (round_half_even_comp (x * inject_Z (10 ^ Z.of_nat ndigits))
             (y * inject_Z (10 ^ Z.of_nat ndigits))) by now rewrite E.
  reflexivity.
Qed.

Lemma steady_statistics (c : Q) (rr_intervals : list Q) :
  exact_at_zero np_sqrt -> constant_signal c rr_intervals -> 0 < c ->
  rr_intervals <> [] ->
  cv_of rr_intervals == 0 /\ pvc_fires rr_intervals = false
  /\ rhythm_of rr_intervals = "Regular".
Proof.
  intros Hroot H Hc Hne.
  assert (Hm := np_mean_constant c rr_intervals Hne H).
  assert (Hs := np_std_constant c rr_intervals Hroot H Hne).
  assert (Hpos : Qgtb (np_mean rr_intervals) 0 = true) by (apply Qltb_lt; lra).
  assert (Hcv : np_std rr_intervals / np_mean rr_intervals * 100 == 0).
  { rewrite Hs. unfold Qdiv. ring. }
  split; [| split].
  - unfold cv_of. cbv zeta. now rewrite Hpos.
  - unfold pvc_fires. cbv zeta.
    assert (Hnone : pvc_count rr_intervals (np_mean rr_intervals) (np_std rr_intervals) = 0%Z).
    { unfold pvc_count. apply np_count_none. rewrite Forall_map.
      eapply Forall_impl; [exact H |]. cbv beta. intros x Hx.
      apply Qltb_ge. rewrite Hx, Hm, Hs.
      assert (E : c - c == 0) by ring. rewrite E. vm_compute. discriminate. }
    rewrite Hnone. cbn [Z.ltb Z.compare]. now rewrite andb_false_r.
  - unfold rhythm_of. cbv zeta.
    destruct rr_intervals as [| x t]; [contradiction |].
    cbn [length Nat.ltb Nat.leb]. rewrite Hpos.
    destruct (Qltb _ 10) eqn:E; [reflexivity |]. apply Qltb_ge in E. lra.
Qed.

(** A perfectly steady rhythm (all R-R intervals equal and positive, at
    least two of them), with a square root that is exact at 0: the rhythm is
    "Regular", the three HRV metrics are 0, and the classification depends
    on the heart rate alone, "Sinus Bradycardia" below 60, "Sinus
    Tachycardia" above 100 and "Normal Sinus Rhythm" between; it is never
    one of the suspected arrhythmias. *)
Theorem steady_rhythm_classified_by_rate (c heart_rate : Q) (rr_intervals : list Q) :
  exact_at_zero np_sqrt -> constant_signal c rr_intervals -> 0 < c ->
  (2 <= length rr_intervals)%nat ->
  fst (fst (detect_arrhythmias heart_rate rr_intervals)) =
    (if Qltb heart_rate 60 then "Sinus Bradycardia"
     else if Qgtb heart_rate 100 then "Sinus Tachycardia"
     else "Normal Sinus Rhythm")
  /\ rhythm_of rr_intervals = "Regular"
  /\ SDNN (calculate_hrv rr_intervals) == 0
  /\ RMSSD (calculate_hrv rr_intervals) == 0
  /\ pNN50 (calculate_hrv rr_intervals) == 0.
Proof.
  intros Hroot H Hc Hlen.
  assert (Hne : rr_intervals <> []) by (destruct rr_intervals; [simpl in Hlen; lia | discriminate]).
  destruct (steady_statistics c rr_intervals Hroot H Hc Hne) as (Hcv & Hpvc & Hrhythm).
  split; [| split; [exact Hrhythm |]].
  - rewrite detect_arrhythmias_label. unfold final_label. cbv zeta.
    destruct (Nat.ltb_spec (length rr_intervals) 2); [lia |].
    assert (H20 : Qgtb (cv_of rr_intervals) 20 = false) by (apply Qltb_ge; lra).
    assert (H15 : Qgtb (cv_of rr_intervals) 15 = false) by (apply Qltb_ge; lra).
    rewrite H20, H15, Hpvc, andb_false_r. cbn [andb].
    now destruct (Qltb heart_rate 60), (Qgtb heart_rate 100).
  - unfold calculate_hrv. destruct (Nat.ltb_spec (length rr_intervals) 2); [lia |].
    cbv zeta. cbn [SDNN RMSSD pNN50].
    assert (Hms : constant_signal (c * 1000) (map (fun x => x * 1000) rr_intervals)).
    { unfold constant_signal in *. rewrite Forall_map.
      eapply Forall_impl; [exact H |]. cbv beta. intros x Hx. now rewrite Hx. }
    assert (Hms_ne : map (fun x => x * 1000) rr_intervals <> [])
      by (destruct rr_intervals; [contradiction | discriminate]).
    assert (Hd := np_diff_constant _ _ Hms).
    split; [| split].
    + rewrite (py_round_comp _ 0) by now apply (np_std_constant (c * 1000)).
      apply py_round_zero.
    + rewrite (py_round_comp _ 0); [apply py_round_zero |].
      apply Hroot, np_mean_zero. unfold all_zero in *. rewrite Forall_map.
      eapply Forall_impl; [exact Hd |]. cbv beta. intros x Hx. rewrite Hx. ring.
    + rewrite (py_round_comp _ 0); [apply py_round_zero |].
      rewrite np_count_none.
      * destruct (0 <? _)%nat; [| reflexivity]. unfold Qdiv. change (inject_Z 0) with 0. ring.
      * rewrite Forall_map. eapply Forall_impl; [exact Hd |]. cbv beta. intros x Hx.
        apply Qltb_ge. rewrite Hx. vm_compute. discriminate.
Qed.

(** ** The HRV metrics and the statistics they stand for *)





















(** ** Running the analysis once the detector has run *)

Lemma analyze_try_runs (ecg_signal : list Q) (sample_rate : Z) (r_peaks : list Z) :
  ecg_signal <> [] ->
  detect_qrs_pan_tompkins ecg_signal sample_rate = Ok r_peaks ->
  exists r,
    analyze_try ecg_signal sample_rate = Ok r /\ qrsCount (details r) = Some (Zlen r_peaks).
Proof.
  intros Hne Hp. unfold analyze_try. cbv zeta. rewrite Hp.
  assert (Hsq : exists sq, _assess_signal_quality ecg_signal = Ok sq).
  { destruct ecg_signal as [| v x]; [contradiction |].
    unfold _assess_signal_quality. cbn [np_max np_min mbind result_bind].
    cbv zeta. destruct (_ || _); [| destruct (_ || _)]; eexists; reflexivity. }
  destruct Hsq as [sq ->]. cbn [mbind result_bind].
  destruct (calculate_heart_rate r_peaks sample_rate) as [hr rr].
  destruct (detect_arrhythmias hr rr) as [[cls abn] risk].
  destruct rr as [| x t]; cbn [length Nat.ltb Nat.leb np_max np_min mbind result_bind
                                mret result_ret];
    eexists; split; reflexivity.
Qed.

Lemma within_check (lo hi : Q) (x : list Q) :
  forallb (fun v => Qle_bool lo v && Qle_bool v hi) x = true -> within lo hi x.
Proof.
  intros H. apply Forall_forall. intros v Hv. apply list_elem_of_In in Hv.
  rewrite forallb_forall in H. specialize (H v Hv).
  apply andb_true_iff in H as [H1 H2]. now rewrite !Qle_bool_iff in *.
Qed.

End Analyzer.

(** ** The statements above on concrete inputs *)

Lemma butter_250_usable :
  usable_filter (fst (butter_250 2 0 0)) (snd (butter_250 2 0 0)).
Proof.
  unfold usable_filter. do 3 eexists. split; vm_compute; reflexivity.
Qed.

Lemma flat_trace_constant : constant_signal 1 flat_trace.
Proof. unfold constant_signal, flat_trace. simpl. repeat constructor. Qed.

Lemma flat_trace_integer : integer_constant 1 flat_trace.
Proof. split; [exact flat_trace_constant | reflexivity]. Qed.

Lemma flat_trace_fits : filter_fits butter_250 flat_trace 250.
Proof.
  split; [exact butter_250_usable | cbn [fst snd butter_250 flat_trace length repeat Nat.max Nat.mul Nat.add]; lia].
Qed.

(** The detector on three beats 0.8 s apart, and on two beats six samples
    apart at 32 Hz. *)
Lemma pulse_train_peaks :
  detect_qrs_pan_tompkins difference_filter pulse_train 250 = Ok [97; 297; 497]%Z.
Proof. rewrite detect_qrs_reduced. vm_compute. reflexivity. Qed.

Lemma close_beats_peaks :
  detect_qrs_pan_tompkins difference_filter close_beats 32 = Ok [10; 16]%Z.
Proof. rewrite detect_qrs_reduced. vm_compute. reflexivity. Qed.

Lemma pulse_train_nonempty : pulse_train <> [].
Proof. discriminate. Qed.

Lemma pulse_train_within : within (-7) 9 pulse_train.
Proof. apply within_check. vm_compute. reflexivity. Qed.


Lemma detect_arrhythmias_insufficient_data_witness :
  detect_arrhythmias sqrt_down 72 [0.8] = ("Insufficient Data", [], "Unknown").
Proof.
  apply (detect_arrhythmias_insufficient_data sqrt_down 72 [0.8]). simpl. lia.
Defined.

(** C2, as stated, fails: on ten intervals of mean 2 s (30 BPM) the
    bradycardia block sets the risk level to "High" and the irregularity
    block then sets it to "Medium". *)
Lemma risk_lowered_by_later_rule :
  ~ never_lowered (rule_trace sqrt_down (60 / np_mean slow_two_level_rr) slow_two_level_rr).
Proof.
  intros H. vm_compute in H. destruct H as (_ & H & _). lia.
Qed.

Lemma risk_level_last_write_wins_witness :
  snd (detect_arrhythmias sqrt_down 30 slow_two_level_rr) = "Medium".
Proof.
  rewrite (risk_level_last_write_wins sqrt_down 30 slow_two_level_rr).
  - vm_compute. reflexivity.
  - simpl. lia.
Defined.

(** C3, as stated, fails: on five short irregular intervals and one pause
    of 3 s the coefficient of variation exceeds 20, five of the successive
    differences exceed 0.12 s, the classification returned is "Atrial
    Fibrillation (Suspected)", and the risk level returned is "Medium", set
    by block 4 for the pause. *)
Lemma afib_risk_lowered_by_pvc :
  let heart_rate := 60 / np_mean paused_rr in
  20 < cv_of sqrt_down paused_rr
  /\ Qlen paused_rr * 0.3 < inject_Z (large_differences paused_rr)
  /\ fst (fst (detect_arrhythmias sqrt_down heart_rate paused_rr)) =
       "Atrial Fibrillation (Suspected)"
  /\ snd (detect_arrhythmias sqrt_down heart_rate paused_rr) = "Medium"
  /\ snd (detect_arrhythmias sqrt_down heart_rate paused_rr) <> "High".
Proof.
  cbv zeta. split; [vm_compute; reflexivity |]. split; [vm_compute; reflexivity |].
  assert (E : detect_arrhythmias sqrt_down (60 / np_mean paused_rr) paused_rr =
              (fst (fst (detect_arrhythmias sqrt_down (60 / np_mean paused_rr) paused_rr)),
               snd (fst (detect_arrhythmias sqrt_down (60 / np_mean paused_rr) paused_rr)),
               "Medium")).
  { destruct (detect_arrhythmias sqrt_down (60 / np_mean paused_rr) paused_rr)
      as [[label found] risk] eqn:E.
    assert (Hr : risk = "Medium").
    { change risk with (snd (label, found, risk)). rewrite <- E. vm_compute. reflexivity. }
    now rewrite Hr. }
  split; [vm_compute; reflexivity |]. rewrite E. split; [reflexivity | discriminate].
Qed.

Lemma irregularity_rule_witness :
  fst (fst (detect_arrhythmias sqrt_down 75 alternating_rr)) =
    "Atrial Fibrillation (Suspected)"
  /\ snd (detect_arrhythmias sqrt_down 75 alternating_rr) = "High".
Proof.
  assert (H1 : (2 <= length alternating_rr)%nat) by (simpl; lia).
  assert (H2 : 20 < cv_of sqrt_down alternating_rr) by (vm_compute; reflexivity).
  destruct (irregularity_rule sqrt_down 75 alternating_rr H1 H2) as [Haf _].
  destruct Haf as (_ & _ & _ & _ & _ & _ & Hlabel & Hrisk); [vm_compute; reflexivity |].
  split; [exact Hlabel |]. rewrite Hrisk. vm_compute. reflexivity.
Defined.

Lemma analyze_absorbs_exceptions_witness :
  classification (analyze sqrt_down butter_250 [1; 2; 3] 250) = "Analysis Error".
Proof.
  assert (H : analyze_try sqrt_down butter_250 [1; 2; 3] 250 =
              Raise (ValueError "The length of the input vector x must be greater than padlen"))
    by (vm_compute; reflexivity).
  destruct (analyze_absorbs_exceptions sqrt_down butter_250 [1; 2; 3] 250 _ H) as (_ & Hc & _).
  exact Hc.
Defined.

(** C5, as stated, fails: at 30 Hz the exception is the [ValueError] that
    [scipy.signal.butter] raises for a critical frequency equal to the
    Nyquist frequency; no exception named after the sample rate exists. *)
Lemma low_rate_raises_value_error :
  preprocess butter_250 flat_trace 30 =
    Raise (ValueError "Digital filter critical frequencies must be 0 < Wn < 1").
Proof. vm_compute. reflexivity. Qed.

Lemma preprocess_rejects_witness :
  (exists msg, preprocess butter_250 flat_trace 30 = Raise (ValueError msg))
  /\ (exists msg, preprocess butter_250 flat_trace 0 = Raise (ZeroDivisionError msg))
  /\ (exists msg, preprocess butter_250 flat_trace (-250) = Raise (ValueError msg))
  /\ (exists msg, preprocess butter_250 [1; 2; 3] 250 = Raise (ValueError msg)).
Proof.
  split; [| split; [| split]].
  - apply (preprocess_rejects butter_250 flat_trace 30). left. lia.
  - apply (preprocess_rejects butter_250 flat_trace 0). left. lia.
  - apply (preprocess_rejects butter_250 flat_trace (-250)). left. lia.
  - apply (preprocess_rejects butter_250 [1; 2; 3] 250). right. simpl. lia.
Defined.

(** C6, as stated, fails: at 32 Hz the distance handed to [find_peaks] is
    int(0.2 * 32) = 6 samples, and two beats are detected 6 samples apart,
    closer than 0.2 s * 32 = 6.4 samples. *)
Lemma peaks_closer_than_fifth_of_rate :
  py_int (0.2 * inject_Z 32) = 6%Z
  /\ find_peaks [0; 4; 0; 0; 0; 0; 0; 4; 0] (0.3 * 4) (py_int (0.2 * inject_Z 32)) =
       Ok [1; 7]%Z
  /\ detect_qrs_pan_tompkins difference_filter close_beats 32 = Ok [10; 16]%Z
  /\ inject_Z (7 - 1) < 0.2 * inject_Z 32
  /\ inject_Z (16 - 10) < 0.2 * inject_Z 32.
Proof.
  split; [reflexivity |]. split; [vm_compute; reflexivity |].
  split; [exact close_beats_peaks |]. split; reflexivity.
Qed.

Lemma r_peaks_increasing_and_spaced_witness :
  consecutive Z.lt [97; 297; 497]%Z
  /\ consecutive (fun p q => (50 <= q - p)%Z) [97; 297; 497]%Z.
Proof.
  destruct (r_peaks_increasing_and_spaced difference_filter pulse_train 250 _
              pulse_train_peaks) as (Hup & Hgap & _).
  split; [exact Hup | exact Hgap].
Defined.

Lemma confidence_by_quality_and_peaks_witness :
  exists r, analyze_try sqrt_down butter_250 flat_trace 250 = Ok r /\ confidence r == 0.50.
Proof.
  destruct (analyze_try_constant sqrt_down butter_250 1 flat_trace 250
              flat_trace_constant eq_refl flat_trace_fits)
    as (r & sq & Hr & Hsq & Hq & _).
  exists r. split; [exact Hr |].
  destruct (confidence_by_quality_and_peaks sqrt_down butter_250 flat_trace 250 r Hr)
    as (sq' & n & Hsq' & _ & _ & _ & _ & Hother).
  rewrite Hsq in Hsq'. injection Hsq' as <-.
  apply Hother; rewrite Hq; intros [E _]; discriminate.
Defined.



(** C1, as stated, fails: on sixteen equal samples at 250 Hz the
    classification returned is not "Normal Sinus Rhythm". *)
Lemma constant_signal_not_normal_sinus :
  ~ (heartRate (details (analyze sqrt_down butter_250 flat_trace 250)) == 0
     /\ classification (analyze sqrt_down butter_250 flat_trace 250) = "Normal Sinus Rhythm"
     /\ confidence (analyze sqrt_down butter_250 flat_trace 250) == 0.50).
Proof.
  intros (_ & H & _).
  destruct (analyze_try_constant sqrt_down butter_250 1 flat_trace 250
              flat_trace_constant eq_refl flat_trace_fits)
    as (r & sq & Hr & _ & _ & _ & _ & Hc & _).
  unfold analyze in H. rewrite Hr, Hc in H. discriminate H.
Qed.

Lemma analyze_constant_signal_witness :
  classification (analyze sqrt_down butter_250 flat_trace 250) = "Insufficient Data".
Proof.
  assert (Hrate : (30 < 250)%Z) by lia.
  destruct (analyze_constant_signal sqrt_down butter_250 1 flat_trace 250
              flat_trace_integer Hrate flat_trace_fits)
    as (_ & _ & _ & _ & _ & Hc & _).
  exact Hc.
Defined.

Lemma normal_sinus_rhythm_means_no_finding_witness :
  detect_arrhythmias sqrt_down 75 steady_rr =
    ("Normal Sinus Rhythm", [normal_finding 75], "Low").
Proof.
  apply (normal_sinus_rhythm_means_no_finding sqrt_down 75 steady_rr).
  vm_compute. reflexivity.
Defined.

Lemma analyze_unusable_input_witness :
  exists e, analyze sqrt_down butter_250 [1; 2; 3] 250 = error_record e.
Proof.
  apply (analyze_unusable_input sqrt_down butter_250 [1; 2; 3] 250).
  right. right. simpl. lia.
Defined.

Lemma preprocess_keeps_length_witness :
  exists filtered, preprocess butter_250 flat_trace 250 = Ok filtered
    /\ length filtered = length flat_trace.
Proof.
  assert (Hrate : (30 < 250)%Z) by lia.
  destruct (preprocess_constant butter_250 1 flat_trace 250
              flat_trace_constant Hrate flat_trace_fits) as (y & Hy & _).
  exists y. split; [exact Hy |].
  exact (preprocess_keeps_length butter_250 flat_trace 250 y Hy).
Defined.

Lemma preprocess_removes_constant_witness :
  exists filtered, preprocess butter_250 flat_trace 250 = Ok filtered /\ all_zero filtered.
Proof.
  assert (Hrate : (30 < 250)%Z) by lia.
  exact (preprocess_removes_constant butter_250 1 flat_trace 250
           flat_trace_integer Hrate flat_trace_fits).
Defined.

Lemma heart_rate_from_first_and_last_witness :
  Qabs (fst (calculate_heart_rate regular_peaks 250) - 75) <= 75 * (1 # 1000000000).
Proof.
  assert (H1 : (2 <= length regular_peaks)%nat) by (simpl; lia).
  assert (H2 : (0 < 250)%Z) by lia.
  assert (H3 : StronglySorted Z.lt regular_peaks).
  { unfold regular_peaks. repeat constructor; lia. }
  destruct (heart_rate_from_first_and_last regular_peaks 250 H1 H2 H3) as (_ & _ & H).
  assert (E : 60 * inject_Z 250 * (Qlen regular_peaks - 1)
              / inject_Z (List.last regular_peaks 0 - hd 0 regular_peaks)%Z == 75)
    by (vm_compute; reflexivity).
  rewrite E in H. exact H.
Defined.

Lemma r_peaks_within_integrated_signal_witness :
  Forall (fun p => (0 < p < Zlen pulse_train - 2)%Z) [97; 297; 497]%Z.
Proof.
  destruct (r_peaks_within_integrated_signal difference_filter pulse_train 250 _
              pulse_train_peaks) as [_ H].
  apply H. vm_compute. reflexivity.
Defined.

Lemma heart_rate_at_most_300_witness :
  0 <= heartRate (details (analyze sqrt_down butter_250 flat_trace 250)) <= 300.
Proof.
  apply (heart_rate_at_most_300 sqrt_down butter_250 flat_trace 250). reflexivity.
Defined.


Lemma recommendations_by_label_witness :
  exists r advice,
    analyze_try sqrt_down butter_250 flat_trace 250 = Ok r
    /\ recommendations r = Some advice
    /\ (classification r = "Insufficient Data" \/ classification r = "Sinus Arrhythmia"
        \/ classification r = "Premature Ventricular Contractions" -> advice = []).
Proof.
  destruct (analyze_try_constant sqrt_down butter_250 1 flat_trace 250
              flat_trace_constant eq_refl flat_trace_fits) as (r & sq & Hr & _).
  destruct (recommendations_by_label sqrt_down butter_250 flat_trace 250 r Hr)
    as (advice & H1 & _ & H2 & _).
  exists r, advice. split; [exact Hr |]. split; assumption.
Defined.

Lemma rhythm_agrees_with_label_witness :
  exists r,
    analyze_try sqrt_down butter_250 flat_trace 250 = Ok r
    /\ In (rhythm (details r)) ["Regular"; "Irregular"; "Unknown"].
Proof.
  destruct (analyze_try_constant sqrt_down butter_250 1 flat_trace 250
              flat_trace_constant eq_refl flat_trace_fits) as (r & sq & Hr & _).
  destruct (rhythm_agrees_with_label sqrt_down butter_250 flat_trace 250 r Hr) as [H _].
  exists r. split; assumption.
Defined.

Lemma narrow_signal_is_poor_witness :
  exists r,
    analyze_try sqrt_down difference_filter pulse_train 250 = Ok r
    /\ qrsCount (details r) = Some 3%Z
    /\ confidence r == 0.5.
Proof.
  destruct (analyze_try_runs sqrt_down difference_filter pulse_train 250 _
              pulse_train_nonempty pulse_train_peaks) as (r & Hr & Hcount).
  destruct (narrow_signal_is_poor sqrt_down difference_filter (-7) 9 pulse_train 250 r
              pulse_train_within) as [_ H]; [vm_compute; discriminate | exact Hr |].
  exists r. split; [exact Hr |]. split; assumption.
Defined.

Lemma analysis_error_served_as_success_witness :
  exists e,
    analyze_ecg sqrt_down butter_250 "2025-10-02T10:00:00" (Some empty_session) =
      (ResultBody (mkReply (error_record e) "unknown" (Some "2025-10-02T10:00:00")), 200%Z).
Proof.
  apply (analysis_error_served_as_success sqrt_down butter_250 "2025-10-02T10:00:00"
           empty_session [] eq_refl).
  - constructor.
  - now left.
Defined.

Lemma batch_agrees_with_single_witness :
  exists reply,
    [reply_for sqrt_down butter_250 one_sample_session [0.5] None] !! 0%nat = Some reply
    /\ reply_timestamp reply = None
    /\ analyze_ecg sqrt_down butter_250 "2025-10-02T10:05:00" (Some one_sample_session) =
         (ResultBody (mkReply (reply_result reply) (reply_sessionId reply)
                        (Some "2025-10-02T10:05:00")), 200%Z).
Proof.
  apply (batch_agrees_with_single sqrt_down butter_250
           "2025-10-02T10:00:00" "2025-10-02T10:05:00"
           (mkBatch (Some [one_sample_session]))
           [reply_for sqrt_down butter_250 one_sample_session [0.5] None] 1
           "2025-10-02T10:00:00" eq_refl 0%nat one_sample_session eq_refl).
Defined.

Lemma detector_ignores_polarity_witness :
  detect_qrs_pan_tompkins difference_filter (inverted pulse_train) 250 =
    Ok [97; 297; 497]%Z.
Proof.
  rewrite (detector_ignores_polarity difference_filter pulse_train 250).
  exact pulse_train_peaks.
Defined.

Lemma analysis_ignores_polarity_witness :
  exists r r',
    analyze_try sqrt_down difference_filter pulse_train 250 = Ok r
    /\ qrsCount (details r) = Some 3%Z
    /\ analyze_try sqrt_down difference_filter (inverted pulse_train) 250 = Ok r'
    /\ classification r' = classification r
    /\ hrv (details r') = hrv (details r).
Proof.
  destruct (analyze_try_runs sqrt_down difference_filter pulse_train 250 _
              pulse_train_nonempty pulse_train_peaks) as (r & Hr & Hcount).
  destruct (analysis_ignores_polarity sqrt_down difference_filter pulse_train 250 r Hr)
    as (r' & Hr' & H1 & _ & _ & _ & _ & _ & H7 & _).
  exists r, r'. split; [exact Hr |]. split; [exact Hcount |]. split; [exact Hr' |].
  split; assumption.
Defined.

Lemma sqrt_down_exact_at_zero : exact_at_zero sqrt_down.
Proof.
  intros [n d] E. unfold Qeq in E. simpl in E. assert (Hn : n = 0%Z) by lia.
  subst n. reflexivity.
Qed.

Lemma steady_rr_constant : constant_signal 0.8 steady_rr.
Proof. repeat constructor. Qed.

Lemma steady_rhythm_classified_by_rate_witness :
  fst (fst (detect_arrhythmias sqrt_down 75 steady_rr)) = "Normal Sinus Rhythm"
  /\ rhythm_of sqrt_down steady_rr = "Regular"
  /\ SDNN (calculate_hrv sqrt_down steady_rr) == 0
  /\ RMSSD (calculate_hrv sqrt_down steady_rr) == 0
  /\ pNN50 (calculate_hrv sqrt_down steady_rr) == 0.
Proof.
  apply (steady_rhythm_classified_by_rate sqrt_down 0.8 75 steady_rr
           sqrt_down_exact_at_zero steady_rr_constant eq_refl).
  simpl. lia.
Defined.
